(** * qdu_qcodes_drivers: a shallow embedding of the instrument drivers

    The drivers are Python classes built on the QCoDeS framework.  The
    modules below:

    - [Py]        the Python notions every driver shares: exceptions, the
                  outcome of a call, a state-and-exception monad, decimal
                  text and fixed-point rounding ([PyFacts] holds their
                  lemmas);
    - [Stahl]     drivers/Stahl/HV324.py;
    - [MS2830]    drivers/Anritsu/MS2830.py;
    - [BlueFors]  drivers/BlueFors/BlueFors.py;
    - [ValMapping] the [val_mapping] tables declared by the drivers;
    - [AFG31000]  drivers/Tektronix/AFG31000.py;
    - [Rounding], [FixedPoint]  the numeric Parameters written with a
                  fixed number of decimals
                  (drivers/StanfordResearchSystems/SG384.py,
                  drivers/NF/LI5660.py);
    - [StahlMore], [StahlCodes], [StahlNames]  HV324.py, continued: the
                  texts a channel writes, the identity reply, the
                  construction of the instrument;
    - [MS2830More], [BlueForsMore], [AFG31000More], [ValMappingMore]
                  the same drivers, continued;
    - [NF]        drivers/NF/LI5660.py and drivers/NF/LI5640.py;
    - [AH2500A]   drivers/AndeenHagerling/AH2500A.py.

    Conventions.  Python floats are embedded as exact rationals ([Q]);
    fixed-point text such as [f"{x:.6f}"] is embedded as the integer count
    of its last decimal place.  Wire traffic is embedded as a log of
    structured requests rather than raw text.  Calls that can raise are
    functions into [outcome]; calls that also touch the driver's state or
    the wire live in the monad [M]. *)

From Stdlib Require Import ZArith QArith Qround Qabs Lqa Lia.
From Stdlib Require Import List String Ascii Bool.
From Stdlib Require Import DecimalString DecimalZ DecimalPos.
Import ListNotations.

(* ================================================================= *)
(** ** Python core *)

Module Py.

(** The exception classes that occur in the drivers, by name.
    [FileNotFoundError] and [PermissionError] are subclasses of [OSError];
    [KeyError] and [IndexError] are siblings under [LookupError];
    [ParserError] is what pandas raises on a malformed table (a
    [ValueError] subclass); [VisaIOError] is what the VISA transport raises
    on a failed exchange. *)
Inductive exn : Type :=
  | ValueError
  | RuntimeError
  | KeyError
  | IndexError
  | ZeroDivisionError
  | OSError
  | FileNotFoundError
  | PermissionError
  | ParserError
  | VisaIOError.

Definition exn_eqb (a b : exn) : bool :=
  match a, b with
  | ValueError, ValueError | RuntimeError, RuntimeError
  | KeyError, KeyError | IndexError, IndexError
  | ZeroDivisionError, ZeroDivisionError | OSError, OSError
  | FileNotFoundError, FileNotFoundError
  | PermissionError, PermissionError | ParserError, ParserError
  | VisaIOError, VisaIOError => true
  | _, _ => false
  end.

(** [isinstance e cls]: [e] is [cls] or one of its subclasses. *)
Definition isinstance (e cls : exn) : bool :=
  exn_eqb e cls ||
  match e, cls with
  | FileNotFoundError, OSError => true
  | PermissionError, OSError => true
  | ParserError, ValueError => true
  | _, _ => false
  end.

(** [LookupError] is the common base of [KeyError] and [IndexError]. *)
Definition is_lookup_error (e : exn) : bool :=
  match e with
  | KeyError | IndexError => true
  | _ => false
  end.

Inductive outcome (A : Type) : Type :=
  | Return (a : A)
  | Raise (e : exn).
Arguments Return {A} a.
Arguments Raise {A} e.

Definition returns {A} (o : outcome A) : bool :=
  match o with Return _ => true | Raise _ => false end.

(** A call that reads and writes a state [S] and either returns or
    raises.  A raise keeps the state reached so far: Python does not roll
    back the assignments made before the exception. *)
Definition M (S A : Type) : Type := S -> S * outcome A.

Definition ret {S A} (a : A) : M S A := fun s => (s, Return a).
Definition raise {S A} (e : exn) : M S A := fun s => (s, Raise e).
Definition bind {S A B} (c : M S A) (k : A -> M S B) : M S B :=
  fun s =>
    match c s with
    | (s', Return a) => k a s'
    | (s', Raise e) => (s', Raise e)
    end.
Definition gets {S A} (f : S -> A) : M S A := fun s => (s, Return (f s)).
Definition modify {S} (f : S -> S) : M S unit := fun s => (f s, Return tt).
Definition lift {S A} (o : outcome A) : M S A := fun s => (s, o).

(** The [except] clauses of a [try]: each names exception classes and
    a handler; the first clause with a class the exception is an
    instance of handles it, and with no such clause it propagates. *)
Fixpoint handle {S A} (clauses : list (list exn * (exn -> M S A)))
    (e : exn) : M S A :=
  match clauses with
  | [] => raise e
  | (classes, h) :: rest =>
      if existsb (isinstance e) classes then h e else handle rest e
  end.

(** [try: c except ...]. *)
Definition try_except {S A} (c : M S A)
    (clauses : list (list exn * (exn -> M S A))) : M S A :=
  fun s =>
    match c s with
    | (s', Return a) => (s', Return a)
    | (s', Raise e) => handle clauses e s'
    end.

(** [for x in xs: body x]. *)
Fixpoint for_each {S A} (xs : list A) (body : A -> M S unit) : M S unit :=
  match xs with
  | [] => ret tt
  | x :: rest => bind (body x) (fun _ => for_each rest body)
  end.

Module Notations.
Notation "x <- c ;; k" := (bind c (fun x => k))
  (at level 61, c at next level, right associativity).
Notation "c ;;; k" := (bind c (fun _ => k))
  (at level 61, right associativity).
End Notations.

(** [range(1, n + 1)]. *)
Definition range1 (n : Z) : list Z :=
  map (fun i => Z.of_nat i) (seq 1 (Z.to_nat n)).

(** [add_parameter(name, ...)] on the object under construction, whose
    registered Parameter names are the state. *)
Definition add_parameter (name : string) : M (list string) unit :=
  modify (fun registered => (registered ++ [name])%list).

(** A character that may stand inside an identifier
    ([str.isidentifier], code points 0 to 255): a letter, a digit, the
    underscore, or one of the Latin-1 letters. *)
Definition is_identifier_char (c : ascii) : bool :=
  let n := nat_of_ascii c in
  ((48 <=? n) && (n <=? 57) || (65 <=? n) && (n <=? 90) || (n =? 95)
   || (97 <=? n) && (n <=? 122)
   || (n =? 170) || (n =? 181) || (n =? 183) || (n =? 186)
   || (192 <=? n) && (n <=? 214) || (216 <=? n) && (n <=? 246)
   || (248 <=? n) && (n <=? 255))%nat.

(** The name of an instrument module is acceptable when the full name,
    the parent's name and the module's joined by an underscore, is an
    identifier once hyphens are taken as underscores.  The parent's own
    name passed this check when the parent was built, so what counts is
    that every character of the module's name may stand inside an
    identifier. *)
Definition valid_module_name (name : string) : bool :=
  forallb (fun c => is_identifier_char c || Ascii.eqb c "-")
          (list_ascii_of_string name).

(** [InstrumentChannel.__init__(parent, name)], reached by
    [super().__init__(parent, name)]: a name that is not acceptable is
    a [ValueError]. *)
Definition InstrumentChannel_init (name : string) : outcome unit :=
  if valid_module_name name then Return tt else Raise ValueError.

(** [self.add_submodule(name, module)] on an instrument whose attached
    names are [attached]: a name in use is refused. *)
Definition add_submodule (attached : list string) (name : string)
  : outcome (list string) :=
  if existsb (String.eqb name) attached
  then Raise KeyError
  else Return (attached ++ [name])%list.

(** *** Decimal text *)

(** [str(n)] for an [int]. *)
Definition str (n : Z) : string := NilZero.string_of_int (Z.to_int n).

Definition is_digit (c : ascii) : bool :=
  let n := nat_of_ascii c in (48 <=? n)%nat && (n <=? 57)%nat.

Definition digit_value (c : ascii) : Z := Z.of_nat (nat_of_ascii c) - 48.

(** The number denoted by a string of decimal digits, as [int] and
    [float] read it. *)
Fixpoint digits_value_from (acc : Z) (s : string) : Z :=
  match s with
  | EmptyString => acc
  | String c rest => digits_value_from (10 * acc + digit_value c) rest
  end.
Definition digits_value (s : string) : Z := digits_value_from 0 s.

(** [int(s)] on the texts an instrument sends: an optional minus sign and
    at least one decimal digit; anything else is a [ValueError].  (The
    surrounding blanks, the plus sign and the underscores Python also
    accepts do not occur.) *)
Definition int (s : string) : outcome Z :=
  match NilZero.int_of_string s with
  | Some d => Return (Z.of_int d)
  | None => Raise ValueError
  end.

(** *** Rounding to a fixed number of decimals *)

(** Round to the nearest integer, ties to even: the rounding of
    [format(x, ".nf")] and of [round(x, n)] once [x] is scaled by
    [10^n]. *)
Definition round_half_even (q : Q) : Z :=
  let f := Qfloor q in
  match (q - inject_Z f ?= 1 # 2)%Q with
  | Lt => f
  | Gt => (f + 1)%Z
  | Eq => if Z.even f then f else (f + 1)%Z
  end.

Definition pow10 (n : nat) : Q := inject_Z (10 ^ Z.of_nat n).

(** [f"{x:.nf}"], as the integer count of units of [10^-n]. *)
Definition format_f (n : nat) (x : Q) : Z :=
  round_half_even (x * pow10 n)%Q.

(** The float written by a fixed-point text of [n] decimals. *)
Definition of_fixed (n : nat) (k : Z) : Q := (inject_Z k / pow10 n)%Q.

(** [round(x, n)]. *)
Definition round (x : Q) (n : nat) : Q := of_fixed n (format_f n x).

End Py.

(** Facts about the core. *)
Module PyFacts.
Import Py.

(** [int(str(n)) == n]. *)
Lemma int_str (n : Z) : int (str n) = Return n.
Proof.
  unfold int, str. rewrite NilZero.isi.
  - rewrite DecimalZ.of_to. reflexivity.
  - destruct n; simpl; intros H; inversion H.
    eapply DecimalPos.Unsigned.to_uint_nonnil; eassumption.
  - destruct n; simpl; intros H; inversion H.
    eapply DecimalPos.Unsigned.to_uint_nonnil; eassumption.
Qed.

Lemma str_inj (a b : Z) : str a = str b -> a = b.
Proof.
  intros H. pose proof (int_str a) as Ha. rewrite H, int_str in Ha.
  inversion Ha. reflexivity.
Qed.

Lemma range1_bounds (n k : Z) : In k (range1 n) <-> (1 <= k <= n)%Z.
Proof.
  unfold range1. split.
  - intros H. apply in_map_iff in H as (i & <- & Hi).
    apply in_seq in Hi. lia.
  - intros H. apply in_map_iff. exists (Z.to_nat k).
    split; [lia | apply in_seq; lia].
Qed.

Lemma length_append (a b : string) :
  String.length (a ++ b) = (String.length a + String.length b)%nat.
Proof. induction a as [| c a IH]; simpl; [| rewrite IH]; reflexivity. Qed.

(** *** Fixed-point rounding *)

Lemma round_half_even_close (q : Q) :
  (Qabs (inject_Z (round_half_even q) - q) <= 1 # 2)%Q.
Proof.
  unfold round_half_even.
  pose proof (Qfloor_le q) as Hlo.
  pose proof (Qlt_floor q) as Hhi.
  rewrite inject_Z_plus in Hhi.
  change (inject_Z 1) with 1%Q in Hhi.
  apply Qabs_Qle_condition.
  destruct (Qcompare_spec (q - inject_Z (Qfloor q)) (1 # 2)) as [He | Hl | Hg].
  - destruct (Z.even (Qfloor q)).
    + split; lra.
    + rewrite inject_Z_plus. change (inject_Z 1) with 1%Q. split; lra.
  - split; lra.
  - rewrite inject_Z_plus. change (inject_Z 1) with 1%Q. split; lra.
Qed.

Lemma pow10_pos (n : nat) : (0 < pow10 n)%Q.
Proof.
  unfold pow10. change 0%Q with (inject_Z 0). rewrite <- Zlt_Qlt.
  apply Z.pow_pos_nonneg; lia.
Qed.

(** A value written with [n] decimals and read back is off by at most
    half a unit of the last place. *)
Lemma of_fixed_format_close (n : nat) (x : Q) :
  (Qabs (of_fixed n (format_f n x) - x) <= (1 # 2) / pow10 n)%Q.
Proof.
  unfold of_fixed, format_f.
  pose proof (pow10_pos n) as Hp.
  pose proof (round_half_even_close (x * pow10 n)) as Hr.
  apply Qabs_Qle_condition in Hr. apply Qabs_Qle_condition.
  set (k := inject_Z (round_half_even (x * pow10 n))) in *.
  set (p := pow10 n) in *.
  assert (Hne : ~ p == 0) by lra.
  assert (E1 : k / p - x == (k - x * p) / p) by (field; exact Hne).
  assert (E2 : - ((1 # 2) / p) == (- (1 # 2)) / p) by (field; exact Hne).
  rewrite E1, E2.
  destruct Hr as [Hr1 Hr2].
  split; apply Qmult_le_compat_r; try assumption;
    apply Qlt_le_weak, Qinv_lt_0_compat; exact Hp.
Qed.

End PyFacts.

(* ================================================================= *)
(** ** drivers/Stahl/HV324.py *)

Module Stahl.
Import Py Py.Notations PyFacts.
Local Open Scope string_scope.

(** *** The wire *)

(** The texts the driver writes.  The instrument identifier that prefixes
    every text but [IDN] is fixed for an instrument and is left out.
    - [ReqV ch]               is ["<id> V<ch>"];
    - [ReqI ch]               is ["<id> I<ch>"];
    - [ReqCH ch code]         is ["<id> CH<ch> <code:.6f>"], with [code]
                              counting units of [10^-6];
    - [ReqDISAuto]            is ["<id> DIS AUTO 0"];
    - [ReqDISLabel ch name]   is ["<id> DIS L<ch> <name>"];
    - [ReqDISRamp ch name t]  is ["<id> DIS L<ch> <name> ramp  <t:.4f>V"];
    - [ReqDISSet ch name t]   is ["<id> DIS L<ch> <name> set  <t:.4f>V"],
                              with [t] counting units of [10^-4]. *)
Inductive request : Type :=
  | ReqIDN
  | ReqV (ch : Z)
  | ReqI (ch : Z)
  | ReqCH (ch : Z) (code : Z)
  | ReqDISAuto
  | ReqDISLabel (ch : Z) (name : string)
  | ReqDISRamp (ch : Z) (name : string) (target : Z)
  | ReqDISSet (ch : Z) (name : string) (target : Z).

(** The texts the instrument answers: the acknowledge character
    [chr(6)], a fixed-point numeral of six decimals, or any other text. *)
Inductive reply : Type :=
  | Ack
  | Numeral (micro : Z)
  | Text (s : string).

Definition reply_eqb (a b : reply) : bool :=
  match a, b with
  | Ack, Ack => true
  | Numeral m, Numeral n => Z.eqb m n
  | Text s, Text t => String.eqb s t
  | _, _ => false
  end.

(** [acknowledge_reply = chr(6)]. *)
Definition acknowledge_reply : reply := Ack.

(** [float(reply)] on the replies of the device: a numeral of six
    decimals reads as a float, the acknowledge character does not.
    [Text] stands for the other texts the device may send, none of
    which is meant to be a number; a text in another spelling that
    Python's [float] would read (['0.75'], ['1e0'], ['nan']) is not
    followed here. *)
Definition float (r : reply) : outcome Q :=
  match r with
  | Numeral m => Return (of_fixed 6 m)
  | Ack | Text _ => Raise ValueError
  end.

(** *** Identity reply *)

(** The dictionary [parse_idn_string] returns; [HV324.__init__] copies
    its entries onto the instrument as attributes. *)
Record idn_info : Type := {
  model : string;
  serial_number : string;
  voltage_range : Q;
  n_channels : Z;
  output_type : option string
}.

(** A matcher consumes a prefix of the text and yields what it captured
    and the rest. *)
Definition matcher : Type := string -> option (string * string).

(** A literal. *)
Fixpoint lit (l : string) : matcher :=
  fun s =>
    match l with
    | EmptyString => Some (EmptyString, s)
    | String c l' =>
        match s with
        | String d s' =>
            if Ascii.eqb c d then
              match lit l' s' with
              | Some (m, rest) => Some (String d m, rest)
              | None => None
              end
            else None
        | EmptyString => None
        end
    end.

(** [a|b]: the first alternative that matches. *)
Definition alt (a b : matcher) : matcher :=
  fun s => match a s with Some r => Some r | None => b s end.

(** [p{n}] for a character class [p]. *)
Fixpoint class_n (p : ascii -> bool) (n : nat) : matcher :=
  fun s =>
    match n with
    | O => Some (EmptyString, s)
    | S n' =>
        match s with
        | String d s' =>
            if p d then
              match class_n p n' s' with
              | Some (m, rest) => Some (String d m, rest)
              | None => None
              end
            else None
        | EmptyString => None
        end
    end.

(** [[buqsm]]. *)
Definition is_variant (c : ascii) : bool :=
  existsb (Ascii.eqb c) ["b"; "u"; "q"; "s"; "m"]%char.

(** The five groups of
    [(HV|BS)(\d{3}) (\d{3}) (\d{2}) ([buqsm])] matched at the start of
    the text.  The reply of the serial instrument is ASCII, so [\d] is
    one of the ten digits.  Every part of the pattern has a fixed width
    and the two alternatives exclude each other, so a position has at
    most one match. *)
Definition match_here (s : string)
  : option (string * string * string * string * string) :=
  match alt (lit "HV") (lit "BS") s with
  | None => None
  | Some (g1, s1) =>
  match class_n is_digit 3 s1 with
  | None => None
  | Some (g2, s2) =>
  match lit " " s2 with
  | None => None
  | Some (_, s3) =>
  match class_n is_digit 3 s3 with
  | None => None
  | Some (g3, s4) =>
  match lit " " s4 with
  | None => None
  | Some (_, s5) =>
  match class_n is_digit 2 s5 with
  | None => None
  | Some (g4, s6) =>
  match lit " " s6 with
  | None => None
  | Some (_, s7) =>
  match class_n is_variant 1 s7 with
  | None => None
  | Some (g5, _) => Some (g1, g2, g3, g4, g5)
  end end end end end end end end.

(** [re.search]: the match at the leftmost position that has one. *)
Fixpoint search (s : string)
  : option (string * string * string * string * string) :=
  match match_here s with
  | Some g => Some g
  | None =>
      match s with
      | EmptyString => None
      | String _ rest => search rest
      end
  end.

(** The lookup table of the last converter, as [dict.get]. *)
Definition output_type_get (code : string) : option string :=
  if String.eqb code "b" then Some "bipolar"
  else if String.eqb code "u" then Some "unipolar"
  else if String.eqb code "q" then Some "quadrupole"
  else if String.eqb code "s" then Some "steerer"
  else if String.eqb code "m" then Some "bipolar milivolt"
  else None.

Definition parse_idn_string (idn_string : string) : outcome idn_info :=
  match search idn_string with
  | None => Raise RuntimeError
  | Some (g1, g2, g3, g4, g5) =>
      Return {| model := g1;
                serial_number := g2;
                voltage_range := inject_Z (digits_value g3);
                n_channels := digits_value g4;
                output_type := output_type_get g5 |}
  end.

(** *** The channel and its voltage Parameter *)

(** What a [StahlChannel] keeps: its parent's identity (by reference;
    the identity never changes after construction), its name and
    number. *)
Record StahlChannel : Type := {
  parent : idn_info;
  ch_name : string;
  channel_number : Z
}.

Section Channel.

(** The transport: a state of its own and its answer to one written
    text; an exchange may raise instead of answering. *)
Variable T : Type.
Variable respond : T -> request -> T * outcome reply.

(** What a call can change: the transport, the log of texts written,
    the stepping configuration and the cache of the voltage Parameter,
    and the warnings logged. *)
Record state : Type := {
  wire : T;
  sent : list request;
  step : option Q;
  inter_delay : Q;
  cache : option Q;
  warnings : list string
}.

Definition with_step (s : option Q) (st : state) : state :=
  {| wire := wire st; sent := sent st; step := s;
     inter_delay := inter_delay st; cache := cache st;
     warnings := warnings st |}.

Definition with_inter_delay (d : Q) (st : state) : state :=
  {| wire := wire st; sent := sent st; step := step st;
     inter_delay := d; cache := cache st; warnings := warnings st |}.

Definition with_cache (c : option Q) (st : state) : state :=
  {| wire := wire st; sent := sent st; step := step st;
     inter_delay := inter_delay st; cache := c;
     warnings := warnings st |}.

Definition warning (msg : string) : M state unit :=
  modify (fun st =>
    {| wire := wire st; sent := sent st; step := step st;
       inter_delay := inter_delay st; cache := cache st;
       warnings := (warnings st ++ [msg])%list |}).

(** [self.ask_raw(text)] and [self.ask(text)]: write the text, read one
    reply. *)
Definition ask_raw (req : request) : M state reply :=
  fun st =>
    let (w, r) := respond (wire st) req in
    ({| wire := w; sent := (sent st ++ [req])%list; step := step st;
        inter_delay := inter_delay st; cache := cache st;
        warnings := warnings st |}, r).

Definition ask (req : request) : M state unit :=
  ask_raw req ;;; ret tt.

Variable self : StahlChannel.

Definition encode_voltage (voltage : Q) : Q :=
  (voltage / (2 * voltage_range (parent self)) + (1 # 2))%Q.

Definition decode_voltage (raw : Q) : Q :=
  round ((raw - (1 # 2)) * 2 * voltage_range (parent self))%Q 6.

Definition _get_voltage : M state Q :=
  get_raw <- ask_raw (ReqV (channel_number self)) ;;
  raw <- lift (float get_raw) ;;
  ret (decode_voltage raw).

Definition _set_voltage (voltage : Q) : M state unit :=
  if Qeq_bool (2 * voltage_range (parent self)) 0
  then raise ZeroDivisionError
  else
    let set_voltage := encode_voltage voltage in
    response <- ask_raw (ReqCH (channel_number self)
                               (format_f 6 set_voltage)) ;;
    if negb (reply_eqb response acknowledge_reply)
    then warning "Didn't recieve an acknowledge reply"
    else ret tt.

(** **** The QCoDeS Parameter around the two callables

    [add_parameter('voltage', get_cmd=self._get_voltage,
    get_parser=float, set_cmd=self._set_voltage,
    vals=Numbers(min_value=-10.00, max_value=10.00))].  The Parameter
    class is the framework's; what follows is its behaviour on this
    declaration. *)

(** [vals.validate(value)]. *)
Definition validate (value : Q) : outcome unit :=
  if Qle_bool (-10) value && Qle_bool value 10
  then Return tt else Raise ValueError.

(** [self.voltage.step = s]: [None] and [0] switch stepping off, a
    negative step is refused. *)
Definition set_step (s : option Q) : M state unit :=
  match s with
  | None => modify (with_step None)
  | Some x =>
      if Qeq_bool x 0 then modify (with_step None)
      else if Qle_bool x 0 then raise ValueError
      else modify (with_step (Some x))
  end.

(** [self.voltage.inter_delay = d]: a negative delay is refused. *)
Definition set_inter_delay (d : Q) : M state unit :=
  if Qle_bool 0 d then modify (with_inter_delay d) else raise ValueError.

(** [self.voltage()]. *)
Definition voltage_get : M state Q :=
  v <- _get_voltage ;;
  modify (with_cache (Some v)) ;;;
  ret v.

(** [permissive_range(start, stop, step)]: the points from [start]
    towards [stop], [stop] excluded. *)
Definition permissive_range (start stop stp : Q) : list Q :=
  let signed_step :=
    (if Qlt_le_dec start stop then Qabs stp else - Qabs stp)%Q in
  let step_count :=
    Qceiling ((stop - start) / signed_step - (1 # 10000000000))%Q in
  map (fun i => (start + inject_Z (Z.of_nat i) * signed_step)%Q)
      (seq 0 (Z.to_nat step_count)).

(** The values a set walks through: the target alone when stepping is
    off, else the points after the cached value and then the target.
    With an empty cache the Parameter is read first. *)
Definition get_ramp_values (value : Q) : M state (list Q) :=
  s <- gets step ;;
  match s with
  | None => ret [value]
  | Some stp =>
      c <- gets cache ;;
      start_value <- match c with
                     | Some v => ret v
                     | None => voltage_get
                     end ;;
      ret (tl (permissive_range start_value value stp) ++ [value])%list
  end.

(** [self.voltage(value)]: validate, then set every value of the walk,
    each validated in turn.  The sleep of [inter_delay] between two sets
    changes nothing that is modelled. *)
Definition voltage_set (value : Q) : M state unit :=
  lift (validate value) ;;;
  steps <- get_ramp_values value ;;
  for_each steps (fun val_step =>
    lift (validate val_step) ;;;
    _set_voltage val_step ;;;
    modify (with_cache (Some val_step))).

(** **** [StahlChannel.ramp] *)

Definition ramp (ramp_to stp delay : Q) : M state unit :=
  saved_step <- gets step ;;
  saved_inter_delay <- gets inter_delay ;;
  set_step (Some stp) ;;;
  set_inter_delay delay ;;;
  ask (ReqDISRamp (channel_number self) (ch_name self)
                  (format_f 4 ramp_to)) ;;;
  voltage_set ramp_to ;;;
  ask (ReqDISSet (channel_number self) (ch_name self)
                 (format_f 4 ramp_to)) ;;;
  set_step saved_step ;;;
  set_inter_delay saved_inter_delay.

End Channel.

Arguments wire {T} _.
Arguments sent {T} _.
Arguments step {T} _.
Arguments inter_delay {T} _.
Arguments cache {T} _.
Arguments warnings {T} _.
Arguments with_step {T} s st.
Arguments with_inter_delay {T} d st.
Arguments with_cache {T} c st.
Arguments warning {T} msg _.
Arguments ask_raw {T} respond req _.
Arguments ask {T} respond req _.
Arguments _get_voltage {T} respond self _.
Arguments _set_voltage {T} respond self voltage _.
Arguments set_step {T} s _.
Arguments set_inter_delay {T} d _.
Arguments voltage_get {T} respond self _.
Arguments get_ramp_values {T} respond self value _.
Arguments voltage_set {T} respond self value _.
Arguments ramp {T} respond self ramp_to stp delay _.

(** *** Construction *)

(** [StahlChannel.__init__(parent, name, channel_number)]. *)
Definition StahlChannel_init (p : idn_info) (name : string)
    (number : Z) : M (list string) StahlChannel :=
  let self := {| parent := p; ch_name := name;
                 channel_number := number |} in
  lift (InstrumentChannel_init name) ;;;
  add_parameter "voltage" ;;;
  add_parameter "current" ;;;
  ret self.

(** [f"{n:02d}"]. *)
Definition fmt02d (n : Z) : string :=
  let s := str n in
  if (String.length s <? 2)%nat then "0" ++ s else s.

(** [ch_names[number]] when [ch_names] is a dict that has the key. *)
Fixpoint lookup_name (ch_names : list (Z * string)) (number : Z)
  : option string :=
  match ch_names with
  | [] => None
  | (k, v) :: rest =>
      if Z.eqb k number then Some v else lookup_name rest number
  end.

Definition channel_name (ch_names : option (list (Z * string)))
    (number : Z) : string :=
  match ch_names with
  | Some d =>
      match lookup_name d number with
      | Some name => name
      | None => "ch" ++ fmt02d number
      end
  | None => "ch" ++ fmt02d number
  end.

(** The identity reply as [parse_idn_string] sees it: the acknowledge
    character and a bare numeral hold no match. *)
Definition idn_of_reply (r : reply) : outcome idn_info :=
  match r with
  | Text s => parse_idn_string s
  | Ack | Numeral _ => Raise RuntimeError
  end.

Section Instrument.

Variable T : Type.
Variable respond : T -> request -> T * outcome reply.

(** The loop of [HV324.__init__] over the channel numbers: build the
    channel, attach it under its name, label the display line.
    [attached] holds the submodule names in use. *)
Fixpoint build_channels (info : idn_info)
    (ch_names : option (list (Z * string))) (numbers : list Z)
    (attached : list string)
  : M (state T) (list StahlChannel * list string) :=
  match numbers with
  | [] => ret ([], attached)
  | number :: rest =>
      let name := channel_name ch_names number in
      channel <- lift (snd (StahlChannel_init info name number [])) ;;
      attached' <- lift (add_submodule attached name) ;;
      ask respond (ReqDISLabel number name) ;;;
      built <- build_channels info ch_names rest attached' ;;
      ret (channel :: fst built, snd built)
  end.

(** [HV324.__init__]: read and parse the identity, switch the display
    to manual, build channels [1 .. n_channels], attach their list as
    ["channel"]. *)
Definition HV324_init (ch_names : option (list (Z * string)))
  : M (state T) (idn_info * list StahlChannel) :=
  r <- ask_raw respond ReqIDN ;;
  info <- lift (idn_of_reply r) ;;
  ask respond ReqDISAuto ;;;
  built <- build_channels info ch_names (range1 (n_channels info)) [] ;;
  lift (add_submodule (snd built) "channel") ;;;
  ret (info, fst built).

End Instrument.

Arguments build_channels {T} respond info ch_names numbers attached _.
Arguments HV324_init {T} respond ch_names _.

(** *** An instrument for the examples *)

(** An eight-channel bipolar HV324 of 200 V and its first channel. *)
Definition hv324 : idn_info :=
  {| model := "HV"; serial_number := "324"; voltage_range := 200;
     n_channels := 8; output_type := Some "bipolar" |}.

Definition ch01 : StahlChannel :=
  {| parent := hv324; ch_name := "ch01"; channel_number := 1 |}.

(** The device whose identity reply is ["HV324 000 08 b"], a range of
    0 V, and its first channel. *)
Definition hv324_range_0 : idn_info :=
  {| model := "HV"; serial_number := "324"; voltage_range := 0;
     n_channels := 8; output_type := Some "bipolar" |}.

Definition ch01_range_0 : StahlChannel :=
  {| parent := hv324_range_0; ch_name := "ch01"; channel_number := 1 |}.

(** The driver's state right after construction on the transport [w]:
    nothing written, stepping off, no delay, nothing cached. *)
Definition fresh {T} (w : T) : state T :=
  {| wire := w; sent := []; step := None; inter_delay := 0;
     cache := None; warnings := [] |}.

(** *** Transports used in the statements *)

(** A mock that stores the code last written to each channel and
    echoes it back verbatim when the channel is read; every write is
    acknowledged.  Reading a channel never written times out. *)
Definition echo_wire : Type := Z -> option Z.

Definition echo_respond (w : echo_wire) (req : request)
  : echo_wire * outcome reply :=
  match req with
  | ReqCH ch code =>
      (fun c => if Z.eqb c ch then Some code else w c, Return Ack)
  | ReqV ch =>
      (w, match w ch with
          | Some code => Return (Numeral code)
          | None => Raise VisaIOError
          end)
  | ReqIDN | ReqI _ => (w, Raise VisaIOError)
  | ReqDISAuto | ReqDISLabel _ _ | ReqDISRamp _ _ _ | ReqDISSet _ _ _ =>
      (w, Return Ack)
  end.

(** A scripted transport: the next exchange takes the head of the
    script as its outcome; an exhausted script times out. *)
Definition script_wire : Type := list (outcome reply).

Definition script_respond (w : script_wire) (req : request)
  : script_wire * outcome reply :=
  match w with
  | [] => ([], Raise VisaIOError)
  | r :: rest => (rest, r)
  end.

(** The voltage step the device resolves: one unit of the six-decimal
    code, in volts. *)
Definition quantum (self : StahlChannel) : Q :=
  (2 * voltage_range (parent self) / pow10 6)%Q.

(** The configurations the Parameter's own setters can have produced:
    stepping off or a positive step, and a delay that is not negative. *)
Definition config_ok {T} (st : state T) : Prop :=
  match step st with None => True | Some x => (0 < x)%Q end /\
  (0 <= inter_delay st)%Q.

(** *** The grammar of the identity reply, as a generator

    A reply is the model prefix, a three-digit model number, a
    three-digit range, a two-digit channel count and a variant letter,
    the last four separated by one space. *)

Inductive prefix : Type := HV | BS.

Inductive variant : Type :=
  | Bipolar | Unipolar | Quadrupole | Steerer | BipolarMillivolt.

Definition prefix_text (p : prefix) : string :=
  match p with HV => "HV" | BS => "BS" end.

Definition variant_code (v : variant) : string :=
  match v with
  | Bipolar => "b" | Unipolar => "u" | Quadrupole => "q"
  | Steerer => "s" | BipolarMillivolt => "m"
  end.

Definition variant_name (v : variant) : string :=
  match v with
  | Bipolar => "bipolar" | Unipolar => "unipolar"
  | Quadrupole => "quadrupole" | Steerer => "steerer"
  | BipolarMillivolt => "bipolar milivolt"
  end.

Definition digit_char (d : Z) : ascii := ascii_of_nat (48 + Z.to_nat d).

(** [n] written with exactly [width] digits, zeros in front. *)
Fixpoint zero_pad (width : nat) (n : Z) : string :=
  match width with
  | O => ""
  | S w => zero_pad w (n / 10) ++ String (digit_char (n mod 10)) ""
  end.

(** The reply for the given fields, followed by [post]. *)
Definition render_idn_then (p : prefix) (serial range chans : Z)
    (v : variant) (post : string) : string :=
  prefix_text p ++ zero_pad 3 serial ++ " " ++ zero_pad 3 range ++ " "
    ++ zero_pad 2 chans ++ " " ++ variant_code v ++ post.

Definition render_idn (p : prefix) (serial range chans : Z) (v : variant)
  : string :=
  render_idn_then p serial range chans v "".

(** The same reply with the variant letter left out. *)
Definition render_idn_no_variant (p : prefix) (serial range chans : Z)
  : string :=
  prefix_text p ++ zero_pad 3 serial ++ " " ++ zero_pad 3 range ++ " "
    ++ zero_pad 2 chans.

Definition fields_ok (serial range chans : Z) : Prop :=
  (0 <= serial < 1000)%Z /\ (0 <= range < 1000)%Z /\ (0 <= chans < 100)%Z.

(** A text matches the pattern when a well-formed reply occurs in it. *)
Definition matches_pattern (s : string) : Prop :=
  exists pre p serial range chans v post,
    fields_ok serial range chans /\
    s = pre ++ render_idn_then p serial range chans v post.

(** Every character of the string satisfies [p]. *)
Fixpoint all_chars (p : ascii -> bool) (s : string) : bool :=
  match s with
  | EmptyString => true
  | String c rest => p c && all_chars p rest
  end.

(** What the padded numeral of [n] must satisfy. *)
Definition pad_check (width : nat) (n : Z) : bool :=
  all_chars is_digit (zero_pad width n)
  && Nat.eqb (String.length (zero_pad width n)) width
  && Z.eqb (digits_value (zero_pad width n)) n.

(** *** The voltage codec *)

(** Two roundings to the grid of [1/p], one before and one after the
    rescaling by [2 * R], stay within [2 * R / p] of the start. *)
Lemma two_roundings_bound (R v p raw g : Q) :
  (0 < p)%Q -> (1 # 2 <= R)%Q ->
  (Qabs (raw - (v / (2 * R) + (1 # 2))) <= (1 # 2) / p)%Q ->
  (Qabs (g - (raw - (1 # 2)) * 2 * R) <= (1 # 2) / p)%Q ->
  (Qabs (g - v) <= 2 * R / p)%Q.
Proof.
  intros Hp HR Hraw Hg.
  set (x := v / (2 * R) + (1 # 2)) in *.
  set (y := (raw - (1 # 2)) * 2 * R) in *.
  set (h := (1 # 2) / p) in *.
  assert (Hh : 0 <= h).
  { unfold h. apply Qle_shift_div_l; [exact Hp | lra]. }
  apply Qabs_Qle_condition in Hraw. apply Qabs_Qle_condition in Hg.
  apply Qabs_Qle_condition.
  assert (HR0 : ~ R == 0) by lra.
  assert (Hp0 : ~ p == 0) by lra.
  assert (Ey : y - v == (raw - x) * (2 * R)).
  { unfold y, x. field. exact HR0. }
  assert (Eq4 : 2 * R / p == 2 * (h * (2 * R))).
  { unfold h. field. exact Hp0. }
  assert (H2R : 0 <= 2 * R) by lra.
  assert (Hup : (raw - x) * (2 * R) <= h * (2 * R)).
  { apply Qmult_le_compat_r; [tauto | exact H2R]. }
  assert (Hdn : (- h) * (2 * R) <= (raw - x) * (2 * R)).
  { apply Qmult_le_compat_r; [tauto | exact H2R]. }
  assert (Hhh : 0 <= h * (2 * R - 1)).
  { apply Qmult_le_0_compat; [exact Hh | lra]. }
  set (d := (raw - x) * (2 * R)) in *.
  set (hr := h * (2 * R)) in *.
  assert (E1 : (- h) * (2 * R) == - hr) by (unfold hr; ring).
  assert (E2 : h * (2 * R - 1) == hr - h) by (unfold hr; ring).
  rewrite E1 in Hdn. rewrite E2 in Hhh. rewrite Eq4.
  split; lra.
Qed.

Lemma decode_voltage_eq (self : StahlChannel) (raw : Q) :
  decode_voltage self raw =
  of_fixed 6 (format_f 6
    ((raw - (1 # 2)) * 2 * voltage_range (parent self))%Q).
Proof. reflexivity. Qed.

Lemma encode_voltage_eq (self : StahlChannel) (v : Q) :
  encode_voltage self v =
  (v / (2 * voltage_range (parent self)) + (1 # 2))%Q.
Proof. reflexivity. Qed.

Lemma quantum_eq (self : StahlChannel) :
  quantum self = (2 * voltage_range (parent self) / pow10 6)%Q.
Proof. reflexivity. Qed.

(** Encoding a voltage to its six-decimal code and decoding that code
    lands within one device step of the voltage. *)
Lemma codec_within_quantum (self : StahlChannel) (v : Q) :
  (1 # 2 <= voltage_range (parent self))%Q ->
  (Qabs (decode_voltage self
           (of_fixed 6 (format_f 6 (encode_voltage self v))) - v)
   <= quantum self)%Q.
Proof.
  intros HR. rewrite decode_voltage_eq, quantum_eq.
  apply two_roundings_bound
    with (p := pow10 6)
         (raw := of_fixed 6 (format_f 6 (encode_voltage self v))).
  - apply pow10_pos.
  - exact HR.
  - rewrite <- encode_voltage_eq. apply of_fixed_format_close.
  - apply of_fixed_format_close.
Qed.

(** The same for every six-decimal code within half a unit of the
    encoding, the bound included: where the encoding falls midway
    between two codes, either of them decodes within one device step,
    whichever the floating-point text happens to carry. *)
Lemma nearest_codes_within_quantum (self : StahlChannel) (v : Q) (m : Z) :
  (1 # 2 <= voltage_range (parent self))%Q ->
  (Qabs (of_fixed 6 m - encode_voltage self v) <= (1 # 2) / pow10 6)%Q ->
  (Qabs (decode_voltage self (of_fixed 6 m) - v) <= quantum self)%Q.
Proof.
  intros HR Hm. rewrite decode_voltage_eq, quantum_eq.
  apply two_roundings_bound with (p := pow10 6) (raw := of_fixed 6 m).
  - apply pow10_pos.
  - exact HR.
  - rewrite <- encode_voltage_eq. exact Hm.
  - apply of_fixed_format_close.
Qed.

(** 0.009 V on the 200 V channel encodes to 0.5000225, midway between
    two codes: both read back within the step of 0.0004 V. *)
Example nearest_codes_of_9mV :
  encode_voltage ch01 (9 # 1000) == 5000225 # 10000000 /\
  decode_voltage ch01 (of_fixed 6 500022) == 88 # 10000 /\
  decode_voltage ch01 (of_fixed 6 500023) == 92 # 10000.
Proof. repeat split; vm_compute; reflexivity. Qed.

Lemma range_nonzero (self : StahlChannel) :
  (1 # 2 <= voltage_range (parent self))%Q ->
  Qeq_bool (2 * voltage_range (parent self)) 0 = false.
Proof.
  intros HR. destruct (Qeq_bool (2 * voltage_range (parent self)) 0) eqn:E;
    [| reflexivity].
  apply Qeq_bool_eq in E. lra.
Qed.

(** Claim C5 as stated fails on a channel whose device reports a range
    of 0 V: [parse_idn_string] accepts the reply, and on the echoing
    mock [_set_voltage] raises [ZeroDivisionError] before anything is
    written, so there is no value to read back. *)
Lemma set_then_get_fails_on_range_zero :
  parse_idn_string "HV324 000 08 b" = Return hv324_range_0 /\
  _set_voltage echo_respond ch01_range_0 (33 # 10) (fresh (fun _ => None))
    = (fresh (fun _ => None), Raise ZeroDivisionError) /\
  ~ (exists st1 st2 g,
       _set_voltage echo_respond ch01_range_0 (33 # 10)
         (fresh (fun _ => None)) = (st1, Return tt) /\
       _get_voltage echo_respond ch01_range_0 st1 = (st2, Return g)).
Proof.
  split; [reflexivity |].
  assert (E : _set_voltage echo_respond ch01_range_0 (33 # 10)
                (fresh (fun _ => None))
              = (fresh (fun _ => None), Raise ZeroDivisionError))
    by reflexivity.
  split; [exact E |].
  intros (st1 & st2 & g & H & _). rewrite E in H. discriminate H.
Qed.

(** Claim C5, amended.  For every channel whose range is at least half
    a volt (every range other than 0 that an identity reply can report
    is a whole number of volts): on the mock transport that echoes the
    written code back verbatim, [_set_voltage v] followed by
    [_get_voltage] returns, with no warning, a voltage within one
    device step of [v] (the step is [2 * range * 10^-6] volts, one unit
    of the six-decimal code).  The set-side encoding
    [v / (2 * range) + 0.5] written with six decimals and the get-side
    decoding [round((raw - 0.5) * 2 * range, 6)] are inverse up to the
    fixed-point precision. *)
Theorem set_then_get_within_quantum
    (self : StahlChannel) (v : Q) (st : state echo_wire) :
  (1 # 2 <= voltage_range (parent self))%Q ->
  exists st1 st2 g,
    _set_voltage echo_respond self v st = (st1, Return tt) /\
    _get_voltage echo_respond self st1 = (st2, Return g) /\
    (Qabs (g - v) <= quantum self)%Q /\
    warnings st2 = warnings st.
Proof.
  intros HR.
  unfold _set_voltage. rewrite (range_nonzero self HR).
  cbv [bind ask_raw echo_respond ret reply_eqb acknowledge_reply negb].
  eexists. eexists. eexists. split; [reflexivity |].
  cbv [_get_voltage bind ask_raw echo_respond ret lift float wire sent
       step inter_delay cache warnings].
  rewrite Z.eqb_refl.
  split; [reflexivity |].
  split; [apply codec_within_quantum; exact HR | reflexivity].
Qed.

(** The statement above at a 200 V channel and 3.3 V. *)
Lemma set_then_get_within_quantum_witness :
  (1 # 2 <= voltage_range (parent ch01))%Q /\
  exists st1 st2 g,
    _set_voltage echo_respond ch01 (33 # 10) (fresh (fun _ => None))
      = (st1, Return tt) /\
    _get_voltage echo_respond ch01 st1 = (st2, Return g) /\
    (Qabs (g - (33 # 10)) <= quantum ch01)%Q /\
    warnings st2 = warnings (fresh (fun _ : Z => @None Z)).
Proof.
  assert (HR : (1 # 2 <= voltage_range (parent ch01))%Q)
    by (cbv; discriminate).
  split; [exact HR |].
  apply (set_then_get_within_quantum ch01 (33 # 10)
           (fresh (fun _ => None)) HR).
Defined.

(** The same through the Parameter with stepping off, its default:
    [voltage(v)] for a valid [v], then [voltage()].  The cache holds the
    value set, then the value read. *)
Lemma validate_in_range (v : Q) :
  (-10 <= v)%Q -> (v <= 10)%Q -> validate v = Return tt.
Proof.
  intros Hlo Hhi. unfold validate.
  apply Qle_bool_iff in Hlo. apply Qle_bool_iff in Hhi.
  rewrite Hlo, Hhi. reflexivity.
Qed.

Lemma voltage_set_get_within_quantum
    (self : StahlChannel) (v : Q) (st : state echo_wire) :
  step st = None -> (-10 <= v)%Q -> (v <= 10)%Q ->
  (1 # 2 <= voltage_range (parent self))%Q ->
  exists st1 st2 g,
    voltage_set echo_respond self v st = (st1, Return tt) /\
    cache st1 = Some v /\
    voltage_get echo_respond self st1 = (st2, Return g) /\
    cache st2 = Some g /\
    (Qabs (g - v) <= quantum self)%Q.
Proof.
  intros Hstep Hlo Hhi HR.
  unfold voltage_set, get_ramp_values.
  rewrite (validate_in_range v Hlo Hhi).
  cbv [bind lift gets]. rewrite Hstep.
  cbv [ret for_each bind lift]. rewrite (validate_in_range v Hlo Hhi).
  unfold _set_voltage. rewrite (range_nonzero self HR).
  cbv [bind ask_raw echo_respond ret reply_eqb acknowledge_reply negb
       modify with_cache].
  eexists. eexists. eexists. split; [reflexivity |].
  cbv [cache]. split; [reflexivity |].
  cbv [voltage_get _get_voltage bind ask_raw echo_respond ret lift float
       wire sent step inter_delay cache warnings modify with_cache].
  rewrite Z.eqb_refl.
  split; [reflexivity |]. split; [reflexivity |].
  apply codec_within_quantum; exact HR.
Qed.

(** A value outside the validator's range is refused before anything is
    written: the state, the wire log included, is untouched. *)
Lemma voltage_set_invalid
    (T : Type) (respond : T -> request -> T * outcome reply)
    (self : StahlChannel) (v : Q) (st : state T) :
  validate v = Raise ValueError ->
  voltage_set respond self v st = (st, Raise ValueError).
Proof.
  intros Hv. unfold voltage_set. rewrite Hv. reflexivity.
Qed.

(** 3.3 V on a 200 V channel is the code 0.508250. *)
Example encode_3V3 : format_f 6 (encode_voltage ch01 (33 # 10)) = 508250%Z.
Proof. vm_compute. reflexivity. Qed.

(** *** Acknowledgement *)

(** Claim C8.  Whatever the transport, when the exchange of
    [_set_voltage] is answered by a reply other than the acknowledge
    character, the call logs one warning and returns normally: nothing is
    raised and nothing but the warning log and the wire is touched.  (A
    channel of range zero never reaches the exchange: the encoding
    divides by the range.) *)
Theorem set_voltage_ack_mismatch_warns
    (T : Type) (respond : T -> request -> T * outcome reply)
    (self : StahlChannel) (v : Q) (st : state T) (w' : T) (r : reply) :
  Qeq_bool (2 * voltage_range (parent self)) 0 = false ->
  respond (wire st)
          (ReqCH (channel_number self) (format_f 6 (encode_voltage self v)))
    = (w', Return r) ->
  reply_eqb r acknowledge_reply = false ->
  exists st',
    _set_voltage respond self v st = (st', Return tt) /\
    warnings st' =
      (warnings st ++ ["Didn't recieve an acknowledge reply"])%list /\
    step st' = step st /\ inter_delay st' = inter_delay st /\
    cache st' = cache st.
Proof.
  intros HR Hresp Hneq.
  unfold _set_voltage. rewrite HR.
  cbv [bind ask_raw]. rewrite Hresp. rewrite Hneq.
  cbv [negb warning modify].
  eexists. split; [reflexivity |].
  cbv [warnings step inter_delay cache]. repeat split; reflexivity.
Qed.

(** The statement above on a 200 V channel whose device answers ["?"]. *)
Lemma set_voltage_ack_mismatch_warns_witness :
  exists st',
    _set_voltage script_respond ch01 1 (fresh [Return (Text "?")])
      = (st', Return tt) /\
    warnings st' = ["Didn't recieve an acknowledge reply"] /\
    step st' = None /\ inter_delay st' = 0%Q /\ cache st' = None.
Proof.
  apply (set_voltage_ack_mismatch_warns script_wire script_respond ch01 1
           (fresh [Return (Text "?")]) [] (Text "?")); reflexivity.
Defined.

(** Through the Parameter with stepping off: the set of a valid value
    that is not acknowledged still returns, and the cache takes the
    value as applied. *)
Lemma voltage_set_ack_mismatch_caches
    (T : Type) (respond : T -> request -> T * outcome reply)
    (self : StahlChannel) (v : Q) (st : state T) (w' : T) (r : reply) :
  step st = None -> validate v = Return tt ->
  Qeq_bool (2 * voltage_range (parent self)) 0 = false ->
  respond (wire st)
          (ReqCH (channel_number self) (format_f 6 (encode_voltage self v)))
    = (w', Return r) ->
  reply_eqb r acknowledge_reply = false ->
  exists st',
    voltage_set respond self v st = (st', Return tt) /\
    cache st' = Some v /\
    warnings st' =
      (warnings st ++ ["Didn't recieve an acknowledge reply"])%list.
Proof.
  intros Hstep Hv HR Hresp Hneq.
  unfold voltage_set, get_ramp_values. rewrite Hv.
  cbv [bind lift gets]. rewrite Hstep.
  cbv [ret for_each bind lift]. rewrite Hv.
  unfold _set_voltage. rewrite HR.
  cbv [bind ask_raw]. rewrite Hresp. rewrite Hneq.
  cbv [negb warning modify with_cache ret].
  eexists. split; [reflexivity |].
  cbv [cache warnings]. split; reflexivity.
Qed.

(** *** Ramp and the stepping configuration *)

(** Claim C1, evaluated where it fails.  Channel 1 of a 200 V device
    right after construction (stepping off, no delay);
    [ramp(5, 0.1, 0.01)] on a transport whose first exchange (the
    display annotation) times out.  The call raises,
    and the Parameter is left with the ramp's step and delay installed:
    the two restoring assignments at the end of [ramp] are not reached. *)
Theorem ramp_raise_leaves_ramp_config :
  ramp script_respond ch01 5 (1 # 10) (1 # 100)
       (fresh [Raise VisaIOError])
  = ({| wire := []; sent := [ReqDISRamp 1 "ch01" 50000];
        step := Some (1 # 10); inter_delay := 1 # 100;
        cache := None; warnings := [] |},
     Raise VisaIOError) /\
  step (fresh [@Raise reply VisaIOError]) = None /\
  inter_delay (fresh [@Raise reply VisaIOError]) = 0%Q.
Proof.
  split; [vm_compute; reflexivity | split; reflexivity].
Qed.

(** **** Which calls touch the stepping configuration *)

Create HintDb keeps.

Section Config.

Variable T : Type.
Variable respond : T -> request -> T * outcome reply.
Variable self : StahlChannel.

(** A call keeps the stepping configuration when, returning or raising,
    it leaves [step] and [inter_delay] as it found them. *)
Definition keeps_config {A} (c : M (state T) A) : Prop :=
  forall st, step (fst (c st)) = step st /\
             inter_delay (fst (c st)) = inter_delay st.

Lemma keeps_ret {A} (a : A) : keeps_config (ret a).
Proof. intros st. split; reflexivity. Qed.

Lemma keeps_raise {A} (e : exn) : keeps_config (@raise _ A e).
Proof. intros st. split; reflexivity. Qed.

Lemma keeps_lift {A} (o : outcome A) : keeps_config (lift o).
Proof. intros st. split; reflexivity. Qed.

Lemma keeps_gets {A} (f : state T -> A) : keeps_config (gets f).
Proof. intros st. split; reflexivity. Qed.

Lemma keeps_bind {A B} (c : M (state T) A) (k : A -> M (state T) B) :
  keeps_config c -> (forall a, keeps_config (k a)) ->
  keeps_config (bind c k).
Proof.
  intros Hc Hk st. unfold bind. specialize (Hc st).
  destruct (c st) as [st1 [a | e]]; simpl in *.
  - destruct (Hk a st1) as [H1 H2]. destruct Hc as [H3 H4].
    split; congruence.
  - exact Hc.
Qed.

Lemma keeps_with_cache (c : option Q) : keeps_config (modify (with_cache c)).
Proof. intros st. split; reflexivity. Qed.

Lemma keeps_warning (msg : string) : keeps_config (warning msg).
Proof. intros st. split; reflexivity. Qed.

Lemma keeps_ask_raw (req : request) : keeps_config (ask_raw respond req).
Proof.
  intros st. unfold ask_raw.
  destruct (respond (wire st) req) as [w r]. split; reflexivity.
Qed.

Lemma keeps_for_each {A} (xs : list A) (body : A -> M (state T) unit) :
  (forall x, keeps_config (body x)) -> keeps_config (for_each xs body).
Proof.
  intros Hb. induction xs as [| x rest IH]; simpl.
  - apply keeps_ret.
  - apply keeps_bind; [apply Hb | intros _; exact IH].
Qed.

#[local] Hint Resolve keeps_ret keeps_raise keeps_lift keeps_gets
  keeps_with_cache keeps_warning keeps_ask_raw : keeps.

Ltac keeps_step :=
  first [ apply keeps_bind; [| intro]
        | apply keeps_for_each; intro
        | solve [auto with keeps] ].

Lemma keeps_ask (req : request) : keeps_config (ask respond req).
Proof. unfold ask. repeat keeps_step. Qed.

Lemma keeps_get_voltage : keeps_config (_get_voltage respond self).
Proof. unfold _get_voltage. repeat keeps_step. Qed.

Lemma keeps_set_voltage (v : Q) : keeps_config (_set_voltage respond self v).
Proof.
  unfold _set_voltage.
  destruct (Qeq_bool (2 * voltage_range (parent self)) 0);
    [auto with keeps |].
  apply keeps_bind; [auto with keeps | intros response].
  destruct (negb (reply_eqb response acknowledge_reply)); auto with keeps.
Qed.

Lemma keeps_voltage_get : keeps_config (voltage_get respond self).
Proof.
  unfold voltage_get.
  apply keeps_bind; [apply keeps_get_voltage | intro].
  repeat keeps_step.
Qed.

Lemma keeps_get_ramp_values (v : Q) :
  keeps_config (get_ramp_values respond self v).
Proof.
  unfold get_ramp_values.
  apply keeps_bind; [auto with keeps | intros [stp |]]; [| auto with keeps].
  apply keeps_bind; [auto with keeps | intros c].
  apply keeps_bind; [| auto with keeps].
  destruct c; [auto with keeps | apply keeps_voltage_get].
Qed.

Lemma keeps_voltage_set (v : Q) : keeps_config (voltage_set respond self v).
Proof.
  unfold voltage_set.
  apply keeps_bind; [auto with keeps | intros _].
  apply keeps_bind; [apply keeps_get_ramp_values | intros steps].
  apply keeps_for_each. intros x.
  apply keeps_bind; [auto with keeps | intros _].
  apply keeps_bind; [apply keeps_set_voltage | intros _].
  auto with keeps.
Qed.

End Config.

(** **** [ramp] on its returning and on its raising paths *)

Lemma set_step_positive {T} (x : Q) (st : state T) :
  (0 < x)%Q -> set_step (Some x) st = (with_step (Some x) st, Return tt).
Proof.
  intros Hx. unfold set_step.
  destruct (Qeq_bool x 0) eqn:E0.
  - apply Qeq_bool_eq in E0. lra.
  - destruct (Qle_bool x 0) eqn:E1; [| reflexivity].
    apply Qle_bool_iff in E1. lra.
Qed.

Lemma set_step_saved {T} (saved : option Q) (st : state T) :
  match saved with None => True | Some x => (0 < x)%Q end ->
  set_step saved st = (with_step saved st, Return tt).
Proof.
  destruct saved as [x |]; intros H; [| reflexivity].
  apply set_step_positive; exact H.
Qed.

Lemma set_inter_delay_nonneg {T} (d : Q) (st : state T) :
  (0 <= d)%Q ->
  set_inter_delay d st = (with_inter_delay d st, Return tt).
Proof.
  intros Hd. unfold set_inter_delay.
  destruct (Qle_bool 0 d) eqn:E; [reflexivity |].
  apply Qle_bool_iff in Hd. congruence.
Qed.

Section Ramp.

Variable T : Type.
Variable respond : T -> request -> T * outcome reply.
Variable self : StahlChannel.

(** Property X1.  When [ramp] returns, the stepping configuration is the
    one it found. *)
Lemma ramp_return_restores (ramp_to stp delay : Q) (st st' : state T) :
  config_ok st -> (0 < stp)%Q -> (0 <= delay)%Q ->
  ramp respond self ramp_to stp delay st = (st', Return tt) ->
  step st' = step st /\ inter_delay st' = inter_delay st.
Proof.
  intros [Hs Hd] Hstp Hdelay H. unfold ramp in H.
  cbv [bind gets] in H. fold (@bind (state T)) in H.
  rewrite (set_step_positive stp st Hstp) in H.
  rewrite (set_inter_delay_nonneg delay _ Hdelay) in H.
  destruct (ask respond _ _) as [s1 [[] | e]]; [| discriminate].
  destruct (voltage_set respond self ramp_to s1) as [s2 [[] | e]];
    [| discriminate].
  destruct (ask respond _ s2) as [s3 [[] | e]]; [| discriminate].
  rewrite (set_step_saved (step st) s3 Hs) in H.
  rewrite (set_inter_delay_nonneg (inter_delay st) _ Hd) in H.
  inversion H; subst. split; reflexivity.
Qed.

(** Property X2.  When [ramp] raises, the stepping configuration is the
    ramp's own: no raising path restores what was there before the call. *)
Lemma ramp_raise_keeps_ramp_config (ramp_to stp delay : Q)
    (st st' : state T) (e : exn) :
  config_ok st -> (0 < stp)%Q -> (0 <= delay)%Q ->
  ramp respond self ramp_to stp delay st = (st', Raise e) ->
  step st' = Some stp /\ inter_delay st' = delay.
Proof.
  intros [Hs Hd] Hstp Hdelay H. unfold ramp in H.
  cbv [bind gets] in H. fold (@bind (state T)) in H.
  rewrite (set_step_positive stp st Hstp) in H.
  rewrite (set_inter_delay_nonneg delay _ Hdelay) in H.
  set (s0 := with_inter_delay delay (with_step (Some stp) st)) in *.
  pose proof (keeps_ask T respond
                (ReqDISRamp (channel_number self) (ch_name self)
                            (format_f 4 ramp_to)) s0) as K1.
  destruct (ask respond _ s0) as [s1 [[] | e1]]; simpl in K1.
  2:{ inversion H; subst. exact K1. }
  pose proof (keeps_voltage_set T respond self ramp_to s1) as K2.
  destruct (voltage_set respond self ramp_to s1) as [s2 [[] | e2]];
    simpl in K2.
  2:{ inversion H; subst. destruct K1, K2. split; congruence. }
  pose proof (keeps_ask T respond
                (ReqDISSet (channel_number self) (ch_name self)
                           (format_f 4 ramp_to)) s2) as K3.
  destruct (ask respond _ s2) as [s3 [[] | e3]]; simpl in K3.
  2:{ inversion H; subst. destruct K1, K2, K3. split; congruence. }
  rewrite (set_step_saved (step st) s3 Hs) in H.
  rewrite (set_inter_delay_nonneg (inter_delay st) _ Hd) in H.
  discriminate.
Qed.

End Ramp.

(** *** The identity reply *)

(** **** The matchers consume what the generator wrote *)

Lemma lit_append (l rest : string) : lit l (l ++ rest) = Some (l, rest).
Proof.
  induction l as [| c l IH]; simpl; [reflexivity |].
  rewrite Ascii.eqb_refl, IH. reflexivity.
Qed.

Lemma class_n_append (p : ascii -> bool) (g rest : string) :
  all_chars p g = true ->
  class_n p (String.length g) (g ++ rest) = Some (g, rest).
Proof.
  induction g as [| c g IH]; simpl; intros H; [reflexivity |].
  apply andb_true_iff in H as [Hc Hg].
  rewrite Hc, (IH Hg). reflexivity.
Qed.

Lemma lit_sound (l s m rest : string) :
  lit l s = Some (m, rest) -> m = l /\ s = l ++ rest.
Proof.
  revert s m rest. induction l as [| c l IH]; simpl; intros s m rest H.
  - inversion H; subst. split; reflexivity.
  - destruct s as [| d s']; [discriminate |].
    destruct (Ascii.eqb c d) eqn:E; [| discriminate].
    apply Ascii.eqb_eq in E; subst d.
    destruct (lit l s') as [[m' rest'] |] eqn:E'; [| discriminate].
    inversion H; subst. destruct (IH _ _ _ E') as [-> ->].
    split; reflexivity.
Qed.

Lemma class_n_sound (p : ascii -> bool) (n : nat) (s g rest : string) :
  class_n p n s = Some (g, rest) ->
  s = g ++ rest /\ String.length g = n /\ all_chars p g = true.
Proof.
  revert s g rest. induction n as [| n IH]; simpl; intros s g rest H.
  - inversion H; subst. repeat split; reflexivity.
  - destruct s as [| d s']; [discriminate |].
    destruct (p d) eqn:E; [| discriminate].
    destruct (class_n p n s') as [[m' rest'] |] eqn:E'; [| discriminate].
    inversion H; subst. destruct (IH _ _ _ E') as (-> & Hl & Ha).
    simpl. rewrite E, Ha, Hl. repeat split; reflexivity.
Qed.

(** **** Fixed-width numerals and the numbers they denote *)

Lemma pad_check_below (width : nat) (bound : nat) (n : Z) :
  forallb (fun k => pad_check width (Z.of_nat k)) (seq 0 bound) = true ->
  (0 <= n < Z.of_nat bound)%Z ->
  all_chars is_digit (zero_pad width n) = true /\
  String.length (zero_pad width n) = width /\
  digits_value (zero_pad width n) = n.
Proof.
  intros Hall Hn. rewrite forallb_forall in Hall.
  specialize (Hall (Z.to_nat n)). rewrite Z2Nat.id in Hall by lia.
  assert (Hin : In (Z.to_nat n) (seq 0 bound)) by (apply in_seq; lia).
  specialize (Hall Hin). unfold pad_check in Hall.
  apply andb_true_iff in Hall as [Hall Hv].
  apply andb_true_iff in Hall as [Hd Hl].
  apply Nat.eqb_eq in Hl. apply Z.eqb_eq in Hv. auto.
Qed.

Lemma pad3_ok (n : Z) :
  (0 <= n < 1000)%Z ->
  all_chars is_digit (zero_pad 3 n) = true /\
  String.length (zero_pad 3 n) = 3%nat /\
  digits_value (zero_pad 3 n) = n.
Proof.
  intros Hn. apply (pad_check_below 3 1000); [| lia].
  vm_compute. reflexivity.
Qed.

Lemma pad2_ok (n : Z) :
  (0 <= n < 100)%Z ->
  all_chars is_digit (zero_pad 2 n) = true /\
  String.length (zero_pad 2 n) = 2%nat /\
  digits_value (zero_pad 2 n) = n.
Proof.
  intros Hn. apply (pad_check_below 2 100); [| lia].
  vm_compute. reflexivity.
Qed.

Lemma is_digit_char (c : ascii) :
  is_digit c = true ->
  (0 <= digit_value c < 10)%Z /\ digit_char (digit_value c) = c.
Proof.
  destruct c as [[] [] [] [] [] [] [] []]; intros H;
    try discriminate H; vm_compute; repeat split; congruence.
Qed.

(** A string of [width] digits is the padded numeral of its value. *)
Lemma digits3_numeral (g : string) :
  String.length g = 3%nat -> all_chars is_digit g = true ->
  (0 <= digits_value g < 1000)%Z /\ zero_pad 3 (digits_value g) = g.
Proof.
  destruct g as [| a [| b [| c [| ? ?]]]]; try discriminate. intros _ H.
  simpl in H. rewrite andb_true_r in H.
  apply andb_true_iff in H as [Ha H]. apply andb_true_iff in H as [Hb Hc].
  destruct (is_digit_char a Ha) as [Ra Ea].
  destruct (is_digit_char b Hb) as [Rb Eb].
  destruct (is_digit_char c Hc) as [Rc Ec].
  unfold digits_value. cbn [digits_value_from zero_pad].
  set (x := digit_value a) in *. set (y := digit_value b) in *.
  set (z := digit_value c) in *.
  set (n := (10 * (10 * (10 * 0 + x) + y) + z)%Z).
  assert (E0 : (n mod 10 = z)%Z)
    by (subst n; Z.div_mod_to_equations; lia).
  assert (E1 : ((n / 10) mod 10 = y)%Z)
    by (subst n; Z.div_mod_to_equations; lia).
  assert (E2 : ((n / 10 / 10) mod 10 = x)%Z)
    by (subst n; Z.div_mod_to_equations; lia).
  rewrite E0, E1, E2, Ea, Eb, Ec. split; [subst n; lia | reflexivity].
Qed.

Lemma digits2_numeral (g : string) :
  String.length g = 2%nat -> all_chars is_digit g = true ->
  (0 <= digits_value g < 100)%Z /\ zero_pad 2 (digits_value g) = g.
Proof.
  destruct g as [| a [| b [| ? ?]]]; try discriminate. intros _ H.
  simpl in H. rewrite andb_true_r in H.
  apply andb_true_iff in H as [Ha Hb].
  destruct (is_digit_char a Ha) as [Ra Ea].
  destruct (is_digit_char b Hb) as [Rb Eb].
  unfold digits_value. cbn [digits_value_from zero_pad].
  set (x := digit_value a) in *. set (y := digit_value b) in *.
  set (n := (10 * (10 * 0 + x) + y)%Z).
  assert (E0 : (n mod 10 = y)%Z)
    by (subst n; Z.div_mod_to_equations; lia).
  assert (E1 : ((n / 10) mod 10 = x)%Z)
    by (subst n; Z.div_mod_to_equations; lia).
  rewrite E0, E1, Ea, Eb. split; [subst n; lia | reflexivity].
Qed.

Lemma variant_letter (g : string) :
  String.length g = 1%nat -> all_chars is_variant g = true ->
  exists v, g = variant_code v.
Proof.
  destruct g as [| c [| ? ?]]; try discriminate. intros _ H.
  simpl in H. rewrite andb_true_r in H. unfold is_variant in H. simpl in H.
  repeat (apply orb_true_iff in H as [H | H]);
    try (apply Ascii.eqb_eq in H; subst c).
  - exists Bipolar. reflexivity.
  - exists Unipolar. reflexivity.
  - exists Quadrupole. reflexivity.
  - exists Steerer. reflexivity.
  - exists BipolarMillivolt. reflexivity.
  - discriminate.
Qed.

(** **** The pattern at one position, and searched *)

Lemma class_n_numeral (p : ascii -> bool) (n : nat) (g rest : string) :
  String.length g = n -> all_chars p g = true ->
  class_n p n (g ++ rest) = Some (g, rest).
Proof. intros <- H. apply class_n_append; exact H. Qed.

Lemma match_here_render (p : prefix) (serial range chans : Z)
    (v : variant) (post : string) :
  fields_ok serial range chans ->
  match_here (render_idn_then p serial range chans v post) =
  Some (prefix_text p, zero_pad 3 serial, zero_pad 3 range,
        zero_pad 2 chans, variant_code v).
Proof.
  intros (Hs & Hr & Hc).
  destruct (pad3_ok serial Hs) as (Ds & Ls & _).
  destruct (pad3_ok range Hr) as (Dr & Lr & _).
  destruct (pad2_ok chans Hc) as (Dc & Lc & _).
  unfold match_here, render_idn_then.
  assert (Hp : forall rest,
             alt (lit "HV") (lit "BS") (prefix_text p ++ rest)
             = Some (prefix_text p, rest))
    by (intros rest; destruct p; reflexivity).
  rewrite Hp.
  rewrite (class_n_numeral is_digit 3 _ _ Ls Ds), (lit_append " ").
  rewrite (class_n_numeral is_digit 3 _ _ Lr Dr), (lit_append " ").
  rewrite (class_n_numeral is_digit 2 _ _ Lc Dc), (lit_append " ").
  destruct v; reflexivity.
Qed.

Lemma match_here_sound (s g1 g2 g3 g4 g5 : string) :
  match_here s = Some (g1, g2, g3, g4, g5) ->
  exists p serial range chans v post,
    fields_ok serial range chans /\
    s = render_idn_then p serial range chans v post /\
    g1 = prefix_text p /\ g2 = zero_pad 3 serial /\
    g3 = zero_pad 3 range /\ g4 = zero_pad 2 chans /\
    g5 = variant_code v.
Proof.
  unfold match_here. intros H.
  destruct (alt (lit "HV") (lit "BS") s) as [[m1 s1] |] eqn:E1;
    [| discriminate].
  destruct (class_n is_digit 3 s1) as [[m2 s2] |] eqn:E2; [| discriminate].
  destruct (lit " " s2) as [[b1 s3] |] eqn:E3; [| discriminate].
  destruct (class_n is_digit 3 s3) as [[m3 s4] |] eqn:E4; [| discriminate].
  destruct (lit " " s4) as [[b2 s5] |] eqn:E5; [| discriminate].
  destruct (class_n is_digit 2 s5) as [[m4 s6] |] eqn:E6; [| discriminate].
  destruct (lit " " s6) as [[b3 s7] |] eqn:E7; [| discriminate].
  destruct (class_n is_variant 1 s7) as [[m5 s8] |] eqn:E8; [| discriminate].
  inversion H; subst; clear H.
  assert (Hp : exists p, g1 = prefix_text p /\ s = prefix_text p ++ s1).
  { unfold alt in E1. destruct (lit "HV" s) as [[m r] |] eqn:EH.
    - inversion E1; subst. apply lit_sound in EH as [-> ->].
      exists HV. split; reflexivity.
    - apply lit_sound in E1 as [-> ->]. exists BS. split; reflexivity. }
  destruct Hp as (p & -> & ->).
  apply class_n_sound in E2 as (-> & L2 & D2).
  apply lit_sound in E3 as (_ & ->).
  apply class_n_sound in E4 as (-> & L4 & D4).
  apply lit_sound in E5 as (_ & ->).
  apply class_n_sound in E6 as (-> & L6 & D6).
  apply lit_sound in E7 as (_ & ->).
  apply class_n_sound in E8 as (-> & L8 & D8).
  destruct (digits3_numeral g2 L2 D2) as (R2 & P2).
  destruct (digits3_numeral g3 L4 D4) as (R3 & P3).
  destruct (digits2_numeral g4 L6 D6) as (R4 & P4).
  destruct (variant_letter g5 L8 D8) as (v & ->).
  exists p, (digits_value g2), (digits_value g3), (digits_value g4), v, s8.
  unfold fields_ok, render_idn_then. rewrite P2, P3, P4.
  repeat split; try reflexivity; lia.
Qed.

Lemma search_here (s : string) g :
  match_here s = Some g -> search s = Some g.
Proof. intros H. destruct s; cbn [search]; rewrite H; reflexivity. Qed.

Lemma search_sound (s : string) g :
  search s = Some g ->
  exists pre rest, s = pre ++ rest /\ match_here rest = Some g.
Proof.
  induction s as [| c s IH]; cbn [search].
  - destruct (match_here "") eqn:E; [| discriminate].
    intros H; inversion H; subst. exists "", "". split; [reflexivity | exact E].
  - destruct (match_here (String c s)) eqn:E.
    + intros H; inversion H; subst.
      exists "", (String c s). split; [reflexivity | exact E].
    + intros H. destruct (IH H) as (pre & rest & -> & Hm).
      exists (String c pre), rest. split; [reflexivity | exact Hm].
Qed.

Lemma search_matches_pattern (s : string) g :
  search s = Some g -> matches_pattern s.
Proof.
  intros H. destruct (search_sound s g H) as (pre & rest & -> & Hm).
  destruct g as [[[[g1 g2] g3] g4] g5].
  destruct (match_here_sound _ _ _ _ _ _ Hm)
    as (p & serial & range & chans & v & post & Hok & -> & _).
  exists pre, p, serial, range, chans, v, post.
  split; [exact Hok | reflexivity].
Qed.

Lemma length_zero_pad (width : nat) (n : Z) :
  String.length (zero_pad width n) = width.
Proof.
  revert n. induction width as [| w IH]; intros n; simpl; [reflexivity |].
  rewrite length_append, IH. simpl. lia.
Qed.

Lemma length_prefix_text (p : prefix) : String.length (prefix_text p) = 2%nat.
Proof. destruct p; reflexivity. Qed.

Lemma length_variant_code (v : variant) :
  String.length (variant_code v) = 1%nat.
Proof. destruct v; reflexivity. Qed.

(** A reply without its variant letter is too short to hold a match. *)
Lemma no_variant_no_match (p : prefix) (serial range chans : Z) :
  ~ matches_pattern (render_idn_no_variant p serial range chans).
Proof.
  intros (pre & p' & s' & r' & c' & v' & post & _ & E).
  apply (f_equal String.length) in E.
  unfold render_idn_no_variant, render_idn_then in E.
  repeat rewrite ?length_append, ?length_zero_pad, ?length_prefix_text,
    ?length_variant_code in E.
  simpl in E. lia.
Qed.

(** Claim C6.  (1) For every reply built in the fixed grammar from a
    prefix in {HV, BS}, a three-digit model number, a three-digit range,
    a two-digit channel count and a variant letter in {b, u, q, s, m},
    [parse_idn_string] returns those fields: [model] the prefix,
    [serial_number] the three digits, [voltage_range] and [n_channels]
    the numbers written, [output_type] the name the lookup gives the
    letter.  (2) For every text in which no such reply occurs it raises
    the fatal error; (3) in particular for a reply with the variant
    letter missing. *)
Theorem parse_idn_string_spec :
  (forall p serial range chans v,
     fields_ok serial range chans ->
     parse_idn_string (render_idn p serial range chans v) =
     Return {| model := prefix_text p;
               serial_number := zero_pad 3 serial;
               voltage_range := inject_Z range;
               n_channels := chans;
               output_type := Some (variant_name v) |}) /\
  (forall s, ~ matches_pattern s ->
             parse_idn_string s = Raise RuntimeError) /\
  (forall p serial range chans,
     parse_idn_string (render_idn_no_variant p serial range chans) =
     Raise RuntimeError).
Proof.
  assert (Hno : forall s, ~ matches_pattern s ->
                          parse_idn_string s = Raise RuntimeError).
  { intros s Hs. unfold parse_idn_string.
    destruct (search s) as [g |] eqn:E; [| reflexivity].
    exfalso. apply Hs. exact (search_matches_pattern s g E). }
  split; [| split].
  - intros p serial range chans v Hok.
    unfold parse_idn_string, render_idn.
    rewrite (search_here _ _ (match_here_render p serial range chans v "" Hok)).
    destruct Hok as (Hs & Hr & Hc).
    destruct (pad3_ok range Hr) as (_ & _ & ->).
    destruct (pad2_ok chans Hc) as (_ & _ & ->).
    destruct v; reflexivity.
  - exact Hno.
  - intros p serial range chans. apply Hno. apply no_variant_no_match.
Qed.

(** The statement above at the reply ["HV324 200 08 b"] and at the same
    reply cut before its variant letter. *)
Lemma parse_idn_string_spec_witness :
  fields_ok 324 200 8 /\
  parse_idn_string "HV324 200 08 b" =
    Return {| model := "HV"; serial_number := "324";
              voltage_range := 200; n_channels := 8;
              output_type := Some "bipolar" |} /\
  parse_idn_string "HV324 200 08" = Raise RuntimeError.
Proof.
  assert (Hok : fields_ok 324 200 8) by (unfold fields_ok; lia).
  split; [exact Hok |]. split.
  - exact (proj1 parse_idn_string_spec HV 324 200 8 Bipolar Hok)%Z.
  - exact (proj2 (proj2 parse_idn_string_spec) HV 324 200 8)%Z.
Defined.

(** The match may sit anywhere in the reply, as [re.search] finds it. *)
Example parse_idn_string_embedded :
  parse_idn_string ">> BS048 010 16 m <<" =
  Return {| model := "BS"; serial_number := "048";
            voltage_range := 10; n_channels := 16;
            output_type := Some "bipolar milivolt" |}.
Proof. reflexivity. Qed.

(** A letter outside the five variant codes is no match. *)
Example parse_idn_string_unknown_variant :
  parse_idn_string "HV324 200 08 x" = Raise RuntimeError.
Proof. reflexivity. Qed.

(** *** Channel construction *)

(** [StahlChannel.__init__] checks nothing about the number it is
    given: the one check is that of the name, in the base class.  With
    an acceptable name it returns for every number, with both
    Parameters registered; with another name it raises before any
    Parameter is registered. *)
Lemma StahlChannel_init_eq (p : idn_info) (name : string) (number : Z) :
  StahlChannel_init p name number [] =
  if valid_module_name name
  then (["voltage"; "current"],
        Return {| parent := p; ch_name := name; channel_number := number |})
  else ([], Raise ValueError).
Proof.
  unfold StahlChannel_init, InstrumentChannel_init, bind, lift.
  destruct (valid_module_name name); reflexivity.
Qed.

Lemma StahlChannel_init_total (p : idn_info) (name : string) (number : Z) :
  valid_module_name name = true ->
  StahlChannel_init p name number [] =
  (["voltage"; "current"],
   Return {| parent := p; ch_name := name; channel_number := number |}).
Proof. intros H. rewrite StahlChannel_init_eq, H. reflexivity. Qed.

Section InstrumentFacts.

Variable T : Type.
Variable respond : T -> request -> T * outcome reply.

Lemma build_channels_numbers (info : idn_info)
    (ch_names : option (list (Z * string))) (numbers : list Z)
    (attached : list string) (st st' : state T)
    (built : list StahlChannel * list string) :
  build_channels respond info ch_names numbers attached st
    = (st', Return built) ->
  map channel_number (fst built) = numbers.
Proof.
  revert attached st built.
  induction numbers as [| k rest IH]; intros attached st built.
  - simpl. intros H. inversion H. reflexivity.
  - cbn [build_channels]. rewrite StahlChannel_init_eq.
    destruct (valid_module_name (channel_name ch_names k));
      [| cbv [snd lift bind]; discriminate].
    cbv [snd lift bind]. fold (@bind (state T)).
    destruct (add_submodule attached (channel_name ch_names k))
      as [attached' | e]; [| discriminate].
    destruct (ask respond _ st) as [s1 [[] | e]]; [| discriminate].
    destruct (build_channels respond info ch_names rest attached' s1)
      as [s2 [cs | e]] eqn:E; [| discriminate].
    intros H. inversion H; subst. simpl. rewrite (IH _ _ _ E). reflexivity.
Qed.

(** [HV324.__init__] numbers the channels it builds [1 .. n_channels]:
    every [StahlChannel] the driver itself constructs has its number in
    that range. *)
Lemma HV324_init_channel_numbers (ch_names : option (list (Z * string)))
    (st st' : state T) (info : idn_info) (channels : list StahlChannel) :
  HV324_init respond ch_names st = (st', Return (info, channels)) ->
  map channel_number channels = range1 (n_channels info) /\
  Forall (fun c => (1 <= channel_number c <= n_channels info)%Z) channels.
Proof.
  unfold HV324_init. cbv [bind]. fold (@bind (state T)).
  destruct (ask_raw respond ReqIDN st) as [s1 [r | e]]; [| discriminate].
  cbv [lift]. destruct (idn_of_reply r) as [i | e]; [| discriminate].
  destruct (ask respond ReqDISAuto s1) as [s2 [[] | e]]; [| discriminate].
  destruct (build_channels respond i ch_names (range1 (n_channels i)) [] s2)
    as [s3 [built | e]] eqn:E; [| discriminate].
  destruct (add_submodule (snd built) "channel") as [names | e];
    [| discriminate].
  cbv [ret]. intros H. inversion H; subst.
  pose proof (build_channels_numbers _ _ _ _ _ _ _ E) as Hn.
  split; [exact Hn |].
  apply Forall_forall. intros c Hc. apply range1_bounds.
  rewrite <- Hn. apply in_map. exact Hc.
Qed.

(** Two channels given one name: the second attach is refused. *)
Example HV324_init_duplicate_name :
  snd (HV324_init script_respond (Some [(1, "gate"); (2, "gate")]%Z)
         (fresh [Return (Text "HV324 200 02 b"); Return Ack;
                 Return Ack; Return Ack]))
  = Raise KeyError.
Proof. vm_compute. reflexivity. Qed.

End InstrumentFacts.

End Stahl.

(* ================================================================= *)
(** ** drivers/Anritsu/MS2830.py *)

Module MS2830.
Import Py Py.Notations.

(** The texts the driver writes for the sweep frequencies:
    [":SENSe:FREQuency:STARt?"], [":SENSe:FREQuency:STOP?"],
    [":SENSe:FREQuency:STARt <val>"], [":SENSe:FREQuency:STOP <val>"].
    No method of the driver writes the last one; it is listed so that
    its absence from the log can be stated. *)
Inductive command : Type :=
  | QueryStart
  | QueryStop
  | WriteStart (val : Q)
  | WriteStop (val : Q).

(** A set command, as opposed to a query. *)
Definition is_write (c : command) : bool :=
  match c with
  | WriteStart _ | WriteStop _ => true
  | QueryStart | QueryStop => false
  end.

(** The analyzer's sweep frequencies, in Hz. *)
Record device : Type := {
  dev_start : Q;
  dev_stop : Q
}.

(** [self.log.warning(f"Could not set start to {val} setting it to
    {start}")]. *)
Inductive message : Type :=
  | CouldNotSetStart (val start : Q).

Record state : Type := {
  dev : device;
  wire_log : list command;
  warnings : list message
}.

Section Driver.

(** The frequency the analyzer applies when asked for one: its
    resolution and limits are its own. *)
Variable settle : Q -> Q.

(** What a written text does to the analyzer; a query changes
    nothing. *)
Definition execute (d : device) (c : command) : device :=
  match c with
  | WriteStart v => {| dev_start := settle v; dev_stop := dev_stop d |}
  | WriteStop v => {| dev_start := dev_start d; dev_stop := settle v |}
  | QueryStart | QueryStop => d
  end.

(** A text goes out on the wire: it is logged and the analyzer acts on
    it. *)
Definition send (c : command) : M state unit :=
  modify (fun st =>
    {| dev := execute (dev st) c;
       wire_log := (wire_log st ++ [c])%list;
       warnings := warnings st |}).

(** [self.write(text)]: a set command, nothing is read back. *)
Definition write (c : command) : M state unit := send c.

(** [self.ask(text)] for the two queries: the query goes out and the
    reply read back is the frequency asked for. *)
Definition ask (c : command) : M state Q :=
  send c ;;;
  match c with
  | QueryStart => gets (fun st => dev_start (dev st))
  | QueryStop => gets (fun st => dev_stop (dev st))
  | WriteStart _ | WriteStop _ => raise VisaIOError
  end.

(** [self.start()] and [self.stop()]: [get_cmd] is asked, the reply
    goes through [get_parser=float]. *)
Definition start : M state Q := ask QueryStart.

Definition stop : M state Q := ask QueryStop.

Definition warning (m : message) : M state unit :=
  modify (fun st =>
    {| dev := dev st; wire_log := wire_log st;
       warnings := (warnings st ++ [m])%list |}).

Definition _set_start (val : Q) : M state unit :=
  stop_now <- stop ;;
  if Qle_bool stop_now val
  then raise ValueError
  else
    write (WriteStart val) ;;;
    start_now <- start ;;
    if Qle_bool 1 (Qabs (val - start_now))
    then warning (CouldNotSetStart val start_now)
    else ret tt.

Definition _set_stop (val : Q) : M state unit :=
  start_now <- start ;;
  if Qle_bool val start_now
  then raise ValueError
  else ret tt.

End Driver.

(** An analyzer that resolves one hertz. *)
Definition settle_hz (v : Q) : Q := inject_Z (round_half_even v).

(** The driver's state on an analyzer sweeping [a .. b], nothing sent
    yet. *)
Definition sweeping (a b : Q) : state :=
  {| dev := {| dev_start := a; dev_stop := b |};
     wire_log := []; warnings := [] |}.

(** *** The start-frequency setter *)

(** Claim C4.  [_set_start v] first reads the stop frequency.  If [v]
    is greater than or equal to it, the call raises the invalid-value
    error before any [self.write] (the log holds the stop query alone
    and the analyzer is untouched).  Otherwise the call writes the
    start command, re-reads the start frequency the analyzer applied,
    and returns normally; it logs a warning exactly when the applied
    value is off by one hertz or more, so in particular whenever the
    drift is larger than one hertz. *)
Theorem set_start_spec (settle : Q -> Q) (st : state) (v : Q) :
  ((dev_stop (dev st) <= v)%Q ->
   _set_start settle v st =
   ({| dev := dev st;
       wire_log := (wire_log st ++ [QueryStop])%list;
       warnings := warnings st |}, Raise ValueError)) /\
  ((v < dev_stop (dev st))%Q ->
   exists st',
     _set_start settle v st = (st', Return tt) /\
     wire_log st' =
       (wire_log st ++ [QueryStop; WriteStart v; QueryStart])%list /\
     dev_start (dev st') = settle v /\
     dev_stop (dev st') = dev_stop (dev st) /\
     ((1 <= Qabs (v - settle v))%Q ->
      warnings st' =
        (warnings st ++ [CouldNotSetStart v (settle v)])%list) /\
     ((Qabs (v - settle v) < 1)%Q -> warnings st' = warnings st) /\
     ((1 < Qabs (v - settle v))%Q ->
      In (CouldNotSetStart v (settle v)) (warnings st'))).
Proof.
  destruct st as [[ds dp] lg ws]. cbn [dev wire_log warnings dev_stop].
  split.
  - intros Hge. unfold _set_start, stop.
    cbv [ask bind write send modify gets execute].
    cbn [dev wire_log warnings dev_stop].
    apply Qle_bool_iff in Hge. rewrite Hge. reflexivity.
  - intros Hlt. unfold _set_start, stop, start.
    cbv [ask bind write send modify gets execute].
    cbn [dev wire_log warnings dev_stop dev_start].
    destruct (Qle_bool dp v) eqn:E.
    { apply Qle_bool_iff in E. exfalso. lra. }
    destruct (Qle_bool 1 (Qabs (v - settle v))) eqn:Ew.
    + eexists. split; [reflexivity |].
      cbn [dev wire_log warnings dev_stop dev_start].
      apply Qle_bool_iff in Ew.
      split; [rewrite <- !app_assoc; reflexivity |]. split; [reflexivity |].
      split; [reflexivity |]. split; [reflexivity |].
      split.
      * intros H. exfalso. lra.
      * intros _. apply in_or_app. right. left. reflexivity.
    + eexists. split; [reflexivity |].
      cbn [dev wire_log warnings dev_stop dev_start].
      assert (Hn : ~ (1 <= Qabs (v - settle v))%Q).
      { intros H. apply Qle_bool_iff in H. congruence. }
      split; [rewrite <- !app_assoc; reflexivity |]. split; [reflexivity |].
      split; [reflexivity |].
      split; [intros H; contradiction |].
      split; [reflexivity |].
      intros H. exfalso. apply Hn. lra.
Qed.

(** The statement above on an analyzer sweeping 1 GHz .. 2 GHz: a start
    of 3 GHz is refused, a start of 1.5 GHz is written. *)
Lemma set_start_spec_witness :
  ((dev_stop (dev (sweeping 1000000000 2000000000)) <= 3000000000)%Q /\
   _set_start settle_hz 3000000000 (sweeping 1000000000 2000000000) =
   ({| dev := {| dev_start := 1000000000; dev_stop := 2000000000 |};
       wire_log := [QueryStop]; warnings := [] |},
    Raise ValueError)) /\
  ((1500000000 < dev_stop (dev (sweeping 1000000000 2000000000)))%Q /\
   exists st',
     _set_start settle_hz 1500000000 (sweeping 1000000000 2000000000)
       = (st', Return tt) /\
     wire_log st' = [QueryStop; WriteStart 1500000000; QueryStart]).
Proof.
  assert (H1 : (dev_stop (dev (sweeping 1000000000 2000000000))
                <= 3000000000)%Q) by (cbv; discriminate).
  assert (H2 : (1500000000
                < dev_stop (dev (sweeping 1000000000 2000000000)))%Q)
    by (cbv; reflexivity).
  split; split; try assumption.
  - exact (proj1 (set_start_spec settle_hz
                    (sweeping 1000000000 2000000000) 3000000000) H1).
  - destruct (proj2 (set_start_spec settle_hz
                       (sweeping 1000000000 2000000000) 1500000000) H2)
      as (st' & Hrun & Hlog & _).
    exists st'. split; [exact Hrun | exact Hlog].
Defined.

(** *** The stop-frequency setter *)

(** Claim C3 as stated fails: on an analyzer sweeping 1 kHz .. 2 kHz,
    [_set_stop 3000] (a valid stop, above the start) does put a command
    on the wire, the query of the start frequency it validates
    against. *)
Lemma set_stop_writes_the_start_query :
  (dev_start (dev (sweeping 1000 2000)) < 3000)%Q /\
  wire_log (fst (_set_stop settle_hz 3000 (sweeping 1000 2000)))
    = [QueryStart] /\
  wire_log (fst (_set_stop settle_hz 3000 (sweeping 1000 2000)))
    <> wire_log (sweeping 1000 2000).
Proof.
  split; [cbv; reflexivity |].
  split; [reflexivity | discriminate].
Qed.

(** Claim C3, amended.  For every stop value above the current start
    frequency, [_set_stop] validates it against the start it reads and
    returns normally without writing any set command: the one text put
    on the wire is the start-frequency query, the log gains no set
    command, and the analyzer keeps the stop frequency it had. *)
Theorem set_stop_valid_writes_nothing (settle : Q -> Q) (st : state) (v : Q) :
  (dev_start (dev st) < v)%Q ->
  _set_stop settle v st =
    ({| dev := dev st;
        wire_log := (wire_log st ++ [QueryStart])%list;
        warnings := warnings st |}, Return tt) /\
  filter is_write (wire_log (fst (_set_stop settle v st))) =
    filter is_write (wire_log st) /\
  dev (fst (_set_stop settle v st)) = dev st.
Proof.
  intros Hlt.
  assert (E : _set_stop settle v st =
              ({| dev := dev st;
                  wire_log := (wire_log st ++ [QueryStart])%list;
                  warnings := warnings st |}, Return tt)).
  { unfold _set_stop, start.
    cbv [ask bind write send modify gets execute].
    cbn [dev wire_log warnings dev_start].
    destruct (Qle_bool v (dev_start (dev st))) eqn:E; [| reflexivity].
    apply Qle_bool_iff in E. exfalso. lra. }
  rewrite E. cbn [fst wire_log dev]. split; [reflexivity |].
  split; [| reflexivity].
  rewrite filter_app. cbn. apply app_nil_r.
Qed.

(** The statement above on the analyzer sweeping 1 kHz .. 2 kHz. *)
Lemma set_stop_valid_writes_nothing_witness :
  (dev_start (dev (sweeping 1000 2000)) < 3000)%Q /\
  _set_stop settle_hz 3000 (sweeping 1000 2000) =
    ({| dev := {| dev_start := 1000; dev_stop := 2000 |};
        wire_log := [QueryStart]; warnings := [] |},
     Return tt) /\
  dev_stop (dev (fst (_set_stop settle_hz 3000 (sweeping 1000 2000))))
    = 2000%Q.
Proof.
  assert (H : (dev_start (dev (sweeping 1000 2000)) < 3000)%Q)
    by (cbv; reflexivity).
  split; [exact H |].
  destruct (set_stop_valid_writes_nothing settle_hz (sweeping 1000 2000)
              3000 H) as (Hrun & _ & Hdev).
  split; [exact Hrun |]. rewrite Hdev. reflexivity.
Defined.

(** On the other side of the comparison [_set_stop] raises, like
    [_set_start]. *)
Lemma set_stop_invalid_raises (settle : Q -> Q) (st : state) (v : Q) :
  (v <= dev_start (dev st))%Q ->
  snd (_set_stop settle v st) = Raise ValueError.
Proof.
  intros Hle. unfold _set_stop, start.
  cbv [ask bind write send modify gets execute].
  cbn [dev wire_log warnings dev_start].
  apply Qle_bool_iff in Hle. rewrite Hle. reflexivity.
Qed.

End MS2830.

(* ================================================================= *)
(** ** drivers/BlueFors/BlueFors.py *)

Module BlueFors.
Import Py Py.Notations PyFacts.
Local Open Scope string_scope.

(** A cell of a table read by pandas: a float, a text, or the missing
    value [np.nan].  A field is a text when pandas left its column as
    text. *)
Inductive cell : Type :=
  | Num (q : Q)
  | Str (s : string)
  | NaN.

(** A row holds the cells of one line, in column order. *)
Definition row : Type := list cell.

(** What the log file of the day is when it is read: absent, closed to
    the reader, failing some other way at the operating-system level, not
    a table pandas can split, or a table of rows (none, for an empty
    file). *)
Inductive file : Type :=
  | Missing
  | Denied
  | Unreadable
  | Malformed
  | Table (rows : list row).

(** A data frame: the column names given to [read_csv] and the rows. *)
Record frame : Type := {
  names : list string;
  rows : list row
}.

(** [pd.read_csv(file_path, delimiter=',', names=..., header=None)].
    With [names] given, a file without lines yields a frame without
    rows.  A line longer than the names is not followed here: pandas
    takes the leading fields of such a first line as the index, which
    shifts every column; what is stated about the contents of a line
    is stated for logs without such lines. *)
Definition read_csv (f : file) (column_names : list string)
  : outcome frame :=
  match f with
  | Missing => Raise FileNotFoundError
  | Denied => Raise PermissionError
  | Unreadable => Raise OSError
  | Malformed => Raise ParserError
  | Table rs => Return {| names := column_names; rows := rs |}
  end.

(** Position of a column name. *)
Fixpoint index_of (name : string) (l : list string) : option nat :=
  match l with
  | [] => None
  | x :: rest =>
      if String.eqb x name then Some O
      else match index_of name rest with
           | Some i => Some (S i)
           | None => None
           end
  end.

(** [df.iloc[-1]]: the last row; an [IndexError] when there is none. *)
Definition iloc_last (df : frame) : outcome row :=
  match rev (rows df) with
  | [] => Raise IndexError
  | r :: _ => Return r
  end.

(** [series[name]]: the cell under a column name; a [KeyError] when no
    column has that name.  A line shorter than the names is padded with
    the missing value. *)
Definition getitem (df : frame) (r : row) (name : string) : outcome cell :=
  match index_of name (names df) with
  | None => Raise KeyError
  | Some i => Return (nth i r NaN)
  end.

Definition temperature_names : list string := ["date"; "time"; "y"].

Definition pressure_names : list string :=
  ["date"; "time";
   "ch1_name"; "ch1_void1"; "ch1_status"; "ch1_pressure";
   "ch1_void2"; "ch1_void3";
   "ch2_name"; "ch2_void1"; "ch2_status"; "ch2_pressure";
   "ch2_void2"; "ch2_void3";
   "ch3_name"; "ch3_void1"; "ch3_status"; "ch3_pressure";
   "ch3_void2"; "ch3_void3";
   "ch4_name"; "ch4_void1"; "ch4_status"; "ch4_pressure";
   "ch4_void2"; "ch4_void3";
   "ch5_name"; "ch5_void1"; "ch5_status"; "ch5_pressure";
   "ch5_void2"; "ch5_void3";
   "ch6_name"; "ch6_void1"; "ch6_status"; "ch6_pressure";
   "ch6_void2"; "ch6_void3";
   "void"].

(** The warning the handlers log. *)
Inductive message : Type :=
  | CannotAccess (err : exn)
  | CannotParse (err : exn).

(** *** The shape of a date and time

    [strptime], which [pd.to_datetime] applies to each text when it is
    given a format, turns the format into a regular expression and
    matches the text against it from the first character to the last.
    What follows is that expression for the formats made of the
    directives [%d %m %y %H %M %S], white space and punctuation. *)




















Section Driver.

(** The log folder as the driver finds it: the file behind a path. *)
Variable disk : string -> file.

(** [date.today().strftime("%y-%m-%d")]. *)
Variable folder_name : string.

(** [self.folder_path]. *)
Variable folder_path : string.

(** Whether [pd.to_datetime(date + '-' + time, format=fmt)] reads the
    date and time cells of a row; a row it cannot read makes the call
    raise [ValueError].  The dates and times of a log are texts; a
    column of numbers in their place, on which the concatenation raises
    [TypeError], is not followed here. *)
Variable reads_as_datetime : string -> row -> bool.

Definition to_datetime (fmt : string) (df : frame) : outcome unit :=
  if forallb (reads_as_datetime fmt) (rows df)
  then Return tt else Raise ValueError.

(** [os.path.join(folder_path, folder_name, file_name)]. *)
Definition join (file_name : string) : string :=
  folder_path ++ "/" ++ folder_name ++ "/" ++ file_name.

Definition warn (m : message) : M (list message) unit :=
  modify (fun logged => (logged ++ [m])%list).

(** The [file_path] of the two getters. *)
Definition temperature_path (channel : Z) : string :=
  join ("CH" ++ str channel ++ " T " ++ folder_name ++ ".log").

Definition pressure_path : string :=
  join ("maxigauge " ++ folder_name ++ ".log").

(** The column [get_pressure] asks for. *)
Definition pressure_column (channel : Z) : string :=
  "ch" ++ str channel ++ "_pressure".

Definition get_temperature (channel : Z) : M (list message) cell :=
  let file_path := temperature_path channel in
  try_except
    (df <- lift (read_csv (disk file_path) temperature_names) ;;
     lift (to_datetime " %d-%m-%y-%H:%M:%S" df) ;;;
     last <- lift (iloc_last df) ;;
     lift (getitem df last "y"))
    [ ([PermissionError; OSError],
       fun err => warn (CannotAccess err) ;;; ret NaN);
      ([IndexError],
       fun err => warn (CannotParse err) ;;; ret NaN) ].

Definition get_pressure (channel : Z) : M (list message) cell :=
  let file_path := pressure_path in
  try_except
    (df <- lift (read_csv (disk file_path) pressure_names) ;;
     lift (to_datetime "%d-%m-%y-%H:%M:%S" df) ;;;
     last <- lift (iloc_last df) ;;
     lift (getitem df last (pressure_column channel)))
    [ ([PermissionError; OSError],
       fun err => warn (CannotAccess err) ;;; ret NaN);
      ([IndexError],
       fun err => warn (CannotParse err) ;;; ret NaN) ].

(** [get_parser=float] on what the getter returned. *)
Definition float (c : cell) : outcome cell :=
  match c with
  | Num q => Return (Num q)
  | NaN => Return NaN
  | Str _ => Raise ValueError
  end.

(** The Parameter's [get()]: the getter, then the parser. *)
Definition parameter_get (getter : M (list message) cell)
  : M (list message) cell :=
  raw <- getter ;; lift (float raw).

End Driver.

(** The start of a line of the pressure log: date, time, and the six
    fields of the first gauge. *)
Definition gauge_line : row :=
  [Str "04-11-26"; Str "12:00:00"; Str "CH1"; Str "P1"; Num 1;
   Num (1 # 1000); Num 0; Num 1].


(** The states of the log file the handlers are written for: no file,
    no access, and a file from which no row was read. *)
Definition unavailable (f : file) : Prop :=
  f = Missing \/ f = Denied \/ f = Unreadable \/ f = Table [].

(** The exception [read_csv] raises on a file that cannot be opened. *)
Definition access_error (f : file) : option exn :=
  match f with
  | Missing => Some FileNotFoundError
  | Denied => Some PermissionError
  | Unreadable => Some OSError
  | Malformed | Table _ => None
  end.

(** The warning logged for an unavailable file: the access error, or
    else the [IndexError] of the frame without rows. *)
Definition warning_for (f : file) : message :=
  match access_error f with
  | Some err => CannotAccess err
  | None => CannotParse IndexError
  end.

(** *** Reading a log that is not there *)

Section Facts.

Variable disk : string -> file.
Variable folder_name folder_path : string.
Variable reads_as_datetime : string -> row -> bool.

Lemma get_temperature_unavailable (channel : Z) (logged : list message) :
  let f := disk (temperature_path folder_name folder_path channel) in
  unavailable f ->
  get_temperature disk folder_name folder_path reads_as_datetime
    channel logged =
  ((logged ++ [warning_for f])%list, Return NaN).
Proof.
  intros f Hf. unfold get_temperature, try_except, bind, lift.
  fold f. destruct Hf as [-> | [-> | [-> | ->]]]; reflexivity.
Qed.

Lemma get_pressure_unavailable (channel : Z) (logged : list message) :
  let f := disk (pressure_path folder_name folder_path) in
  unavailable f ->
  get_pressure disk folder_name folder_path reads_as_datetime
    channel logged =
  ((logged ++ [warning_for f])%list, Return NaN).
Proof.
  intros f Hf. unfold get_pressure, try_except, bind, lift.
  fold f. destruct Hf as [-> | [-> | [-> | ->]]]; reflexivity.
Qed.

End Facts.




(** With rows whose dates and times read, the getter returns the [y]
    cell of the last row and logs nothing. *)
Lemma get_temperature_last_row
    (disk : string -> file) (folder_name folder_path : string)
    (reads_as_datetime : string -> row -> bool)
    (channel : Z) (logged : list message) (rs : list row) (r : row) :
  disk (temperature_path folder_name folder_path channel)
    = Table (rs ++ [r])%list ->
  forallb (reads_as_datetime " %d-%m-%y-%H:%M:%S") (rs ++ [r])%list = true ->
  get_temperature disk folder_name folder_path reads_as_datetime
    channel logged = (logged, Return (nth 2 r NaN)).
Proof.
  intros Hd Hr. unfold get_temperature, try_except, bind, lift.
  rewrite Hd. cbn [read_csv]. unfold to_datetime. cbn [rows].
  rewrite Hr. unfold iloc_last. cbn [rows].
  rewrite rev_app_distr. reflexivity.
Qed.

(** The last line of the log reads 12.34 K. *)
Example get_temperature_12K34 :
  get_temperature
    (fun _ => Table [[Str " 04-11-26"; Str "11:59:00"; Num (1230 # 100)];
                     [Str " 04-11-26"; Str "12:00:00"; Num (1234 # 100)]])
    "26-11-04" "/logs" (fun _ _ => true) 6 []
  = ([], Return (Num (1234 # 100))).
Proof. reflexivity. Qed.

(** Outside those states the handlers do not apply: a table with rows
    one of which has a date and time that do not read raises the
    [ValueError] of [to_datetime], and a file pandas cannot split raises
    its [ParserError]; neither is among the classes caught. *)
Lemma get_temperature_unreadable_row
    (disk : string -> file) (folder_name folder_path : string)
    (reads_as_datetime : string -> row -> bool)
    (channel : Z) (logged : list message) (rs : list row) :
  disk (temperature_path folder_name folder_path channel) = Table rs ->
  forallb (reads_as_datetime " %d-%m-%y-%H:%M:%S") rs = false ->
  get_temperature disk folder_name folder_path reads_as_datetime
    channel logged = (logged, Raise ValueError).
Proof.
  intros Hd Hr. unfold get_temperature, try_except, bind, lift.
  rewrite Hd. cbn [read_csv]. unfold to_datetime. cbn [rows].
  rewrite Hr. reflexivity.
Qed.

Lemma get_temperature_malformed
    (disk : string -> file) (folder_name folder_path : string)
    (reads_as_datetime : string -> row -> bool)
    (channel : Z) (logged : list message) :
  disk (temperature_path folder_name folder_path channel) = Malformed ->
  get_temperature disk folder_name folder_path reads_as_datetime
    channel logged = (logged, Raise ParserError).
Proof.
  intros Hd. unfold get_temperature, try_except, bind, lift.
  rewrite Hd. reflexivity.
Qed.

(** *** A pressure channel the gauge does not have *)

Lemma index_of_absent (name : string) (l : list string) :
  (forall x, In x l -> x <> name) -> index_of name l = None.
Proof.
  induction l as [| x rest IH]; intros H; simpl; [reflexivity |].
  destruct (String.eqb x name) eqn:E.
  - apply String.eqb_eq in E. exfalso.
    apply (H x); [left; reflexivity | exact E].
  - rewrite IH; [reflexivity |]. intros y Hy. apply H. right. exact Hy.
Qed.

(** The gauge columns are those of channels 1 to 6. *)
Lemma pressure_column_absent (channel : Z) :
  ~ (1 <= channel <= 6)%Z ->
  index_of (pressure_column channel) pressure_names = None.
Proof.
  intros Hout. apply index_of_absent. intros x Hx E.
  unfold pressure_column in E.
  pose proof (f_equal String.length E) as Hlen.
  rewrite !length_append in Hlen.
  simpl in Hx.
  repeat (destruct Hx as [Hx | Hx];
          [ subst x; simpl in Hlen;
            try lia;
            destruct (str channel) as [| c [| d rest]] eqn:Es;
            simpl in Hlen; try lia;
            simpl in E; inversion E; subst c;
            apply Hout;
            match type of Es with
            | str channel = String ?k EmptyString =>
                let n := eval vm_compute in
                           (Z.of_nat (nat_of_ascii k) - 48)%Z in
                assert (channel = n)
                  by (apply str_inj; rewrite Es; reflexivity);
                lia
            end
          | ]).
  contradiction.
Qed.

(** Claim C10.  When the pressure log of the day has at least one row
    and its dates and times read, [get_pressure] with a channel outside
    1..6 raises [KeyError] for the missing column.  The error is a
    lookup error but no instance of the classes the handlers name, so it
    reaches the caller: no warning is logged and not-a-number is not
    returned. *)
Theorem get_pressure_unknown_channel_raises
    (disk : string -> file) (folder_name folder_path : string)
    (reads_as_datetime : string -> row -> bool)
    (channel : Z) (logged : list message) (rs : list row) :
  ~ (1 <= channel <= 6)%Z ->
  disk (pressure_path folder_name folder_path) = Table rs ->
  rs <> [] ->
  forallb (reads_as_datetime "%d-%m-%y-%H:%M:%S") rs = true ->
  get_pressure disk folder_name folder_path reads_as_datetime
    channel logged = (logged, Raise KeyError) /\
  parameter_get
    (get_pressure disk folder_name folder_path reads_as_datetime channel)
    logged = (logged, Raise KeyError) /\
  is_lookup_error KeyError = true /\
  existsb (isinstance KeyError) [PermissionError; OSError; IndexError]
    = false.
Proof.
  intros Hout Hd Hne Hr.
  assert (E : get_pressure disk folder_name folder_path reads_as_datetime
                channel logged = (logged, Raise KeyError)).
  { unfold get_pressure, try_except, bind, lift.
    rewrite Hd. cbn [read_csv]. unfold to_datetime. cbn [rows].
    rewrite Hr. unfold iloc_last. cbn [rows].
    destruct (rev rs) as [| r rest] eqn:Er.
    - exfalso. apply Hne. apply (f_equal (@rev row)) in Er.
      rewrite rev_involutive in Er. exact Er.
    - unfold getitem. cbn [names].
      rewrite (pressure_column_absent channel Hout). reflexivity. }
  split; [exact E |].
  split; [unfold parameter_get, bind; rewrite E; reflexivity |].
  split; reflexivity.
Qed.

(** The statement above for channel 7 and a log of one line. *)
Lemma get_pressure_unknown_channel_raises_witness :
  (~ (1 <= 7 <= 6)%Z /\ [gauge_line] <> []) /\
  get_pressure (fun _ => Table [gauge_line]) "26-11-04" "/logs"
    (fun _ _ => true) 7 [] = ([], Raise KeyError).
Proof.
  assert (H1 : ~ (1 <= 7 <= 6)%Z) by lia.
  assert (H2 : [gauge_line] <> []) by discriminate.
  split; [split; assumption |].
  exact (proj1 (get_pressure_unknown_channel_raises
                  (fun _ => Table [gauge_line]) "26-11-04" "/logs"
                  (fun _ _ => true) 7 [] [gauge_line] H1 eq_refl H2 eq_refl)).
Defined.

(** On the same log channel 1 reads its pressure. *)
Example get_pressure_channel_1 :
  get_pressure (fun _ => Table [gauge_line]) "26-11-04" "/logs"
    (fun _ _ => true) 1 [] = ([], Return (Num (1 # 1000))).
Proof. reflexivity. Qed.

End BlueFors.

(* ================================================================= *)
(** ** The [val_mapping] tables of the drivers *)

Module ValMapping.
Import Py Py.Notations PyFacts.
Local Open Scope string_scope.

(** The Python values that occur as symbols and as tokens. *)
Inductive value : Type :=
  | VStr (s : string)
  | VInt (n : Z)
  | VBool (b : bool).

(** [a == b] on those values; [True == 1] and [False == 0]. *)
Definition value_eqb (a b : value) : bool :=
  match a, b with
  | VStr s, VStr t => String.eqb s t
  | VInt m, VInt n => Z.eqb m n
  | VBool x, VBool y => Bool.eqb x y
  | VInt n, VBool x | VBool x, VInt n => Z.eqb n (if x then 1 else 0)
  | _, _ => false
  end.

(** A dict, as its items in insertion order. *)
Definition dict : Type := list (value * value).

(** [d.get(k)]. *)
Fixpoint dict_get (d : dict) (k : value) : option value :=
  match d with
  | [] => None
  | (k', v) :: rest => if value_eqb k' k then Some v else dict_get rest k
  end.

(** [d[k] = v]: an equal key keeps its place and takes the new value, a
    new key goes last. *)
Fixpoint dict_set (d : dict) (k v : value) : dict :=
  match d with
  | [] => [(k, v)]
  | (k', v') :: rest =>
      if value_eqb k' k then (k', v) :: rest
      else (k', v') :: dict_set rest k v
  end.

(** [dict(items)] and dict comprehensions: items are set in order, so of
    two items with equal keys the later gives the value. *)
Definition dict_of_items (items : list (value * value)) : dict :=
  fold_left (fun d kv => dict_set d (fst kv) (snd kv)) items [].

(** [{v: k for k, v in val_mapping.items()}], the Parameter's
    [inverse_val_mapping]. *)
Definition inverse_val_mapping (val_mapping : dict) : dict :=
  dict_of_items (map (fun kv => (snd kv, fst kv)) val_mapping).

(** The symbol to token direction of a set: the symbol must be a key. *)
Definition encode (val_mapping : dict) (symbol : value) : outcome value :=
  match dict_get val_mapping symbol with
  | Some token => Return token
  | None => Raise ValueError
  end.

(** [str(token)], what [set_cmd.format(token)] puts on the wire. *)
Definition wire_text (token : value) : string :=
  match token with
  | VStr s => s
  | VInt n => str n
  | VBool true => "True"
  | VBool false => "False"
  end.

(** The token to symbol direction of a get: the reply text is looked up
    as it is, then as the integer it spells; a reply found neither way
    is a [KeyError]. *)
Definition decode (val_mapping : dict) (raw : string) : outcome value :=
  let inverse := inverse_val_mapping val_mapping in
  match dict_get inverse (VStr raw) with
  | Some symbol => Return symbol
  | None =>
      match int raw with
      | Return n =>
          match dict_get inverse (VInt n) with
          | Some symbol => Return symbol
          | None => Raise KeyError
          end
      | Raise _ => Raise KeyError
      end
  end.

(** Set a symbol, have the device echo the token, get it back. *)
Definition roundtrip (val_mapping : dict) (symbol : value) : outcome value :=
  match encode val_mapping symbol with
  | Return token => decode val_mapping (wire_text token)
  | Raise e => Raise e
  end.

(** *** The tables *)

Definition strs_to_ints (items : list (string * Z)) : dict :=
  map (fun kv => (VStr (fst kv), VInt (snd kv))) items.

Definition strs_to_strs (items : list (string * string)) : dict :=
  map (fun kv => (VStr (fst kv), VStr (snd kv))) items.

(** drivers/StanfordResearchSystems/SG384.py *)
Definition SG384_noise_mode : dict :=
  strs_to_ints [("Mode 1", 0); ("Mode 2", 1)]%Z.
Definition SG384_enable_RF : dict := strs_to_ints [("OFF", 0); ("ON", 1)]%Z.
Definition SG384_enable_LF : dict := strs_to_ints [("OFF", 0); ("ON", 1)]%Z.
Definition SG384_modulation_coupling : dict :=
  strs_to_ints [("AC", 0); ("DC", 1)]%Z.
Definition SG384_modulation_function : dict :=
  strs_to_ints [("Sine", 0); ("Ramp", 1); ("Triangle", 2); ("Square", 3);
                ("Noise", 4); ("External", 5)]%Z.
Definition SG384_enable_modulation : dict :=
  strs_to_ints [("OFF", 0); ("ON", 1)]%Z.
Definition SG384_modulation_type : dict :=
  strs_to_ints [("AM", 0); ("FM", 1); ("Phi", 2); ("Sweep", 3);
                ("Pulse", 4); ("Blank", 5); ("IQ", 6)]%Z.

(** drivers/Tektronix/AFG31000.py *)
Definition AFG31000_type : dict :=
  strs_to_strs [("SINE", "SIN"); ("SQUARE", "SQU"); ("PULSE", "PULS");
                ("RAMP", "RAMP"); ("NOISE", "PRN"); ("DC", "DC");
                ("SINC", "SINC"); ("GAUSS", "GAUS"); ("LORENTZ", "LOR");
                ("ERISE", "ERIS"); ("EDECAY", "EDEC"); ("HAVERSINE", "HAV")].

(** drivers/NF/LI5660.py *)
Definition LI5660_output_config : dict :=
  strs_to_ints [("R,T", 6); ("X,Y", 24); ("R,T,X,Y", 30)]%Z.

(** drivers/AndeenHagerling/AH2500A.py *)
Definition AH2500A_mode : dict :=
  strs_to_strs [("single", "SINGLE"); ("cont", "CONTINUOUS")].

(** The mappings written out as dict literals in the drivers. *)
Definition literal_val_mappings : list dict :=
  [SG384_noise_mode; SG384_enable_RF; SG384_enable_LF;
   SG384_modulation_coupling; SG384_modulation_function;
   SG384_enable_modulation; SG384_modulation_type;
   AFG31000_type; LI5660_output_config; AH2500A_mode].

(** [create_on_off_val_mapping(on_val, off_val)], the QCoDeS helper that
    drivers/Anritsu/MS2830.py calls for [cont_meas]: every usual spelling
    of on and off is a symbol, [True] and [False] last, so that the
    inverse mapping answers with the booleans. *)
Definition create_on_off_val_mapping (on_val off_val : value) : dict :=
  dict_of_items
    (map (fun k => (k, on_val))
         [VStr "On"; VStr "ON"; VStr "on"; VStr "1"; VBool true]
     ++ map (fun k => (k, off_val))
         [VStr "Off"; VStr "OFF"; VStr "off"; VStr "0"; VBool false])%list.

(** drivers/Anritsu/MS2830.py *)
Definition MS2830_cont_meas : dict :=
  create_on_off_val_mapping (VStr "ON") (VStr "OFF").

(** Every mapping a driver declares. *)
Definition declared_val_mappings : list dict :=
  (literal_val_mappings ++ [MS2830_cont_meas])%list.

(** The symbols of a mapping. *)
Definition symbols (val_mapping : dict) : list value := map fst val_mapping.

(** *** Round trips *)

(** Claim C7 as stated fails on the on/off mapping of
    [MS2830.cont_meas]: the symbol ["on"] is encoded as ["ON"], and
    ["ON"] decodes to [True]. *)
Lemma cont_meas_roundtrip_changes_symbol :
  In MS2830_cont_meas declared_val_mappings /\
  In (VStr "on") (symbols MS2830_cont_meas) /\
  encode MS2830_cont_meas (VStr "on") = Return (VStr "ON") /\
  roundtrip MS2830_cont_meas (VStr "on") = Return (VBool true) /\
  roundtrip MS2830_cont_meas (VStr "on") <> Return (VStr "on").
Proof.
  split; [vm_compute; tauto |].
  split; [vm_compute; tauto |].
  split; [reflexivity |].
  split; [reflexivity | discriminate].
Qed.

(** On that mapping a round trip yields the boolean of the symbol. *)
Lemma cont_meas_roundtrip_is_boolean (symbol : value) :
  In symbol (symbols MS2830_cont_meas) ->
  exists b, roundtrip MS2830_cont_meas symbol = Return (VBool b).
Proof.
  intros Hs. vm_compute in Hs.
  repeat (destruct Hs as [<- | Hs]; [eexists; reflexivity |]).
  contradiction.
Qed.

(** Claim C7, amended.  For every mapping written as a dict literal in
    a driver (the seven of the SG384, the waveform type of the AFG31000,
    the output configuration of the LI5660, the mode of the AH2500A) and
    every symbol of it, the symbol has a token, and decoding the text of
    that token yields the symbol again; hence no two symbols of the
    mapping share a token. *)
Theorem literal_val_mapping_roundtrip (m : dict) (symbol : value) :
  In m literal_val_mappings ->
  In symbol (symbols m) ->
  (exists token, encode m symbol = Return token) /\
  roundtrip m symbol = Return symbol /\
  (forall other, In other (symbols m) ->
                 encode m other = encode m symbol -> other = symbol).
Proof.
  intros Hm Hs.
  assert (Hrt : forall s, In s (symbols m) ->
                  (exists token, encode m s = Return token) /\
                  roundtrip m s = Return s).
  { clear symbol Hs. intros s Hs. unfold literal_val_mappings in Hm.
    simpl in Hm.
    repeat (destruct Hm as [<- | Hm];
            [ vm_compute in Hs;
              repeat (destruct Hs as [<- | Hs];
                      [ split; [eexists; reflexivity | reflexivity] | ]);
              contradiction
            | ]).
    contradiction. }
  destruct (Hrt symbol Hs) as [Htok Hsym].
  split; [exact Htok |]. split; [exact Hsym |].
  intros other Ho He.
  destruct (Hrt other Ho) as [_ Hother].
  unfold roundtrip in Hother, Hsym. rewrite He in Hother.
  rewrite Hsym in Hother. inversion Hother. reflexivity.
Qed.

(** The statement above for [Sweep] in the SG384's modulation types. *)
Lemma literal_val_mapping_roundtrip_witness :
  In SG384_modulation_type literal_val_mappings /\
  In (VStr "Sweep") (symbols SG384_modulation_type) /\
  encode SG384_modulation_type (VStr "Sweep") = Return (VInt 3) /\
  roundtrip SG384_modulation_type (VStr "Sweep") = Return (VStr "Sweep").
Proof.
  assert (Hm : In SG384_modulation_type literal_val_mappings)
    by (vm_compute; tauto).
  assert (Hs : In (VStr "Sweep") (symbols SG384_modulation_type))
    by (vm_compute; tauto).
  split; [exact Hm |]. split; [exact Hs |]. split; [reflexivity |].
  exact (proj1 (proj2 (literal_val_mapping_roundtrip
                         SG384_modulation_type (VStr "Sweep") Hm Hs))).
Defined.

End ValMapping.

(* ================================================================= *)
(** ** drivers/Tektronix/AFG31000.py *)

Module AFG31000.
Import Py Py.Notations PyFacts.
Local Open Scope string_scope.

(** [_chan_amps = {'31252': 2.0}]. *)
Definition _chan_amps (model : string) : outcome Q :=
  if String.eqb model "31252" then Return 2%Q else Raise KeyError.

(** What the channel reads from its parent. *)
Record AFG31000 : Type := {
  model : string;
  num_channels : Z
}.

Record AFGChannel : Type := {
  parent : AFG31000;
  name : string;
  channel : Z
}.

(** [AFGChannel.__init__(parent, name, channel)]. *)
Definition AFGChannel_init (p : AFG31000) (nm : string) (ch : Z)
  : M (list string) AFGChannel :=
  let self := {| parent := p; name := nm; channel := ch |} in
  lift (InstrumentChannel_init nm) ;;;
  if negb (existsb (Z.eqb ch) (range1 (num_channels p)))
  then raise ValueError
  else
    add_parameter "state" ;;;
    amplitude_max <- lift (_chan_amps (model p)) ;;
    add_parameter "amplitude" ;;;
    offset_max <- lift (_chan_amps (model p)) ;;
    add_parameter "offset" ;;;
    add_parameter "type" ;;;
    add_parameter "pulse_period" ;;;
    add_parameter "pulse_width" ;;;
    add_parameter "cw_freq" ;;;
    ret self.

(** The instrument [AFG31000.__init__] accepts: model 31252, two
    channels. *)
Definition afg31252 : AFG31000 := {| model := "31252"; num_channels := 2 |}.

(** What a two-channel HV324 answers while it is constructed: its
    identity, then an acknowledgement for each display command. *)
Definition hv_script : Stahl.script_wire :=
  [Return (Stahl.Text "HV324 200 02 b");
   Return Stahl.Ack; Return Stahl.Ack; Return Stahl.Ack].

(** *** Channel numbers *)

Lemma not_in_range1 (ch n : Z) :
  ~ (1 <= ch <= n)%Z -> existsb (Z.eqb ch) (range1 n) = false.
Proof.
  intros Hout. destruct (existsb (Z.eqb ch) (range1 n)) eqn:E;
    [| reflexivity].
  apply existsb_exists in E as (k & Hk & Heq).
  apply Z.eqb_eq in Heq; subst k. apply range1_bounds in Hk. contradiction.
Qed.

(** Claim C9 as stated fails for the Stahl channel: on a parent of 8
    channels, constructing channel 99 returns, with both Parameters
    registered. *)
Lemma StahlChannel_accepts_any_number :
  ~ (1 <= 99 <= Stahl.n_channels Stahl.hv324)%Z /\
  Stahl.StahlChannel_init Stahl.hv324 "ch99" 99 [] =
  (["voltage"; "current"],
   Return {| Stahl.parent := Stahl.hv324; Stahl.ch_name := "ch99";
             Stahl.channel_number := 99 |}).
Proof.
  split; [cbv; intros [_ H]; apply H; reflexivity | reflexivity].
Qed.

(** Claim C9, amended.  Constructing an [AFGChannel] with a number
    outside [1 .. parent.num_channels] raises [ValueError] before any
    Parameter is registered.  [StahlChannel.__init__] has no such check;
    its numbers are in [1 .. n_channels] because [HV324.__init__], the
    one place that constructs Stahl channels, numbers them so. *)
Theorem channel_numbers_in_range :
  (forall (p : AFG31000) (nm : string) (ch : Z),
     ~ (1 <= ch <= num_channels p)%Z ->
     AFGChannel_init p nm ch [] = ([], Raise ValueError)) /\
  (forall (T : Type) (respond : T -> Stahl.request -> T * outcome Stahl.reply)
          (ch_names : option (list (Z * string))) (st st' : Stahl.state T)
          (info : Stahl.idn_info) (channels : list Stahl.StahlChannel),
     Stahl.HV324_init respond ch_names st = (st', Return (info, channels)) ->
     Forall (fun c => (1 <= Stahl.channel_number c
                         <= Stahl.n_channels info)%Z) channels).
Proof.
  split.
  - intros p nm ch Hout. unfold AFGChannel_init, InstrumentChannel_init.
    rewrite (not_in_range1 ch (num_channels p) Hout).
    unfold bind, lift. destruct (valid_module_name nm); reflexivity.
  - intros T respond ch_names st st' info channels H.
    exact (proj2 (Stahl.HV324_init_channel_numbers T respond ch_names
                    st st' info channels H)).
Qed.

(** The statement above on the two-channel AFG31252 and channel 3, and
    on a two-channel HV324 that answers its identity and acknowledges
    the rest. *)
Lemma channel_numbers_in_range_witness :
  (~ (1 <= 3 <= num_channels afg31252)%Z /\
   AFGChannel_init afg31252 "ch3" 3 [] = ([], Raise ValueError)) /\
  (exists st' info channels,
     Stahl.HV324_init Stahl.script_respond None (Stahl.fresh hv_script)
       = (st', Return (info, channels)) /\
     map Stahl.channel_number channels = [1; 2]%Z /\
     Forall (fun c => (1 <= Stahl.channel_number c
                         <= Stahl.n_channels info)%Z) channels).
Proof.
  assert (H : ~ (1 <= 3 <= num_channels afg31252)%Z)
    by (cbv; intros [_ H]; apply H; reflexivity).
  split.
  - split; [exact H |].
    exact (proj1 channel_numbers_in_range afg31252 "ch3" 3%Z H).
  - destruct (Stahl.HV324_init Stahl.script_respond None
                (Stahl.fresh hv_script))
      as [st' [[info channels] | e]] eqn:E.
    + exists st', info, channels. split; [reflexivity |].
      split.
      * vm_compute in E. inversion E. reflexivity.
      * exact (proj2 channel_numbers_in_range _ Stahl.script_respond None
                 (Stahl.fresh hv_script) st' info channels E).
    + vm_compute in E. discriminate E.
Defined.

(** A channel in range, under an acceptable name, is built with its
    seven Parameters. *)
Lemma AFGChannel_init_in_range (nm : string) (ch : Z) :
  valid_module_name nm = true ->
  (1 <= ch <= 2)%Z ->
  AFGChannel_init afg31252 nm ch [] =
  (["state"; "amplitude"; "offset"; "type"; "pulse_period";
    "pulse_width"; "cw_freq"],
   Return {| parent := afg31252; name := nm; channel := ch |}).
Proof.
  intros Hn H. assert (E : ch = 1%Z \/ ch = 2%Z) by lia.
  unfold AFGChannel_init, InstrumentChannel_init. rewrite Hn.
  destruct E as [-> | ->]; reflexivity.
Qed.

End AFG31000.

(* ================================================================= *)
(** ** More on fixed-point rounding *)

Module Rounding.
Import Py PyFacts.

(** A bound lies on the grid of [n] decimals when it is a whole number
    of units of [10^-n]. *)
Definition on_grid (n : nat) (q : Q) : bool :=
  Qeq_bool (inject_Z (Qfloor (q * pow10 n))) (q * pow10 n).

(** What the device receives for [x] written with [n] decimals. *)
Definition written (n : nat) (x : Q) : Q := of_fixed n (format_f n x).

Lemma round_half_even_lower (k : Z) (q : Q) :
  (inject_Z k <= q)%Q -> (k <= round_half_even q)%Z.
Proof.
  intros H. unfold round_half_even.
  assert (Hf : (k <= Qfloor q)%Z).
  { rewrite <- (Qfloor_Z k). apply Qfloor_resp_le. exact H. }
  destruct (q - inject_Z (Qfloor q) ?= 1 # 2)%Q;
    [destruct (Z.even (Qfloor q)) | |]; lia.
Qed.

Lemma round_half_even_upper (k : Z) (q : Q) :
  (q <= inject_Z k)%Q -> (round_half_even q <= k)%Z.
Proof.
  intros H. unfold round_half_even.
  pose proof (Qfloor_le q) as Hlo.
  assert (Hf : (Qfloor q <= k)%Z).
  { rewrite Zle_Qle. apply Qle_trans with q; assumption. }
  destruct (Z.eq_dec (Qfloor q) k) as [E | NE].
  - (* the floor is [k] itself: [q] is [k] and nothing is added *)
    rewrite E in *.
    destruct (Qcompare_spec (q - inject_Z k) (1 # 2)) as [He | Hl | Hg].
    + exfalso. lra.
    + lia.
    + exfalso. lra.
  - destruct (q - inject_Z (Qfloor q) ?= 1 # 2)%Q;
      [destruct (Z.even (Qfloor q)) | |]; lia.
Qed.

Lemma on_grid_integer (n : nat) (q : Q) :
  on_grid n q = true -> exists k, (q * pow10 n == inject_Z k)%Q.
Proof.
  unfold on_grid. intros H. apply Qeq_bool_eq in H.
  exists (Qfloor (q * pow10 n)). symmetry. exact H.
Qed.

(** Writing with [n] decimals never crosses a bound that is a whole
    number [k] of units of [10^-n]. *)
Lemma written_lower_at (n : nat) (k : Z) (lo x : Q) :
  (lo * pow10 n == inject_Z k)%Q -> (lo <= x)%Q -> (lo <= written n x)%Q.
Proof.
  intros Hk Hx.
  pose proof (pow10_pos n) as Hp. unfold written, of_fixed, format_f.
  assert (Hk' : (inject_Z k <= x * pow10 n)%Q).
  { rewrite <- Hk. apply Qmult_le_compat_r; [exact Hx | lra]. }
  apply round_half_even_lower in Hk'. rewrite Zle_Qle in Hk'.
  apply Qle_shift_div_l; [exact Hp |].
  rewrite Hk. exact Hk'.
Qed.

Lemma written_upper_at (n : nat) (k : Z) (hi x : Q) :
  (hi * pow10 n == inject_Z k)%Q -> (x <= hi)%Q -> (written n x <= hi)%Q.
Proof.
  intros Hk Hx.
  pose proof (pow10_pos n) as Hp. unfold written, of_fixed, format_f.
  assert (Hk' : (x * pow10 n <= inject_Z k)%Q).
  { rewrite <- Hk. apply Qmult_le_compat_r; [exact Hx | lra]. }
  apply round_half_even_upper in Hk'. rewrite Zle_Qle in Hk'.
  apply Qle_shift_div_r; [exact Hp |].
  rewrite Hk. exact Hk'.
Qed.

Lemma written_lower (n : nat) (lo x : Q) :
  on_grid n lo = true -> (lo <= x)%Q -> (lo <= written n x)%Q.
Proof.
  intros Hg Hx. destruct (on_grid_integer n lo Hg) as [k Hk].
  exact (written_lower_at n k lo x Hk Hx).
Qed.

Lemma written_upper (n : nat) (hi x : Q) :
  on_grid n hi = true -> (x <= hi)%Q -> (written n x <= hi)%Q.
Proof.
  intros Hg Hx. destruct (on_grid_integer n hi Hg) as [k Hk].
  exact (written_upper_at n k hi x Hk Hx).
Qed.

End Rounding.

(* ================================================================= *)
(** ** Numeric Parameters written with a fixed number of decimals

    drivers/StanfordResearchSystems/SG384.py and drivers/NF/LI5660.py
    declare their numeric Parameters with a [Numbers] validator and a
    [set_cmd] that formats the value with a printf precision, such as
    ['FREQ {:.3f}']. *)

Module FixedPoint.
Import Py PyFacts Rounding.
Local Open Scope string_scope.

(** A declaration: the mnemonic of [set_cmd], its precision, and the
    bounds of [vals=Numbers(min_value, max_value)]. *)
Record declaration : Type := {
  mnemonic : string;
  decimals : nat;
  min_value : Q;
  max_value : Q
}.

(** drivers/StanfordResearchSystems/SG384.py *)
Definition SG384_frequency : declaration :=
  {| mnemonic := "FREQ"; decimals := 3;
     min_value := 950000; max_value := 4050000000 |}.
Definition SG384_phase : declaration :=
  {| mnemonic := "PHAS"; decimals := 1;
     min_value := -360; max_value := 360 |}.
Definition SG384_amplitude_LF : declaration :=
  {| mnemonic := "AMPL"; decimals := 2; min_value := -47; max_value := 13 |}.
Definition SG384_amplitude_RF : declaration :=
  {| mnemonic := "AMPR"; decimals := 2;
     min_value := -110; max_value := 33 # 2 |}.
Definition SG384_FM_deviation : declaration :=
  {| mnemonic := "FDEV"; decimals := 1;
     min_value := 1 # 10; max_value := 32000000 |}.
Definition SG384_modulation_rate : declaration :=
  {| mnemonic := "RATE"; decimals := 6;
     min_value := 1 # 1000000; max_value := 50000 |}.

(** drivers/NF/LI5660.py *)
Definition LI5660_osc_frequency : declaration :=
  {| mnemonic := "SOUR:FREQ"; decimals := 4;
     min_value := 1 # 2; max_value := 11000000 |}.
Definition LI5660_osc_amplitude : declaration :=
  {| mnemonic := "SOUR:VOLT"; decimals := 3;
     min_value := 0; max_value := 1 |}.

Definition declarations : list declaration :=
  [SG384_frequency; SG384_phase; SG384_amplitude_LF; SG384_amplitude_RF;
   SG384_FM_deviation; SG384_modulation_rate;
   LI5660_osc_frequency; LI5660_osc_amplitude].

(** [vals.validate(value)] for [Numbers(min_value, max_value)]. *)
Definition validate (d : declaration) (value : Q) : outcome unit :=
  if Qle_bool (min_value d) value && Qle_bool value (max_value d)
  then Return tt else Raise ValueError.

(** The Parameter's set: validate, then write
    [set_cmd.format(value)], here the mnemonic and the number as the
    count of units of its last decimal. *)
Definition set (d : declaration) (value : Q)
  : M (list (string * Z)) unit :=
  match validate d value with
  | Raise e => raise e
  | Return _ =>
      modify (fun wire =>
        (wire ++ [(mnemonic d, format_f (decimals d) value)])%list)
  end.

Definition bounds_on_grid (d : declaration) : bool :=
  on_grid (decimals d) (min_value d) && on_grid (decimals d) (max_value d).

Lemma declarations_on_grid :
  forall d, In d declarations -> bounds_on_grid d = true.
Proof.
  intros d Hd. unfold declarations in Hd. simpl in Hd.
  repeat (destruct Hd as [<- | Hd]; [vm_compute; reflexivity |]).
  contradiction.
Qed.

Lemma validate_bounds (d : declaration) (v : Q) :
  validate d v = Return tt <->
  (min_value d <= v)%Q /\ (v <= max_value d)%Q.
Proof.
  unfold validate. split.
  - destruct (Qle_bool (min_value d) v) eqn:E1; [| discriminate].
    destruct (Qle_bool v (max_value d)) eqn:E2; [| discriminate].
    intros _. split; apply Qle_bool_iff; assumption.
  - intros [H1 H2]. apply Qle_bool_iff in H1. apply Qle_bool_iff in H2.
    rewrite H1, H2. reflexivity.
Qed.

(** Property X13.  For each of these Parameters and every value its
    validator admits, the set writes one command whose number is itself
    a value the validator admits and lies within half a unit of the last
    decimal of the value asked for. *)
Theorem set_writes_admitted_value
    (d : declaration) (v : Q) (wire : list (string * Z)) :
  In d declarations ->
  validate d v = Return tt ->
  set d v wire =
    ((wire ++ [(mnemonic d, format_f (decimals d) v)])%list, Return tt) /\
  validate d (written (decimals d) v) = Return tt /\
  (Qabs (written (decimals d) v - v) <= (1 # 2) / pow10 (decimals d))%Q.
Proof.
  intros Hd Hv. split; [unfold set; rewrite Hv; reflexivity |].
  split; [| apply of_fixed_format_close].
  pose proof (declarations_on_grid d Hd) as Hg. unfold bounds_on_grid in Hg.
  apply andb_true_iff in Hg as [Hlo Hhi].
  apply validate_bounds in Hv as [H1 H2]. apply validate_bounds. split.
  - apply written_lower; assumption.
  - apply written_upper; assumption.
Qed.

(** The statement above for the SG384 at 10 MHz and a third of a
    hertz. *)
Lemma set_writes_admitted_value_witness :
  In SG384_frequency declarations /\
  validate SG384_frequency (30000001 # 3) = Return tt /\
  set SG384_frequency (30000001 # 3) [] =
    ([("FREQ", 10000000333%Z)], Return tt) /\
  validate SG384_frequency (written 3 (30000001 # 3)) = Return tt.
Proof.
  assert (Hd : In SG384_frequency declarations) by (left; reflexivity).
  assert (Hv : validate SG384_frequency (30000001 # 3) = Return tt)
    by (vm_compute; reflexivity).
  split; [exact Hd |]. split; [exact Hv |].
  destruct (set_writes_admitted_value SG384_frequency (30000001 # 3) []
              Hd Hv) as (Hset & Hadm & _).
  split; [exact Hset | exact Hadm].
Defined.

(** A value outside the bounds is refused with nothing written. *)
Lemma set_refuses_out_of_range
    (d : declaration) (v : Q) (wire : list (string * Z)) :
  ~ ((min_value d <= v)%Q /\ (v <= max_value d)%Q) ->
  set d v wire = (wire, Raise ValueError).
Proof.
  intros H. unfold set.
  destruct (validate d v) as [[] | e] eqn:E.
  - exfalso. apply H. apply validate_bounds. exact E.
  - unfold validate in E.
    destruct (Qle_bool (min_value d) v && Qle_bool v (max_value d));
      [discriminate |]. inversion E. reflexivity.
Qed.

End FixedPoint.

(* ================================================================= *)
(** ** drivers/Stahl/HV324.py, continued *)

Module StahlMore.
Import Py Py.Notations PyFacts Rounding Stahl.
Local Open Scope string_scope.

(** Channel 1 with 0 V cached, on the echoing mock. *)
Definition at_zero : state echo_wire :=
  with_cache (Some 0%Q) (fresh (fun _ => None)).

(** Whether a text addresses channel [ch]. *)
Definition about_channel (ch : Z) (req : request) : bool :=
  match req with
  | ReqV c | ReqI c | ReqCH c _ | ReqDISLabel c _
  | ReqDISRamp c _ _ | ReqDISSet c _ _ => Z.eqb c ch
  | ReqIDN | ReqDISAuto => false
  end.

(** The dictionary for the given fields. *)
Definition info_of (p : prefix) (serial range chans : Z) (v : variant)
  : idn_info :=
  {| model := prefix_text p;
     serial_number := zero_pad 3 serial;
     voltage_range := inject_Z range;
     n_channels := chans;
     output_type := Some (variant_name v) |}.

(** Neither [H] nor [B]. *)
Definition not_H_nor_B (c : ascii) : bool :=
  negb (Ascii.eqb c "H" || Ascii.eqb c "B").

(** The channel [__init__] builds for a number. *)
Definition channel_for (info : idn_info)
    (ch_names : option (list (Z * string))) (number : Z) : StahlChannel :=
  {| parent := info; ch_name := channel_name ch_names number;
     channel_number := number |}.

(** The display label written for a number. *)
Definition label_for (ch_names : option (list (Z * string))) (number : Z)
  : request :=
  ReqDISLabel number (channel_name ch_names number).

(** No name occurs twice. *)
Fixpoint distinct (l : list string) : bool :=
  match l with
  | [] => true
  | x :: rest => negb (existsb (String.eqb x) rest) && distinct rest
  end.

(** A transport that gives its identity and acknowledges the rest. *)
Definition hv324_respond (w : unit) (req : request) : unit * outcome reply :=
  match req with
  | ReqIDN => (tt, Return (Text "HV324 200 08 b"))
  | _ => (tt, Return Ack)
  end.

(** *** [ramp], both ways out *)

(** [ramp_return_restores] for a ramp from 0 V to 0.2 V in steps of
    0.1 V: two sets between the two display annotations. *)
Lemma ramp_return_restores_witness :
  (config_ok at_zero /\ (0 < 1 # 10)%Q /\ (0 <= 0)%Q) /\
  exists st',
    ramp echo_respond ch01 (2 # 10) (1 # 10) 0 at_zero = (st', Return tt) /\
    sent st' = [ReqDISRamp 1 "ch01" 2000; ReqCH 1 500250; ReqCH 1 500500;
                ReqDISSet 1 "ch01" 2000] /\
    step st' = step at_zero /\ inter_delay st' = inter_delay at_zero.
Proof.
  assert (Hc : config_ok at_zero)
    by (split; [exact I | cbv; discriminate]).
  assert (Hs : (0 < 1 # 10)%Q) by (cbv; reflexivity).
  assert (Hd : (0 <= 0)%Q) by (cbv; discriminate).
  split; [split; [exact Hc | split; [exact Hs | exact Hd]] |].
  destruct (ramp echo_respond ch01 (2 # 10) (1 # 10) 0 at_zero)
    as [st' [[] | e]] eqn:E.
  - exists st'. split; [reflexivity |].
    split; [vm_compute in E; inversion E; reflexivity |].
    exact (ramp_return_restores echo_wire echo_respond ch01
             (2 # 10) (1 # 10) 0 at_zero st' Hc Hs Hd E).
  - vm_compute in E. discriminate E.
Defined.

(** [ramp_raise_keeps_ramp_config] for the same ramp on a transport
    that acknowledges the annotation and the first set and then times
    out. *)
Lemma ramp_raise_keeps_ramp_config_witness :
  (config_ok (with_cache (Some 0%Q) (fresh [Return Ack; Return Ack]))
   /\ (0 < 1 # 10)%Q /\ (0 <= 1 # 100)%Q) /\
  exists st',
    ramp script_respond ch01 (2 # 10) (1 # 10) (1 # 100)
         (with_cache (Some 0%Q) (fresh [Return Ack; Return Ack]))
      = (st', Raise VisaIOError) /\
    cache st' = Some (1 # 10) /\
    step st' = Some (1 # 10) /\ inter_delay st' = (1 # 100)%Q.
Proof.
  assert (Hc : config_ok
                 (with_cache (Some 0%Q) (fresh [Return Ack; Return Ack])))
    by (split; [exact I | cbv; discriminate]).
  assert (Hs : (0 < 1 # 10)%Q) by (cbv; reflexivity).
  assert (Hd : (0 <= 1 # 100)%Q) by (cbv; discriminate).
  split; [split; [exact Hc | split; [exact Hs | exact Hd]] |].
  destruct (ramp script_respond ch01 (2 # 10) (1 # 10) (1 # 100)
              (with_cache (Some 0%Q) (fresh [Return Ack; Return Ack])))
    as [st' [[] | e]] eqn:E.
  - vm_compute in E. discriminate E.
  - assert (e = VisaIOError) by (vm_compute in E; congruence). subst e.
    exists st'. split; [reflexivity |].
    split; [vm_compute in E; inversion E; reflexivity |].
    exact (ramp_raise_keeps_ramp_config script_wire script_respond ch01
             (2 # 10) (1 # 10) (1 # 100) _ st' VisaIOError Hc Hs Hd E).
Defined.

(** *** A channel writes to itself only *)

Section OwnChannel.

Variable T : Type.
Variable respond : T -> request -> T * outcome reply.
Variable self : StahlChannel.

(** A call extends the log of written texts, and only by texts that
    address channel [ch]; the texts logged before stay. *)
Definition addresses (ch : Z) {A} (c : M (state T) A) : Prop :=
  forall st, exists extra,
    sent (fst (c st)) = (sent st ++ extra)%list /\
    forallb (about_channel ch) extra = true.

Lemma addresses_silent (ch : Z) {A} (c : M (state T) A) :
  (forall st, sent (fst (c st)) = sent st) -> addresses ch c.
Proof.
  intros H st. exists []. rewrite app_nil_r. split; [apply H | reflexivity].
Qed.

Lemma addresses_bind (ch : Z) {A B} (c : M (state T) A)
    (k : A -> M (state T) B) :
  addresses ch c -> (forall a, addresses ch (k a)) ->
  addresses ch (bind c k).
Proof.
  intros Hc Hk st. unfold bind. destruct (Hc st) as (e1 & H1 & F1).
  destruct (c st) as [s1 [a | e]]; simpl in *.
  - destruct (Hk a s1) as (e2 & H2 & F2). exists (e1 ++ e2)%list.
    rewrite H2, H1, app_assoc, forallb_app, F1, F2. split; reflexivity.
  - exists e1. split; assumption.
Qed.

Lemma addresses_for_each (ch : Z) {A} (xs : list A)
    (body : A -> M (state T) unit) :
  (forall x, addresses ch (body x)) -> addresses ch (for_each xs body).
Proof.
  intros Hb. induction xs as [| x rest IH]; simpl.
  - apply addresses_silent. reflexivity.
  - apply addresses_bind; [apply Hb | intros _; exact IH].
Qed.

Lemma addresses_ask_raw (ch : Z) (req : request) :
  about_channel ch req = true -> addresses ch (ask_raw respond req).
Proof.
  intros H st. exists [req]. unfold ask_raw.
  destruct (respond (wire st) req) as [w r]. simpl. rewrite H.
  split; reflexivity.
Qed.

Lemma addresses_set_step (ch : Z) (s : option Q) :
  addresses ch (@set_step T s).
Proof.
  apply addresses_silent. intros st. unfold set_step.
  destruct s as [x |]; [| reflexivity].
  destruct (Qeq_bool x 0); [reflexivity |].
  destruct (Qle_bool x 0); reflexivity.
Qed.

Lemma addresses_set_inter_delay (ch : Z) (d : Q) :
  addresses ch (@set_inter_delay T d).
Proof.
  apply addresses_silent. intros st. unfold set_inter_delay.
  destruct (Qle_bool 0 d); reflexivity.
Qed.

Let own : Z := channel_number self.

Lemma addresses_ask (req : request) :
  about_channel own req = true -> addresses own (ask respond req).
Proof.
  intros H. unfold ask. apply addresses_bind.
  - apply addresses_ask_raw. exact H.
  - intros _. apply addresses_silent. reflexivity.
Qed.

Lemma addresses_get_voltage : addresses own (_get_voltage respond self).
Proof.
  unfold _get_voltage. apply addresses_bind.
  - apply addresses_ask_raw. apply Z.eqb_refl.
  - intros r. apply addresses_bind; intros;
      apply addresses_silent; reflexivity.
Qed.

Lemma addresses_set_voltage (v : Q) :
  addresses own (_set_voltage respond self v).
Proof.
  unfold _set_voltage.
  destruct (Qeq_bool (2 * voltage_range (parent self)) 0).
  - apply addresses_silent. reflexivity.
  - apply addresses_bind.
    + apply addresses_ask_raw. apply Z.eqb_refl.
    + intros r. destruct (negb (reply_eqb r acknowledge_reply));
        apply addresses_silent; reflexivity.
Qed.

Lemma addresses_voltage_get : addresses own (voltage_get respond self).
Proof.
  unfold voltage_get. apply addresses_bind; [apply addresses_get_voltage |].
  intros v. apply addresses_bind; intros;
    apply addresses_silent; reflexivity.
Qed.

Lemma addresses_get_ramp_values (v : Q) :
  addresses own (get_ramp_values respond self v).
Proof.
  unfold get_ramp_values.
  apply addresses_bind; [apply addresses_silent; reflexivity |].
  intros [stp |]; [| apply addresses_silent; reflexivity].
  apply addresses_bind; [apply addresses_silent; reflexivity |].
  intros c. apply addresses_bind.
  - destruct c; [apply addresses_silent; reflexivity |].
    apply addresses_voltage_get.
  - intros. apply addresses_silent. reflexivity.
Qed.

Lemma addresses_voltage_set (v : Q) :
  addresses own (voltage_set respond self v).
Proof.
  unfold voltage_set.
  apply addresses_bind; [apply addresses_silent; reflexivity | intros _].
  apply addresses_bind; [apply addresses_get_ramp_values | intros steps].
  apply addresses_for_each. intros x.
  apply addresses_bind; [apply addresses_silent; reflexivity | intros _].
  apply addresses_bind; [apply addresses_set_voltage | intros _].
  apply addresses_silent. reflexivity.
Qed.

Lemma addresses_ramp (ramp_to stp delay : Q) :
  addresses own (ramp respond self ramp_to stp delay).
Proof.
  unfold ramp.
  apply addresses_bind; [apply addresses_silent; reflexivity | intros s0].
  apply addresses_bind; [apply addresses_silent; reflexivity | intros d0].
  apply addresses_bind; [apply addresses_set_step | intros _].
  apply addresses_bind; [apply addresses_set_inter_delay | intros _].
  apply addresses_bind; [apply addresses_ask; apply Z.eqb_refl | intros _].
  apply addresses_bind; [apply addresses_voltage_set | intros _].
  apply addresses_bind; [apply addresses_ask; apply Z.eqb_refl | intros _].
  apply addresses_bind; [apply addresses_set_step | intros _].
  apply addresses_set_inter_delay.
Qed.

End OwnChannel.

(** Property X3.  Whatever the transport does and whether they return or
    raise, the three operations of a channel (reading its voltage,
    setting it, ramping it) keep the texts written before and add only
    texts that address the channel's own number. *)
Theorem channel_writes_to_itself
    (T : Type) (respond : T -> request -> T * outcome reply)
    (self : StahlChannel) (st : state T) (v stp delay : Q) :
  (exists extra,
     sent (fst (voltage_get respond self st)) = (sent st ++ extra)%list /\
     forallb (about_channel (channel_number self)) extra = true) /\
  (exists extra,
     sent (fst (voltage_set respond self v st)) = (sent st ++ extra)%list /\
     forallb (about_channel (channel_number self)) extra = true) /\
  (exists extra,
     sent (fst (ramp respond self v stp delay st))
       = (sent st ++ extra)%list /\
     forallb (about_channel (channel_number self)) extra = true).
Proof.
  split; [| split].
  - apply (addresses_voltage_get T respond self st).
  - apply (addresses_voltage_set T respond self v st).
  - apply (addresses_ramp T respond self v stp delay st).
Qed.

(** *** Reading the voltage *)



(** *** Codes and voltages, interval to interval *)

Lemma encode_in_unit (self : StahlChannel) (v : Q) :
  (0 < voltage_range (parent self))%Q ->
  (- voltage_range (parent self) <= v)%Q ->
  (v <= voltage_range (parent self))%Q ->
  (0 <= encode_voltage self v)%Q /\ (encode_voltage self v <= 1)%Q.
Proof.
  intros HR Hlo Hhi. rewrite encode_voltage_eq.
  set (R := voltage_range (parent self)) in *.
  assert (H2R : (0 < 2 * R)%Q) by lra.
  assert (Hd1 : (- (1 # 2) <= v / (2 * R))%Q).
  { apply Qle_shift_div_l; [exact H2R | lra]. }
  assert (Hd2 : (v / (2 * R) <= 1 # 2)%Q).
  { apply Qle_shift_div_r; [exact H2R | lra]. }
  split; lra.
Qed.

(** A voltage within the range of the device is written as a code
    between 0.000000 and 1.000000. *)
Theorem code_within_unit_interval (self : StahlChannel) (v : Q) :
  (0 < voltage_range (parent self))%Q ->
  (- voltage_range (parent self) <= v)%Q ->
  (v <= voltage_range (parent self))%Q ->
  (0 <= format_f 6 (encode_voltage self v) <= 1000000)%Z.
Proof.
  intros HR Hlo Hhi.
  destruct (encode_in_unit self v HR Hlo Hhi) as [H0 H1].
  set (x := encode_voltage self v) in *.
  pose proof (pow10_pos 6) as Hp. unfold format_f. split.
  - apply round_half_even_lower. change (inject_Z 0) with 0%Q.
    apply Qmult_le_0_compat; [exact H0 | lra].
  - apply round_half_even_upper.
    change (inject_Z 1000000) with (pow10 6).
    setoid_replace (pow10 6) with (1 * pow10 6)%Q at 2 by ring.
    apply Qmult_le_compat_r; [exact H1 | lra].
Qed.

Lemma code_within_unit_interval_witness :
  ((0 < voltage_range (parent ch01))%Q /\
   (- voltage_range (parent ch01) <= -200)%Q /\
   (-200 <= voltage_range (parent ch01))%Q) /\
  (0 <= format_f 6 (encode_voltage ch01 (-200)) <= 1000000)%Z.
Proof.
  assert (H1 : (0 < voltage_range (parent ch01))%Q) by (cbv; reflexivity).
  assert (H2 : (- voltage_range (parent ch01) <= -200)%Q)
    by (cbv; discriminate).
  assert (H3 : (-200 <= voltage_range (parent ch01))%Q)
    by (cbv; discriminate).
  split; [split; [exact H1 | split; [exact H2 | exact H3]] |].
  exact (code_within_unit_interval ch01 (-200) H1 H2 H3).
Defined.

(** Property X6.  On a device whose range is a whole number of volts,
    every code between 0.000000 and 1.000000 reads as a voltage within
    the range. *)
Theorem decode_within_range (self : StahlChannel) (n m : Z) :
  (voltage_range (parent self) == inject_Z n)%Q -> (0 <= n)%Z ->
  (0 <= m <= 1000000)%Z ->
  (- voltage_range (parent self) <= decode_voltage self (of_fixed 6 m))%Q /\
  (decode_voltage self (of_fixed 6 m) <= voltage_range (parent self))%Q.
Proof.
  intros HR Hn [Hm0 Hm1]. rewrite decode_voltage_eq.
  set (R := voltage_range (parent self)) in *.
  pose proof (pow10_pos 6) as Hp.
  assert (HR0 : (0 <= R)%Q).
  { rewrite HR. change 0%Q with (inject_Z 0). rewrite <- Zle_Qle. exact Hn. }
  assert (Ha0 : (0 <= of_fixed 6 m)%Q).
  { unfold of_fixed. apply Qle_shift_div_l; [exact Hp |].
    rewrite Qmult_0_l. change 0%Q with (inject_Z 0).
    rewrite <- Zle_Qle. exact Hm0. }
  assert (Ha1 : (of_fixed 6 m <= 1)%Q).
  { unfold of_fixed. apply Qle_shift_div_r; [exact Hp |].
    rewrite Qmult_1_l. change (pow10 6) with (inject_Z 1000000).
    rewrite <- Zle_Qle. exact Hm1. }
  set (a := of_fixed 6 m) in *.
  assert (Hup : (0 <= (2 - 2 * a) * R)%Q)
    by (apply Qmult_le_0_compat; lra).
  assert (Hdn : (0 <= (2 * a) * R)%Q)
    by (apply Qmult_le_0_compat; lra).
  assert (Ey : ((a - (1 # 2)) * 2 * R == (2 * a) * R - R)%Q) by ring.
  assert (Ey' : ((2 - 2 * a) * R == R - ((2 * a) * R - R))%Q) by ring.
  set (y := ((a - (1 # 2)) * 2 * R)%Q) in *.
  assert (Hy : (- R <= y)%Q /\ (y <= R)%Q).
  { rewrite Ey' in Hup. rewrite Ey. split; lra. }
  destruct Hy as [Hy0 Hy1].
  assert (Hg : (R * pow10 6 == inject_Z (n * 1000000))%Q).
  { rewrite HR, inject_Z_mult. reflexivity. }
  assert (Hg' : (- R * pow10 6 == inject_Z (- (n * 1000000)))%Q).
  { rewrite inject_Z_opp, <- Hg. ring. }
  split.
  - exact (written_lower_at 6 _ (- R) y Hg' Hy0).
  - exact (written_upper_at 6 _ R y Hg Hy1).
Qed.

Lemma decode_within_range_witness :
  ((voltage_range (parent ch01) == inject_Z 200)%Q /\ (0 <= 200)%Z /\
   (0 <= 1000000 <= 1000000)%Z) /\
  (decode_voltage ch01 (of_fixed 6 1000000) <= voltage_range (parent ch01))%Q.
Proof.
  assert (H1 : (voltage_range (parent ch01) == inject_Z 200)%Q)
    by reflexivity.
  assert (H2 : (0 <= 200)%Z) by lia.
  assert (H3 : (0 <= 1000000 <= 1000000)%Z) by lia.
  split; [split; [exact H1 | split; [exact H2 | exact H3]] |].
  exact (proj2 (decode_within_range ch01 200 1000000 H1 H2 H3)).
Defined.

(** *** More on the identity reply *)

Lemma output_type_of_variant (v : variant) :
  output_type_get (variant_code v) = Some (variant_name v).
Proof. destruct v; reflexivity. Qed.

Lemma parse_at_match (s : string) (p : prefix) (serial range chans : Z)
    (v : variant) :
  fields_ok serial range chans ->
  search s = Some (prefix_text p, zero_pad 3 serial, zero_pad 3 range,
                   zero_pad 2 chans, variant_code v) ->
  parse_idn_string s = Return (info_of p serial range chans v).
Proof.
  intros (Hs & Hr & Hc) E. unfold parse_idn_string, info_of. rewrite E.
  destruct (pad3_ok range Hr) as (_ & _ & ->).
  destruct (pad2_ok chans Hc) as (_ & _ & ->).
  rewrite output_type_of_variant. reflexivity.
Qed.

Lemma parse_sound (s : string) (info : idn_info) :
  parse_idn_string s = Return info ->
  exists pre p serial range chans v post,
    fields_ok serial range chans /\
    s = pre ++ render_idn_then p serial range chans v post /\
    info = info_of p serial range chans v.
Proof.
  unfold parse_idn_string. intros H.
  destruct (search s) as [[[[[g1 g2] g3] g4] g5] |] eqn:E; [| discriminate].
  destruct (search_sound s _ E) as (pre & rest & -> & Hm).
  destruct (match_here_sound _ _ _ _ _ _ Hm)
    as (p & serial & range & chans & v & post & Hok & -> & -> & -> & ->
        & -> & ->).
  exists pre, p, serial, range, chans, v, post.
  split; [exact Hok |]. split; [reflexivity |].
  destruct Hok as (Hs & Hr & Hc).
  destruct (pad3_ok range Hr) as (_ & _ & Er).
  destruct (pad2_ok chans Hc) as (_ & _ & Ec).
  rewrite Er, Ec, output_type_of_variant in H.
  inversion H. reflexivity.
Qed.

Lemma search_complete (pre rest : string) g :
  match_here rest = Some g -> exists g', search (pre ++ rest) = Some g'.
Proof.
  intros H. induction pre as [| c pre IH].
  - exists g. apply search_here. exact H.
  - change (String c pre ++ rest) with (String c (pre ++ rest)).
    cbn [search]. destruct (match_here (String c (pre ++ rest))) as [g1 |].
    + exists g1. reflexivity.
    + exact IH.
Qed.

(** Property X7.  [parse_idn_string] returns exactly on the texts in
    which a well-formed reply occurs, and what it returns are the fields
    of such a reply: the model is HV or BS, the range is a whole number
    below 1000, the channel count is below 100, and the output type is
    one of the five names, never [None]. *)
Theorem parse_idn_string_returns_fields (s : string) :
  ((exists info, parse_idn_string s = Return info) <-> matches_pattern s) /\
  (forall info,
     parse_idn_string s = Return info ->
     exists p serial range chans v,
       fields_ok serial range chans /\
       info = info_of p serial range chans v).
Proof.
  split; [split |].
  - intros [info H].
    destruct (parse_sound s info H)
      as (pre & p & serial & range & chans & v & post & Hok & E & _).
    exists pre, p, serial, range, chans, v, post. split; assumption.
  - intros (pre & p & serial & range & chans & v & post & Hok & ->).
    destruct (search_complete pre _ _
                (match_here_render p serial range chans v post Hok))
      as [g' Hg]. unfold parse_idn_string. rewrite Hg.
    destruct g' as [[[[g1 g2] g3] g4] g5]. eexists. reflexivity.
  - intros info H.
    destruct (parse_sound s info H)
      as (pre & p & serial & range & chans & v & post & Hok & _ & E).
    exists p, serial, range, chans, v. split; assumption.
Qed.

Lemma match_here_needs_H_or_B (c : ascii) (rest : string) :
  not_H_nor_B c = true -> match_here (String c rest) = None.
Proof.
  unfold not_H_nor_B. intros H. apply negb_true_iff in H.
  apply orb_false_iff in H as [HH HB].
  unfold match_here, alt. cbn [lit].
  rewrite Ascii.eqb_sym in HH. rewrite Ascii.eqb_sym in HB.
  rewrite HH, HB. reflexivity.
Qed.

(** Property X8.  Text after the reply never disturbs the parse, and
    text before it does not as long as it holds neither [H] nor [B]: the
    fields returned are those of the reply. *)
Theorem parse_idn_string_skips_junk
    (pre post : string) (p : prefix) (serial range chans : Z) (v : variant) :
  fields_ok serial range chans ->
  all_chars not_H_nor_B pre = true ->
  parse_idn_string (pre ++ render_idn_then p serial range chans v post) =
  Return (info_of p serial range chans v).
Proof.
  intros Hok Hpre. apply parse_at_match; [exact Hok |].
  induction pre as [| c pre IH].
  - apply search_here. apply match_here_render. exact Hok.
  - cbn [all_chars] in Hpre. apply andb_true_iff in Hpre as [Hc Hrest].
    change (String c pre ++ ?r) with (String c (pre ++ r)).
    cbn [search]. rewrite (match_here_needs_H_or_B c _ Hc).
    exact (IH Hrest).
Qed.

Lemma parse_idn_string_skips_junk_witness :
  (fields_ok 48 10 16 /\ all_chars not_H_nor_B ">> " = true) /\
  parse_idn_string ">> BS048 010 16 m <<" =
  Return (info_of BS 48 10 16 BipolarMillivolt).
Proof.
  assert (Hok : fields_ok 48 10 16) by (unfold fields_ok; lia).
  assert (Hpre : all_chars not_H_nor_B ">> " = true) by reflexivity.
  split; [split; assumption |].
  exact (parse_idn_string_skips_junk ">> " " <<" BS 48 10 16
           BipolarMillivolt Hok Hpre).
Defined.

Lemma parse_idn_string_returns_fields_witness :
  parse_idn_string "HV324 200 08 b" = Return hv324 /\
  exists p serial range chans v,
    fields_ok serial range chans /\ hv324 = info_of p serial range chans v.
Proof.
  assert (E : parse_idn_string "HV324 200 08 b" = Return hv324)
    by reflexivity.
  split; [exact E |].
  exact (proj2 (parse_idn_string_returns_fields "HV324 200 08 b") hv324 E).
Defined.

(** Property X9.  A reply that reports a range of 000 V is accepted, and
    no channel built on it can be set: the encoding divides by the range
    before anything is written. *)
Theorem range_zero_accepted_never_set
    (p : prefix) (serial chans : Z) (v : variant)
    (name : string) (number : Z)
    (T : Type) (respond : T -> request -> T * outcome reply)
    (voltage : Q) (st : state T) :
  fields_ok serial 0 chans ->
  exists info,
    parse_idn_string (render_idn p serial 0 chans v) = Return info /\
    _set_voltage respond
      {| parent := info; ch_name := name; channel_number := number |}
      voltage st
    = (st, Raise ZeroDivisionError).
Proof.
  intros Hok. exists (info_of p serial 0 chans v). split.
  - apply parse_at_match; [exact Hok |].
    apply search_here. unfold render_idn.
    apply match_here_render. exact Hok.
  - reflexivity.
Qed.

Lemma range_zero_accepted_never_set_witness :
  fields_ok 324 0 8 /\
  parse_idn_string "HV324 000 08 b" = Return (info_of HV 324 0 8 Bipolar) /\
  _set_voltage script_respond
    {| parent := info_of HV 324 0 8 Bipolar; ch_name := "ch01";
       channel_number := 1 |} 1 (fresh [Return Ack])
  = (fresh [Return Ack], Raise ZeroDivisionError).
Proof.
  assert (Hok : fields_ok 324 0 8) by (unfold fields_ok; lia).
  split; [exact Hok |].
  destruct (range_zero_accepted_never_set HV 324 8 Bipolar "ch01" 1
              script_wire script_respond 1 (fresh [Return Ack]) Hok)
    as (info & Hp & Hs).
  assert (E : info = info_of HV 324 0 8 Bipolar).
  { change (parse_idn_string (render_idn HV 324 0 8 Bipolar))
      with (Return (info_of HV 324 0 8 Bipolar)) in Hp.
    inversion Hp. reflexivity. }
  subst info. split; [reflexivity | exact Hs].
Defined.

(** *** [HV324.__init__] *)

Section Init.

Variable T : Type.
Variable respond : T -> request -> T * outcome reply.

Lemma ask_raw_sent (req : request) (st : state T) :
  sent (fst (ask_raw respond req st)) = (sent st ++ [req])%list.
Proof.
  unfold ask_raw. destruct (respond (wire st) req). reflexivity.
Qed.

Lemma ask_sent (req : request) (st : state T) :
  sent (fst (ask respond req st)) = (sent st ++ [req])%list.
Proof.
  unfold ask, bind. pose proof (ask_raw_sent req st) as H.
  destruct (ask_raw respond req st) as [s1 [r | e]]; exact H.
Qed.

Lemma build_channels_built (info : idn_info)
    (ch_names : option (list (Z * string))) (numbers : list Z)
    (attached : list string) (st st' : state T)
    (built : list StahlChannel * list string) :
  build_channels respond info ch_names numbers attached st
    = (st', Return built) ->
  sent st' = (sent st ++ map (label_for ch_names) numbers)%list /\
  fst built = map (channel_for info ch_names) numbers /\
  snd built = (attached ++ map (channel_name ch_names) numbers)%list.
Proof.
  revert attached st built.
  induction numbers as [| k rest IH]; intros attached st built.
  - simpl. intros H. inversion H; subst. simpl.
    rewrite !app_nil_r. repeat split; reflexivity.
  - cbn [build_channels]. rewrite StahlChannel_init_eq.
    destruct (valid_module_name (channel_name ch_names k));
      [| cbv [snd lift bind]; discriminate].
    cbv [snd lift bind]. fold (@bind (state T)).
    destruct (add_submodule attached (channel_name ch_names k))
      as [attached' | e] eqn:Ea; [| discriminate].
    pose proof (ask_sent (ReqDISLabel k (channel_name ch_names k)) st) as Hs.
    destruct (ask respond _ st) as [s1 [[] | e]]; [| discriminate].
    destruct (build_channels respond info ch_names rest attached' s1)
      as [s2 [cs | e]] eqn:E; [| discriminate].
    intros H. inversion H; subst. destruct (IH _ _ _ E) as (H1 & H2 & H3).
    unfold add_submodule in Ea.
    destruct (existsb (String.eqb (channel_name ch_names k)) attached);
      [discriminate |]. inversion Ea; subst attached'.
    destruct cs as [c1 c2]. simpl in *. split; [| split].
    + rewrite H1, Hs, <- app_assoc. reflexivity.
    + rewrite H2. reflexivity.
    + rewrite H3, <- app_assoc. reflexivity.
Qed.

(** Property X10.  When [HV324.__init__] returns, it has written the
    identity query, the display switch, and one label per channel in
    channel order, nothing else; and the channels it built are those
    numbered [1 .. n_channels], each named by [ch_names] or else
    ["chNN"], each holding the identity just parsed. *)
Theorem HV324_init_builds (ch_names : option (list (Z * string)))
    (st st' : state T) (info : idn_info) (channels : list StahlChannel) :
  HV324_init respond ch_names st = (st', Return (info, channels)) ->
  sent st' =
    (sent st ++ ReqIDN :: ReqDISAuto
       :: map (label_for ch_names) (range1 (n_channels info)))%list /\
  channels = map (channel_for info ch_names) (range1 (n_channels info)) /\
  (exists r, snd (respond (wire st) ReqIDN) = Return r /\
             idn_of_reply r = Return info).
Proof.
  unfold HV324_init. cbv [bind]. fold (@bind (state T)).
  pose proof (ask_raw_sent ReqIDN st) as H0.
  assert (Hr : snd (ask_raw respond ReqIDN st)
               = snd (respond (wire st) ReqIDN)).
  { unfold ask_raw. destruct (respond (wire st) ReqIDN). reflexivity. }
  destruct (ask_raw respond ReqIDN st) as [s1 [r | e]]; [| discriminate].
  cbv [lift]. destruct (idn_of_reply r) as [i | e] eqn:Ei; [| discriminate].
  pose proof (ask_sent ReqDISAuto s1) as H1.
  destruct (ask respond ReqDISAuto s1) as [s2 [[] | e]]; [| discriminate].
  destruct (build_channels respond i ch_names (range1 (n_channels i)) [] s2)
    as [s3 [built | e]] eqn:E; [| discriminate].
  destruct (add_submodule (snd built) "channel") as [names | e];
    [| discriminate].
  cbv [ret]. intros H. inversion H; subst.
  destruct (build_channels_built _ _ _ _ _ _ _ E) as (Hs & Hb & _).
  simpl in H0, H1, Hr. rewrite Hs, H1, H0, <- !app_assoc.
  split; [reflexivity |]. split; [exact Hb |].
  exists r. split; [symmetry; exact Hr | exact Ei].
Qed.

(** Property X11.  When the identity reply is not recognised,
    [HV324.__init__] raises the fatal error having written the identity
    query and nothing else. *)
Theorem HV324_init_unrecognised (ch_names : option (list (Z * string)))
    (st : state T) (w : T) (r : reply) :
  respond (wire st) ReqIDN = (w, Return r) ->
  (forall s, r = Text s -> ~ matches_pattern s) ->
  HV324_init respond ch_names st =
  ({| wire := w; sent := (sent st ++ [ReqIDN])%list; step := step st;
      inter_delay := inter_delay st; cache := cache st;
      warnings := warnings st |},
   Raise RuntimeError).
Proof.
  intros Hr Hno. unfold HV324_init. cbv [bind ask_raw]. rewrite Hr.
  cbv [lift].
  assert (E : idn_of_reply r = Raise RuntimeError).
  { destruct r as [| m | s]; try reflexivity.
    unfold idn_of_reply, parse_idn_string.
    destruct (search s) as [g |] eqn:Es; [| reflexivity].
    exfalso. apply (Hno s eq_refl). exact (search_matches_pattern s g Es). }
  rewrite E. reflexivity.
Qed.

End Init.

Lemma HV324_init_builds_witness :
  exists st',
    HV324_init script_respond (Some [(2, "gate")]%Z)
      (fresh [Return (Text "HV324 200 02 b"); Return Ack; Return Ack;
              Return Ack])
    = (st', Return (info_of HV 324 200 2 Bipolar,
                    [channel_for (info_of HV 324 200 2 Bipolar) None 1;
                     {| parent := info_of HV 324 200 2 Bipolar;
                        ch_name := "gate"; channel_number := 2 |}])) /\
    sent st' = [ReqIDN; ReqDISAuto; ReqDISLabel 1 "ch01";
                ReqDISLabel 2 "gate"].
Proof.
  eexists. split; [vm_compute; reflexivity |].
  match goal with
  | |- sent ?s = _ =>
      exact (proj1 (HV324_init_builds script_wire script_respond
                      (Some [(2, "gate")]%Z)
                      (fresh [Return (Text "HV324 200 02 b"); Return Ack;
                              Return Ack; Return Ack])
                      s _ _ eq_refl))
  end.
Defined.

Lemma HV324_init_unrecognised_witness :
  (forall s, Text "HV324 200 08" = Text s -> ~ matches_pattern s) /\
  HV324_init script_respond None (fresh [Return (Text "HV324 200 08")])
  = ({| wire := []; sent := [ReqIDN]; step := None; inter_delay := 0;
        cache := None; warnings := [] |}, Raise RuntimeError).
Proof.
  assert (H : forall s, Text "HV324 200 08" = Text s -> ~ matches_pattern s).
  { intros s E. inversion E; subst s.
    exact (no_variant_no_match HV 324 200 8). }
  split; [exact H |].
  exact (HV324_init_unrecognised script_wire script_respond None
           (fresh [Return (Text "HV324 200 08")]) []
           (Text "HV324 200 08") eq_refl H).
Defined.

(** *** Construction with the default names *)

Lemma existsb_eqb_In (x : string) (l : list string) :
  existsb (String.eqb x) l = false <-> ~ In x l.
Proof.
  split.
  - intros H Hin. assert (E : existsb (String.eqb x) l = true).
    { apply existsb_exists. exists x. split; [exact Hin |].
      apply String.eqb_refl. }
    congruence.
  - intros H. destruct (existsb (String.eqb x) l) eqn:E; [| reflexivity].
    apply existsb_exists in E as (y & Hy & Exy).
    apply String.eqb_eq in Exy. subst y. contradiction.
Qed.

Lemma distinct_NoDup (l : list string) : distinct l = true -> NoDup l.
Proof.
  induction l as [| x rest IH]; simpl; intros H; [constructor |].
  apply andb_true_iff in H as [Hx Hr]. apply negb_true_iff in Hx.
  constructor; [apply existsb_eqb_In; exact Hx | exact (IH Hr)].
Qed.

Lemma range1_prefix (n : Z) :
  (n < 100)%Z -> exists tail, range1 99 = (range1 n ++ tail)%list.
Proof.
  intros Hn. unfold range1.
  exists (map (fun i => Z.of_nat i)
              (seq (1 + Z.to_nat n) (99 - Z.to_nat n))).
  rewrite <- map_app, <- seq_app. f_equal. f_equal.
  change (Z.to_nat 99) with 99%nat. lia.
Qed.

(** The default names of up to 99 channels differ from one another. *)
Lemma default_names_distinct (n : Z) :
  (n < 100)%Z -> NoDup (map (channel_name None) (range1 n)).
Proof.
  intros Hn. destruct (range1_prefix n Hn) as [tail E].
  assert (H : NoDup (map (channel_name None) (range1 99)))
    by (apply distinct_NoDup; vm_compute; reflexivity).
  rewrite E, map_app in H. exact (NoDup_app_remove_r _ _ H).
Qed.

(** The default names are acceptable names of modules. *)
Lemma default_names_valid (n : Z) :
  (n < 100)%Z ->
  forallb valid_module_name (map (channel_name None) (range1 n)) = true.
Proof.
  intros Hn. destruct (range1_prefix n Hn) as [tail E].
  assert (H : forallb valid_module_name
                (map (channel_name None) (range1 99)) = true)
    by (vm_compute; reflexivity).
  rewrite E, map_app, forallb_app in H.
  apply andb_true_iff in H as [H _]. exact H.
Qed.

(** No default name is ["channel"], the name the list is attached
    under. *)
Lemma default_name_not_channel (k : Z) : channel_name None k <> "channel".
Proof.
  unfold channel_name, fmt02d.
  destruct (String.length (str k) <? 2)%nat.
  - simpl. discriminate.
  - simpl. intros E. inversion E as [E'].
    pose proof (int_str k) as H. rewrite E' in H. vm_compute in H.
    discriminate H.
Qed.

Section Answering.

Variable T : Type.
Variable respond : T -> request -> T * outcome reply.

(** The transport answers every text. *)
Hypothesis answers : forall w req, exists w' r, respond w req = (w', Return r).

Lemma ask_returns (req : request) (st : state T) :
  exists st', ask respond req st = (st', Return tt).
Proof.
  unfold ask, bind, ask_raw.
  destruct (answers (wire st) req) as (w' & r & E). rewrite E.
  eexists. reflexivity.
Qed.

Lemma build_channels_returns (info : idn_info)
    (ch_names : option (list (Z * string))) (numbers : list Z)
    (attached : list string) (st : state T) :
  forallb valid_module_name (map (channel_name ch_names) numbers) = true ->
  NoDup (attached ++ map (channel_name ch_names) numbers) ->
  exists st' built,
    build_channels respond info ch_names numbers attached st
      = (st', Return built).
Proof.
  revert attached st.
  induction numbers as [| k rest IH]; intros attached st Hv H.
  - eexists. eexists. reflexivity.
  - cbn [map forallb] in Hv. apply andb_true_iff in Hv as [Hk Hv].
    cbn [build_channels]. rewrite (StahlChannel_init_total _ _ _ Hk).
    cbv [snd lift bind]. fold (@bind (state T)).
    cbn [map] in H. pose proof (NoDup_remove_2 _ _ _ H) as Hnot.
    assert (Ea : add_submodule attached (channel_name ch_names k)
                 = Return (attached ++ [channel_name ch_names k])%list).
    { unfold add_submodule.
      assert (E : existsb (String.eqb (channel_name ch_names k)) attached
                  = false).
      { apply existsb_eqb_In. intros Hin. apply Hnot.
        apply in_or_app. left. exact Hin. }
      rewrite E. reflexivity. }
    rewrite Ea.
    destruct (ask_returns (ReqDISLabel k (channel_name ch_names k)) st)
      as [s1 E1]. rewrite E1.
    destruct (IH (attached ++ [channel_name ch_names k])%list s1 Hv)
      as (s2 & built & E2).
    { rewrite <- app_assoc. exact H. }
    rewrite E2. eexists. eexists. reflexivity.
Qed.

(** Property X12.  On a transport that answers every text, with an
    identity reply that is recognised and no names given,
    [HV324.__init__] returns: it builds channels [1 .. n_channels],
    named ["ch01"], ["ch02"], ... *)
Theorem HV324_init_default_names_returns
    (st : state T) (w : T) (s : string) (info : idn_info) :
  respond (wire st) ReqIDN = (w, Return (Text s)) ->
  parse_idn_string s = Return info ->
  exists st',
    HV324_init respond None st =
    (st', Return (info, map (channel_for info None)
                            (range1 (n_channels info)))).
Proof.
  intros Hr Hp.
  assert (Hn : (n_channels info < 100)%Z).
  { destruct (parse_sound s info Hp)
      as (_ & p & serial & range & chans & v & _ & (_ & _ & Hc) & _ & ->).
    simpl. lia. }
  unfold HV324_init. cbv [bind ask_raw]. rewrite Hr.
  cbv [lift idn_of_reply]. rewrite Hp. fold (@bind (state T)).
  match goal with
  | |- context [ask respond ReqDISAuto ?s0] =>
      destruct (ask_returns ReqDISAuto s0) as [s1 E1]; rewrite E1
  end.
  destruct (build_channels_returns info None (range1 (n_channels info))
              [] s1 (default_names_valid _ Hn) (default_names_distinct _ Hn))
    as (s2 & built & E2).
  unfold bind. rewrite E2.
  destruct (build_channels_built T respond _ _ _ _ _ _ _ E2)
    as (_ & Hb & Ha).
  assert (Ec : add_submodule (snd built) "channel"
               = Return (snd built ++ ["channel"])%list).
  { unfold add_submodule.
    assert (E : existsb (String.eqb "channel") (snd built) = false).
    { apply existsb_eqb_In. rewrite Ha. simpl. intros Hin.
      apply in_map_iff in Hin as (k & Ek & _).
      exact (default_name_not_channel k Ek). }
    rewrite E. reflexivity. }
  rewrite Ec. cbv [ret]. rewrite Hb. eexists. reflexivity.
Qed.

End Answering.

Lemma HV324_init_default_names_returns_witness :
  (forall w req, exists w' r, hv324_respond w req = (w', Return r)) /\
  exists st',
    HV324_init hv324_respond None (fresh tt) =
    (st', Return (hv324, map (channel_for hv324 None) (range1 8))).
Proof.
  assert (H : forall w req,
             exists w' r, hv324_respond w req = (w', Return r)).
  { intros w req. destruct req; eexists; eexists; reflexivity. }
  split; [exact H |].
  exact (HV324_init_default_names_returns unit hv324_respond H (fresh tt)
           tt "HV324 200 08 b" hv324 eq_refl eq_refl).
Defined.

End StahlMore.

(* ================================================================= *)
(** ** drivers/Anritsu/MS2830.py: a session on the sweep Parameters *)

Module MS2830More.
Import Py Py.Notations MS2830.

(** A call on the [start] and [stop] Parameters. *)
Inductive call : Type :=
  | SetStart (val : Q)
  | SetStop (val : Q)
  | GetStart
  | GetStop.

Section Session.

Variable settle : Q -> Q.

(** The driver's state after one call, whether it returned or raised. *)
Definition perform (c : call) (st : state) : state :=
  match c with
  | SetStart v => fst (_set_start settle v st)
  | SetStop v => fst (_set_stop settle v st)
  | GetStart => fst (start settle st)
  | GetStop => fst (stop settle st)
  end.

(** A caller that makes the calls one after the other and goes on
    after an exception. *)
Definition session (calls : list call) (st : state) : state :=
  fold_left (fun s c => perform c s) calls st.

(** What the calls may add to the log while the stop frequency is
    [limit]: queries, and start writes below the limit. *)
Definition allowed (limit : Q) (c : command) : Prop :=
  match c with
  | QueryStart | QueryStop => True
  | WriteStart v => (v < limit)%Q
  | WriteStop _ => False
  end.

Lemma perform_spec (c : call) (st : state) :
  dev_stop (dev (perform c st)) = dev_stop (dev st) /\
  exists sent,
    wire_log (perform c st) = (wire_log st ++ sent)%list /\
    Forall (allowed (dev_stop (dev st))) sent.
Proof.
  destruct st as [[ds dp] lg ws]. destruct c as [v | v | |];
    unfold perform, _set_start, _set_stop, start, stop;
    cbv [ask bind write send modify gets execute];
    cbn [dev wire_log warnings dev_stop dev_start].
  - destruct (Qle_bool dp v) eqn:E.
    + cbn. split; [reflexivity |]. exists [QueryStop].
      split; [reflexivity |]. repeat constructor.
    + assert (Hlt : (v < dp)%Q).
      { apply Qnot_le_lt. intros H. apply Qle_bool_iff in H. congruence. }
      destruct (Qle_bool 1 (Qabs (v - settle v))); cbn;
        (split; [reflexivity |]);
        exists [QueryStop; WriteStart v; QueryStart];
        (split; [rewrite <- !app_assoc; reflexivity |]);
        repeat constructor; exact Hlt.
  - destruct (Qle_bool v ds); cbn; (split; [reflexivity |]);
      exists [QueryStart]; (split; [reflexivity |]); repeat constructor.
  - cbn. split; [reflexivity |]. exists [QueryStart].
    split; [reflexivity |]. repeat constructor.
  - cbn. split; [reflexivity |]. exists [QueryStop].
    split; [reflexivity |]. repeat constructor.
Qed.

(** Property X14.  Whatever calls are made on [start] and [stop], in
    whatever order and with whatever values, the analyzer keeps the stop
    frequency it had: no stop write ever goes out, and every start write
    that goes out carries a value below that stop frequency. *)
Theorem session_never_moves_stop (calls : list call) (st : state) :
  dev_stop (dev (session calls st)) = dev_stop (dev st) /\
  exists sent,
    wire_log (session calls st) = (wire_log st ++ sent)%list /\
    Forall (allowed (dev_stop (dev st))) sent.
Proof.
  unfold session. revert st.
  induction calls as [| c rest IH]; intros st; cbn [fold_left].
  - split; [reflexivity |]. exists []. split; [| constructor].
    symmetry. apply app_nil_r.
  - destruct (perform_spec c st) as (Hs & sent1 & Hl1 & Hf1).
    destruct (IH (perform c st)) as (Hs' & sent2 & Hl2 & Hf2).
    split; [rewrite Hs'; exact Hs |].
    exists (sent1 ++ sent2)%list. split.
    + rewrite Hl2, Hl1, app_assoc. reflexivity.
    + apply Forall_app. split; [exact Hf1 |].
      rewrite Hs in Hf2. exact Hf2.
Qed.

End Session.

End MS2830More.

(* ================================================================= *)
(** ** drivers/BlueFors/BlueFors.py: what the getters read, and the
    status report *)

Module BlueForsMore.
Import Py Py.Notations PyFacts BlueFors.
Local Open Scope string_scope.

(** The channels given to [BlueFors.__init__]. *)
Record channels : Type := {
  channel_vacuum_can : Z;
  channel_pumping_line : Z;
  channel_compressor_outlet : Z;
  channel_compressor_inlet : Z;
  channel_mixture_tank : Z;
  channel_venting_line : Z;
  channel_50k_plate : Z;
  channel_4k_plate : Z;
  channel_still : Z;
  channel_mixing_chamber : Z;
  channel_cell : Z;
  channel_magnet : option Z
}.

(** The six gauges of the pressure log, in the order [status_api]
    reports them. *)
Definition gauges (c : channels) : list Z :=
  [channel_vacuum_can c; channel_pumping_line c;
   channel_compressor_outlet c; channel_compressor_inlet c;
   channel_mixture_tank c; channel_venting_line c].

(** The five thermometers [status_api] reports. *)
Definition thermometers (c : channels) : list Z :=
  [channel_50k_plate c; channel_4k_plate c; channel_still c;
   channel_mixing_chamber c; channel_cell c].

Section Driver.

Variable disk : string -> file.
Variable folder_name folder_path : string.
Variable reads_as_datetime : string -> row -> bool.

(** [str(x)] of the float a Parameter returned. *)
Variable str_float : cell -> string.

Variable c : channels.

(** [self.pressure_<place>()] and [self.temperature_<place>()]. *)
Definition pressure (channel : Z) : M (list message) cell :=
  parameter_get
    (get_pressure disk folder_name folder_path reads_as_datetime channel).

Definition temperature (channel : Z) : M (list message) cell :=
  parameter_get
    (get_temperature disk folder_name folder_path reads_as_datetime channel).

Definition rule : string := "--------------------------------------".

Definition newline : string := String (ascii_of_nat 10) EmptyString.

(** [status_api]: the operands of the concatenation are evaluated from
    left to right, so the eleven Parameters are read in the order they
    are written. *)
Definition status_api : M (list message) string :=
  p1 <- pressure (channel_vacuum_can c) ;;
  p2 <- pressure (channel_pumping_line c) ;;
  p3 <- pressure (channel_compressor_outlet c) ;;
  p4 <- pressure (channel_compressor_inlet c) ;;
  p5 <- pressure (channel_mixture_tank c) ;;
  p6 <- pressure (channel_venting_line c) ;;
  t1 <- temperature (channel_50k_plate c) ;;
  t2 <- temperature (channel_4k_plate c) ;;
  t3 <- temperature (channel_still c) ;;
  t4 <- temperature (channel_mixing_chamber c) ;;
  t5 <- temperature (channel_cell c) ;;
  ret (rule ++ newline ++
       "VC(P1) = " ++ str_float p1 ++ " mbar" ++ newline ++
       "DR out (P2) = " ++ str_float p2 ++ " mbar" ++ newline ++
       "DR in (P3) = " ++ str_float p3 ++ " mbar" ++ newline ++
       "CT in (P4) = " ++ str_float p4 ++ " mbar" ++ newline ++
       "He3 tank (P5) = " ++ str_float p5 ++ " mbar" ++ newline ++
       "GHS Manifold (P6) = " ++ str_float p6 ++ " mbar" ++ newline ++
       rule ++ newline ++
       "50K = " ++ str_float t1 ++ " K" ++ newline ++
       "4K = " ++ str_float t2 ++ " K" ++ newline ++
       "Still = " ++ str_float t3 ++ " K" ++ newline ++
       "MXC = " ++ str_float t4 ++ " K" ++ newline ++
       "Cell = " ++ str_float t5 ++ " K" ++ newline).

End Driver.

(** The report when every reading is [x]. *)
Definition report_of (str_float : cell -> string) (x : cell) : string :=
  rule ++ newline ++
  "VC(P1) = " ++ str_float x ++ " mbar" ++ newline ++
  "DR out (P2) = " ++ str_float x ++ " mbar" ++ newline ++
  "DR in (P3) = " ++ str_float x ++ " mbar" ++ newline ++
  "CT in (P4) = " ++ str_float x ++ " mbar" ++ newline ++
  "He3 tank (P5) = " ++ str_float x ++ " mbar" ++ newline ++
  "GHS Manifold (P6) = " ++ str_float x ++ " mbar" ++ newline ++
  rule ++ newline ++
  "50K = " ++ str_float x ++ " K" ++ newline ++
  "4K = " ++ str_float x ++ " K" ++ newline ++
  "Still = " ++ str_float x ++ " K" ++ newline ++
  "MXC = " ++ str_float x ++ " K" ++ newline ++
  "Cell = " ++ str_float x ++ " K" ++ newline.

(** Position of the pressure column of a gauge. *)
Definition pressure_position (channel : Z) : nat := Z.to_nat (6 * channel - 1).

(** A fridge with the gauges and thermometers on channels 1 to 6. *)
Definition fridge : channels :=
  {| channel_vacuum_can := 1; channel_pumping_line := 2;
     channel_compressor_outlet := 3; channel_compressor_inlet := 4;
     channel_mixture_tank := 5; channel_venting_line := 6;
     channel_50k_plate := 1; channel_4k_plate := 2;
     channel_still := 5; channel_mixing_chamber := 6;
     channel_cell := 3; channel_magnet := None |}.

(** The fridge above with the venting line on gauge 7. *)
Definition fridge_gauge_7 : channels :=
  {| channel_vacuum_can := 1; channel_pumping_line := 2;
     channel_compressor_outlet := 3; channel_compressor_inlet := 4;
     channel_mixture_tank := 5; channel_venting_line := 7;
     channel_50k_plate := 1; channel_4k_plate := 2;
     channel_still := 5; channel_mixing_chamber := 6;
     channel_cell := 3; channel_magnet := None |}.



(** *** The last line of the log *)

Lemma pressure_column_position (channel : Z) :
  (1 <= channel <= 6)%Z ->
  index_of (pressure_column channel) pressure_names
    = Some (pressure_position channel).
Proof.
  intros H.
  assert (E : (channel = 1 \/ channel = 2 \/ channel = 3 \/ channel = 4
               \/ channel = 5 \/ channel = 6)%Z) by lia.
  destruct E as [-> | [-> | [-> | [-> | [-> | ->]]]]]; reflexivity.
Qed.



(** *** A line whose time is cut *)









(** *** The status report *)

Section Report.

Variable disk : string -> file.
Variable folder_name folder_path : string.
Variable reads_as_datetime : string -> row -> bool.
Variable str_float : cell -> string.
Variable c : channels.

Lemma pressure_unavailable (channel : Z) (logged : list message) :
  unavailable (disk (pressure_path folder_name folder_path)) ->
  pressure disk folder_name folder_path reads_as_datetime channel logged
  = ((logged ++ [warning_for (disk (pressure_path folder_name folder_path))])
       %list, Return NaN).
Proof.
  intros H. unfold pressure, parameter_get, bind.
  rewrite (get_pressure_unavailable disk folder_name folder_path
             reads_as_datetime channel logged H).
  reflexivity.
Qed.

Lemma temperature_unavailable (channel : Z) (logged : list message) :
  unavailable (disk (temperature_path folder_name folder_path channel)) ->
  temperature disk folder_name folder_path reads_as_datetime channel logged
  = ((logged
      ++ [warning_for
            (disk (temperature_path folder_name folder_path channel))])
       %list, Return NaN).
Proof.
  intros H. unfold temperature, parameter_get, bind.
  rewrite (get_temperature_unavailable disk folder_name folder_path
             reads_as_datetime channel logged H).
  reflexivity.
Qed.

(** Property X17.  When the logs of the day are not there (no file, no
    access, or no line), [status_api] still returns its report: every
    one of the eleven readings is not-a-number, and eleven warnings are
    logged, six for the pressure log and then one for the log of each
    thermometer, in the order of the report. *)
Theorem status_api_without_logs (logged : list message) :
  unavailable (disk (pressure_path folder_name folder_path)) ->
  (forall channel, In channel (thermometers c) ->
   unavailable (disk (temperature_path folder_name folder_path channel))) ->
  status_api disk folder_name folder_path reads_as_datetime str_float c
    logged
  = ((logged
      ++ repeat (warning_for
                   (disk (pressure_path folder_name folder_path))) 6
      ++ map (fun channel =>
                warning_for
                  (disk (temperature_path folder_name folder_path channel)))
             (thermometers c))%list,
     Return (report_of str_float NaN)).
Proof.
  intros Hp Ht. unfold status_api.
  unfold bind at 1. rewrite (pressure_unavailable _ _ Hp).
  unfold bind at 1. rewrite (pressure_unavailable _ _ Hp).
  unfold bind at 1. rewrite (pressure_unavailable _ _ Hp).
  unfold bind at 1. rewrite (pressure_unavailable _ _ Hp).
  unfold bind at 1. rewrite (pressure_unavailable _ _ Hp).
  unfold bind at 1. rewrite (pressure_unavailable _ _ Hp).
  unfold thermometers in *.
  unfold bind at 1. rewrite temperature_unavailable
    by (apply Ht; simpl; tauto).
  unfold bind at 1. rewrite temperature_unavailable
    by (apply Ht; simpl; tauto).
  unfold bind at 1. rewrite temperature_unavailable
    by (apply Ht; simpl; tauto).
  unfold bind at 1. rewrite temperature_unavailable
    by (apply Ht; simpl; tauto).
  unfold bind at 1. rewrite temperature_unavailable
    by (apply Ht; simpl; tauto).
  unfold ret, report_of. cbn [repeat map].
  rewrite <- !app_assoc. reflexivity.
Qed.

Lemma pressure_on_table (rs : list row) (channel : Z)
    (logged : list message) :
  disk (pressure_path folder_name folder_path) = Table rs ->
  rs <> [] ->
  forallb (reads_as_datetime "%d-%m-%y-%H:%M:%S") rs = true ->
  let run :=
    pressure disk folder_name folder_path reads_as_datetime channel logged in
  (exists x, run = (logged, Return x) /\ (1 <= channel <= 6)%Z) \/
  run = (logged, Raise KeyError) \/
  run = (logged, Raise ValueError).
Proof.
  intros Hd Hne Hr run. subst run.
  unfold pressure, parameter_get, get_pressure, try_except, bind, lift.
  rewrite Hd. cbn [read_csv]. unfold to_datetime. cbn [rows].
  rewrite Hr. unfold iloc_last. cbn [rows].
  destruct (rev rs) as [| r rest] eqn:Er.
  { exfalso. apply Hne. apply (f_equal (@rev row)) in Er.
    rewrite rev_involutive in Er. exact Er. }
  unfold getitem. cbn [names].
  assert (Hc : (1 <= channel <= 6)%Z \/ ~ (1 <= channel <= 6)%Z) by lia.
  destruct Hc as [Hc | Hc].
  - rewrite (pressure_column_position channel Hc).
    destruct (nth (pressure_position channel) r NaN) as [q | s |];
      cbn [float].
    + left. eexists. split; [reflexivity | exact Hc].
    + right. right. reflexivity.
    + left. eexists. split; [reflexivity | exact Hc].
  - rewrite (pressure_column_absent channel Hc). right. left. reflexivity.
Qed.

(** One reading of the report: it returns, and then the gauge is one of
    1..6, or the report ends there. *)
Ltac next_gauge Hd Hne Hr G :=
  unfold bind at 1;
  match goal with
  | |- context [pressure ?d ?fn ?fp ?rd ?ch ?lg] =>
      destruct (pressure_on_table _ ch lg Hd Hne Hr)
        as [(? & -> & G) | [-> | ->]];
      [ | exists KeyError; split; [left | ]; reflexivity
        | exists ValueError; split; [right | ]; reflexivity ]
  end.

(** Property X18.  [BlueFors.__init__] takes any integer for a gauge.
    With one of the six outside 1..6 and a pressure log that has lines,
    [status_api] gives no report: it raises, the [KeyError] of the
    missing column or the [ValueError] of a field before it that is no
    number, and logs nothing. *)
Theorem status_api_unknown_gauge
    (channel : Z) (rs : list row) (logged : list message) :
  In channel (gauges c) ->
  ~ (1 <= channel <= 6)%Z ->
  disk (pressure_path folder_name folder_path) = Table rs ->
  rs <> [] ->
  forallb (reads_as_datetime "%d-%m-%y-%H:%M:%S") rs = true ->
  exists e,
    (e = KeyError \/ e = ValueError) /\
    status_api disk folder_name folder_path reads_as_datetime str_float c
      logged = (logged, Raise e).
Proof.
  intros Hin Hout Hd Hne Hr. unfold status_api.
  next_gauge Hd Hne Hr G1. next_gauge Hd Hne Hr G2.
  next_gauge Hd Hne Hr G3. next_gauge Hd Hne Hr G4.
  next_gauge Hd Hne Hr G5. next_gauge Hd Hne Hr G6.
  exfalso. unfold gauges in Hin. simpl in Hin.
  destruct Hin as [<- | [<- | [<- | [<- | [<- | [<- | []]]]]]];
    apply Hout; assumption.
Qed.

End Report.

(** The report with no log folder for the day. *)
Lemma status_api_without_logs_witness :
  unavailable Missing /\
  status_api (fun _ => Missing) "26-11-04" "/logs" (fun _ _ => true)
    (fun _ => "nan") fridge []
  = (repeat (CannotAccess FileNotFoundError) 11,
     Return (report_of (fun _ => "nan") NaN)).
Proof.
  assert (H : unavailable Missing) by (left; reflexivity).
  split; [exact H |].
  exact (status_api_without_logs (fun _ => Missing) "26-11-04" "/logs"
           (fun _ _ => true) (fun _ => "nan") fridge [] H (fun _ _ => H)).
Defined.

Lemma status_api_unknown_gauge_witness :
  (In 7%Z (gauges fridge_gauge_7) /\ ~ (1 <= 7 <= 6)%Z /\
   [gauge_line] <> []) /\
  exists e,
    (e = KeyError \/ e = ValueError) /\
    status_api (fun _ => Table [gauge_line]) "26-11-04" "/logs"
      (fun _ _ => true) (fun _ => "nan") fridge_gauge_7 []
    = ([], Raise e).
Proof.
  assert (H1 : In 7%Z (gauges fridge_gauge_7)) by (simpl; tauto).
  assert (H2 : ~ (1 <= 7 <= 6)%Z) by lia.
  assert (H3 : [gauge_line] <> []) by discriminate.
  split; [split; [exact H1 | split; [exact H2 | exact H3]] |].
  exact (status_api_unknown_gauge (fun _ => Table [gauge_line])
           "26-11-04" "/logs" (fun _ _ => true) (fun _ => "nan")
           fridge_gauge_7 7%Z [gauge_line] [] H1 H2 eq_refl H3 eq_refl).
Defined.

End BlueForsMore.

(* ================================================================= *)
(** ** drivers/Tektronix/AFG31000.py: construction *)

Module AFG31000More.
Import Py Py.Notations PyFacts AFG31000.
Local Open Scope string_scope.

(** [s[n:]]. *)
Fixpoint slice_from (n : nat) (s : string) : string :=
  match n, s with
  | O, _ => s
  | S n', String _ rest => slice_from n' rest
  | S _, EmptyString => EmptyString
  end.

(** [AFGChannel(self, ch_name, ch_num)]: the channel and the Parameters
    it registered, or the exception of its constructor. *)
Definition construct (init : M (list string) AFGChannel)
  : outcome (AFGChannel * list string) :=
  match init [] with
  | (registered, Return channel) => Return (channel, registered)
  | (_, Raise e) => Raise e
  end.

(** [self.add_submodule(ch_name, channel)] on the instrument, whose
    submodule names are the state. *)
Definition attach (ch_name : string) : M (list string) unit :=
  fun attached =>
    match add_submodule attached ch_name with
    | Return attached' => (attached', Return tt)
    | Raise e => (attached, Raise e)
    end.

(** The loop of [AFG31000.__init__] over the channel numbers. *)
Fixpoint build_channels (self : AFG31000) (numbers : list Z)
  : M (list string) (list (AFGChannel * list string)) :=
  match numbers with
  | [] => ret []
  | ch_num :: rest =>
      let ch_name := "ch" ++ str ch_num in
      channel <- lift (construct (AFGChannel_init self ch_name ch_num)) ;;
      attach ch_name ;;;
      built <- build_channels self rest ;;
      ret (channel :: built)
  end.

(** [AFG31000.__init__], given the [model] entry of [self.IDN()]. *)
Definition AFG31000_init (idn_model : string)
  : M (list string) (AFG31000 * list (AFGChannel * list string)) :=
  let self := {| model := slice_from 3 idn_model; num_channels := 2 |} in
  if negb (String.eqb (model self) "31252")
  then raise ValueError
  else
    built <- build_channels self (range1 (num_channels self)) ;;
    ret (self, built).

(** The Parameters of a channel, in the order they are registered. *)
Definition channel_parameters : list string :=
  ["state"; "amplitude"; "offset"; "type"; "pulse_period";
   "pulse_width"; "cw_freq"].

(** *** A channel built on its own *)

Lemma in_range1 (ch n : Z) :
  (1 <= ch <= n)%Z -> existsb (Z.eqb ch) (range1 n) = true.
Proof.
  intros H. apply existsb_exists. exists ch.
  split; [apply range1_bounds; exact H | apply Z.eqb_refl].
Qed.

(** Property X19.  For a channel with a number in range: a name that
    the base class refuses (one with a character that cannot stand in
    an identifier) raises [ValueError] with nothing registered; under
    an acceptable name the channel is built with its seven Parameters
    when the parent's model is 31252, and with any other model the
    constructor raises the [KeyError] of the amplitude table after
    [state] has been registered, leaving the channel with that one
    Parameter. *)
Theorem AFGChannel_init_by_model (p : AFG31000) (nm : string) (ch : Z) :
  (1 <= ch <= num_channels p)%Z ->
  (valid_module_name nm = false ->
   AFGChannel_init p nm ch [] = ([], Raise ValueError)) /\
  (valid_module_name nm = true -> model p = "31252" ->
   AFGChannel_init p nm ch [] =
   (channel_parameters,
    Return {| parent := p; name := nm; channel := ch |})) /\
  (valid_module_name nm = true -> model p <> "31252" ->
   AFGChannel_init p nm ch [] = (["state"], Raise KeyError)).
Proof.
  intros Hin. unfold AFGChannel_init, InstrumentChannel_init.
  rewrite (in_range1 ch (num_channels p) Hin). cbn [negb].
  split; [| split].
  - intros Hn. rewrite Hn. reflexivity.
  - intros Hn Hm. rewrite Hn. unfold _chan_amps. rewrite Hm. reflexivity.
  - intros Hn Hm. rewrite Hn. unfold _chan_amps.
    destruct (String.eqb (model p) "31252") eqn:E.
    + apply String.eqb_eq in E. contradiction.
    + reflexivity.
Qed.

(** Channel 2 of a generator of another model, and a channel whose name
    holds a blank. *)
Lemma AFGChannel_init_by_model_witness :
  (1 <= 2 <= 2)%Z /\
  AFGChannel_init {| model := "31102"; num_channels := 2 |} "ch2" 2 []
    = (["state"], Raise KeyError) /\
  AFGChannel_init afg31252 "ch 2" 2 [] = ([], Raise ValueError).
Proof.
  assert (H : (1 <= 2 <= num_channels
                 {| model := "31102"; num_channels := 2 |})%Z)
    by (simpl; lia).
  split; [exact H |]. split.
  - apply (proj2 (proj2 (AFGChannel_init_by_model
                           {| model := "31102"; num_channels := 2 |}
                           "ch2" 2%Z H))).
    + reflexivity.
    + discriminate.
  - exact (proj1 (AFGChannel_init_by_model afg31252 "ch 2" 2%Z H) eq_refl).
Defined.

(** *** The instrument *)

(** Property X20.  [AFG31000.__init__] looks at the identity's model
    from its fourth character on. When that is ["31252"], whatever the
    three characters before it, construction returns with channels 1 and
    2 attached as [ch1] and [ch2], each with its seven Parameters.
    Otherwise it raises [ValueError] with nothing attached. Neither the
    channel check nor the amplitude table of [AFGChannel] can fail on
    this path: no other exception comes out. *)
Theorem AFG31000_init_by_model (idn_model : string) :
  (slice_from 3 idn_model = "31252" ->
   AFG31000_init idn_model [] =
   (["ch1"; "ch2"],
    Return (afg31252,
            [({| parent := afg31252; name := "ch1"; channel := 1 |},
              channel_parameters);
             ({| parent := afg31252; name := "ch2"; channel := 2 |},
              channel_parameters)]))) /\
  (slice_from 3 idn_model <> "31252" ->
   AFG31000_init idn_model [] = ([], Raise ValueError)) /\
  (forall e, snd (AFG31000_init idn_model []) = Raise e -> e = ValueError).
Proof.
  assert (Hyes : slice_from 3 idn_model = "31252" ->
                 AFG31000_init idn_model [] =
                 (["ch1"; "ch2"],
                  Return (afg31252,
                    [({| parent := afg31252; name := "ch1"; channel := 1 |},
                      channel_parameters);
                     ({| parent := afg31252; name := "ch2"; channel := 2 |},
                      channel_parameters)]))).
  { intros E. unfold AFG31000_init. cbn [model num_channels].
    rewrite E. reflexivity. }
  assert (Hno : slice_from 3 idn_model <> "31252" ->
                AFG31000_init idn_model [] = ([], Raise ValueError)).
  { intros E. unfold AFG31000_init. cbn [model].
    destruct (String.eqb (slice_from 3 idn_model) "31252") eqn:Eq.
    - apply String.eqb_eq in Eq. contradiction.
    - reflexivity. }
  split; [exact Hyes |]. split; [exact Hno |].
  intros e He.
  destruct (string_dec (slice_from 3 idn_model) "31252") as [E | E].
  - rewrite (Hyes E) in He. discriminate He.
  - rewrite (Hno E) in He. cbn in He. congruence.
Qed.

(** The identity of an AFG31252, and one with other letters in front. *)
Lemma AFG31000_init_by_model_witness :
  (slice_from 3 "AFG31252" = "31252" /\
   fst (AFG31000_init "AFG31252" []) = ["ch1"; "ch2"]) /\
  (slice_from 3 "XYZ31252" = "31252" /\
   fst (AFG31000_init "XYZ31252" []) = ["ch1"; "ch2"]) /\
  (slice_from 3 "AFG31102" <> "31252" /\
   AFG31000_init "AFG31102" [] = ([], Raise ValueError)).
Proof.
  assert (H3 : slice_from 3 "AFG31102" <> "31252") by discriminate.
  split; [| split].
  - split; [reflexivity |].
    rewrite (proj1 (AFG31000_init_by_model "AFG31252") eq_refl).
    reflexivity.
  - split; [reflexivity |].
    rewrite (proj1 (AFG31000_init_by_model "XYZ31252") eq_refl).
    reflexivity.
  - split; [exact H3 |].
    exact (proj1 (proj2 (AFG31000_init_by_model "AFG31102")) H3).
Defined.

End AFG31000More.

(* ================================================================= *)
(** ** drivers/NF/LI5660.py and drivers/NF/LI5640.py: reading a reply
    of several values *)

Module NF.
Import Py Py.Notations.
Local Open Scope string_scope.

(** [s.split(sep)] for a separator of one character: the texts between
    the separators, one more than there are separators. *)
Fixpoint split (sep : ascii) (s : string) : list string :=
  match s with
  | EmptyString => [EmptyString]
  | String c rest =>
      if Ascii.eqb c sep then EmptyString :: split sep rest
      else match split sep rest with
           | field :: fields => String c field :: fields
           | [] => [String c EmptyString]
           end
  end.

(** [sep.join(fields)]. *)
Fixpoint join (sep : ascii) (fields : list string) : string :=
  match fields with
  | [] => EmptyString
  | [field] => field
  | field :: rest => field ++ String sep (join sep rest)
  end.

(** [l[i]] for [i >= 0]. *)
Definition item {A : Type} (l : list A) (i : nat) : outcome A :=
  match nth_error l i with
  | Some x => Return x
  | None => Raise IndexError
  end.

(** No character of the text is [sep]. *)
Fixpoint free_of (sep : ascii) (s : string) : bool :=
  match s with
  | EmptyString => true
  | String c rest => negb (Ascii.eqb c sep) && free_of sep rest
  end.

(** Python's white space among the ASCII characters. *)
Definition is_space (c : ascii) : bool :=
  let n := nat_of_ascii c in
  (n =? 32)%nat || ((9 <=? n)%nat && (n <=? 13)%nat)
  || ((28 <=? n)%nat && (n <=? 31)%nat).

(** [s.lstrip()], [s.rstrip()] and [s.strip()]. *)
Fixpoint lstrip (s : string) : string :=
  match s with
  | EmptyString => EmptyString
  | String c rest => if is_space c then lstrip rest else s
  end.

Fixpoint rstrip (s : string) : string :=
  match s with
  | EmptyString => EmptyString
  | String c rest =>
      match rstrip rest with
      | EmptyString => if is_space c then EmptyString
                       else String c EmptyString
      | kept => String c kept
      end
  end.

Definition strip (s : string) : string := rstrip (lstrip s).

Section Driver.

(** The transport: a text goes out, a reply or an exception comes
    back. *)
Variable T : Type.
Variable respond : T -> string -> T * outcome string.

(** [float(text)]. *)
Variable float : string -> outcome Q.

Record state : Type := {
  wire : T;
  sent : list string
}.

Definition ask_raw (cmd : string) : M state string :=
  fun st =>
    let (w, r) := respond (wire st) cmd in
    ({| wire := w; sent := (sent st ++ [cmd])%list |}, r).

(** [[float(val) for val in fields]]. *)
Fixpoint floats (fields : list string) : outcome (list Q) :=
  match fields with
  | [] => Return []
  | val :: rest =>
      match float val with
      | Raise e => Raise e
      | Return x =>
          match floats rest with
          | Raise e => Raise e
          | Return xs => Return (x :: xs)
          end
      end
  end.

(** LI5660 *)
Definition _fetch_data : M state (list Q) :=
  output <- ask_raw ":FETC?" ;;
  lift (floats (split "," output)).

Definition _fetch_R : M state Q :=
  output <- ask_raw ":FETC?" ;;
  field <- lift (item (split "," output) 0) ;;
  lift (float field).

Definition _fetch_T : M state Q :=
  output <- ask_raw ":FETC?" ;;
  field <- lift (item (split "," output) 1) ;;
  lift (float field).

Definition _fetch_X : M state Q :=
  output <- ask_raw ":FETC?" ;;
  field <- lift (item (split "," output) 2) ;;
  lift (float field).

Definition _fetch_Y : M state Q :=
  output <- ask_raw ":FETC?" ;;
  field <- lift (item (split "," output) 3) ;;
  lift (float field).

(** LI5640: [amp, range = map(str.strip, amp_string.split(','))]; the
    unpacking wants two fields exactly. *)
Definition get_amp : M state (string * string) :=
  amp_string <- ask_raw "AMPL?" ;;
  match map strip (split "," amp_string) with
  | [amp; range] => ret (amp, range)
  | _ => raise ValueError
  end.

End Driver.

Arguments wire {T} _.
Arguments sent {T} _.
Arguments ask_raw {T} respond cmd _.
Arguments _fetch_data {T} respond float _.
Arguments _fetch_R {T} respond float _.
Arguments _fetch_T {T} respond float _.
Arguments _fetch_X {T} respond float _.
Arguments _fetch_Y {T} respond float _.
Arguments get_amp {T} respond _.

(** The four readings, by the position of their value in the reply. *)
Definition fetchers {T : Type}
    (respond : T -> string -> T * outcome string)
    (float : string -> outcome Q) : list (M (state T) Q) :=
  [_fetch_R respond float; _fetch_T respond float;
   _fetch_X respond float; _fetch_Y respond float].

(** A lock-in that answers every text with the same reply. *)
Definition steady (reply : string) (w : unit) (cmd : string)
  : unit * outcome string := (tt, Return reply).

(** A reader of whole numbers, standing for [float] in the examples. *)
Definition float_of_digits (s : string) : outcome Q :=
  match s with
  | EmptyString => Raise ValueError
  | _ => if forallb is_digit (list_ascii_of_string s)
         then Return (inject_Z (digits_value s))
         else Raise ValueError
  end.

(** *** [split] and [join] *)

Lemma split_nonempty (sep : ascii) (s : string) : split sep s <> [].
Proof.
  destruct s as [| c rest]; simpl; [discriminate |].
  destruct (Ascii.eqb c sep); [discriminate |].
  destruct (split sep rest); discriminate.
Qed.

Lemma split_free (sep : ascii) (s : string) :
  free_of sep s = true -> split sep s = [s].
Proof.
  induction s as [| c rest IH]; simpl; intros H; [reflexivity |].
  apply andb_true_iff in H as [Hc Hr]. apply negb_true_iff in Hc.
  rewrite Hc, (IH Hr). reflexivity.
Qed.

Lemma split_app (sep : ascii) (field rest : string) :
  free_of sep field = true ->
  split sep (field ++ String sep rest) = field :: split sep rest.
Proof.
  induction field as [| c f IH]; simpl; intros H.
  - rewrite Ascii.eqb_refl. reflexivity.
  - apply andb_true_iff in H as [Hc Hr]. apply negb_true_iff in Hc.
    rewrite Hc, (IH Hr). reflexivity.
Qed.

(** Splitting what was joined gives the fields back. *)
Lemma split_join (sep : ascii) (fields : list string) :
  fields <> [] ->
  forallb (free_of sep) fields = true ->
  split sep (join sep fields) = fields.
Proof.
  induction fields as [| f rest IH]; intros Hne Hf; [contradiction |].
  cbn [forallb] in Hf. apply andb_true_iff in Hf as [Hf Hr].
  destruct rest as [| g rest'].
  - simpl. apply split_free. exact Hf.
  - change (join sep (f :: g :: rest'))
      with (f ++ String sep (join sep (g :: rest'))).
    rewrite (split_app sep f _ Hf). f_equal.
    apply IH; [discriminate | exact Hr].
Qed.

(** *** LI5660: the four readings *)

(** Property X21.  When the lock-in answers [':FETC?'] with values
    separated by commas, the reading at position [k] (R, T, X, Y are 0,
    1, 2, 3) sends that one query and returns [float] of the value at
    position [k]; when the reply holds [k] values or fewer (as with an
    output configuration of two values and the readings X and Y) it
    raises [IndexError]. *)
Theorem fetch_reads_its_position (T : Type)
    (respond : T -> string -> T * outcome string)
    (float : string -> outcome Q)
    (st : state T) (w : T) (fields : list string) (k : nat)
    (fetch : M (state T) Q) :
  respond (wire st) ":FETC?" = (w, Return (join "," fields)) ->
  fields <> [] ->
  forallb (free_of ",") fields = true ->
  nth_error (fetchers respond float) k = Some fetch ->
  fetch st =
  ({| wire := w; sent := (sent st ++ [":FETC?"])%list |},
   match nth_error fields k with
   | Some val => float val
   | None => Raise IndexError
   end).
Proof.
  intros Hr Hne Hf Hk.
  assert (Hs : split "," (join "," fields) = fields)
    by (apply split_join; assumption).
  destruct k as [| [| [| [| k]]]]; cbn in Hk;
    try (destruct k; discriminate Hk);
    inversion Hk; subst fetch;
    unfold _fetch_R, _fetch_T, _fetch_X, _fetch_Y, bind, ask_raw, lift,
      item;
    rewrite Hr, Hs;
    match goal with
    | |- context [nth_error fields ?i] =>
        destruct (nth_error fields i) as [val |]; [| reflexivity];
        destruct (float val); reflexivity
    end.
Qed.

(** A reply of two values: T is the second, X is not there. *)
Lemma fetch_reads_its_position_witness :
  (["12"; "34"] <> [] /\
   forallb (free_of ",") ["12"; "34"] = true) /\
  _fetch_T (steady "12,34") float_of_digits {| wire := tt; sent := [] |}
    = ({| wire := tt; sent := [":FETC?"] |}, Return 34%Q) /\
  _fetch_X (steady "12,34") float_of_digits {| wire := tt; sent := [] |}
    = ({| wire := tt; sent := [":FETC?"] |}, Raise IndexError).
Proof.
  assert (H1 : ["12"; "34"] <> []) by discriminate.
  assert (H2 : forallb (free_of ",") ["12"; "34"] = true) by reflexivity.
  split; [split; assumption |].
  split.
  - exact (fetch_reads_its_position unit (steady "12,34") float_of_digits
             {| wire := tt; sent := [] |} tt ["12"; "34"] 1
             (_fetch_T (steady "12,34") float_of_digits)
             eq_refl H1 H2 eq_refl).
  - exact (fetch_reads_its_position unit (steady "12,34") float_of_digits
             {| wire := tt; sent := [] |} tt ["12"; "34"] 2
             (_fetch_X (steady "12,34") float_of_digits)
             eq_refl H1 H2 eq_refl).
Defined.

(** *** LI5660: the array and the single readings *)

Lemma floats_item (float : string -> outcome Q)
    (fields : list string) (xs : list Q) (k : nat) :
  floats float fields = Return xs ->
  match nth_error fields k with
  | Some val => float val
  | None => Raise IndexError
  end = item xs k.
Proof.
  revert xs k. induction fields as [| f rest IH]; intros xs k H.
  - cbn in H. inversion H. destruct k; reflexivity.
  - cbn [floats] in H. destruct (float f) as [x |] eqn:Ef; [| discriminate].
    destruct (floats float rest) as [ys |] eqn:Er; [| discriminate].
    inversion H; subst xs. destruct k as [| k]; cbn.
    + exact Ef.
    + exact (IH ys k eq_refl).
Qed.

Lemma floats_length (float : string -> outcome Q)
    (fields : list string) (xs : list Q) :
  floats float fields = Return xs -> List.length xs = List.length fields.
Proof.
  revert xs. induction fields as [| f rest IH]; intros xs H.
  - cbn in H. inversion H. reflexivity.
  - cbn [floats] in H. destruct (float f) as [x |]; [| discriminate].
    destruct (floats float rest) as [ys |]; [| discriminate].
    inversion H. cbn. f_equal. exact (IH ys eq_refl).
Qed.

(** Property X22.  Whatever the reply to [':FETC?'] is, when
    [_fetch_data] returns an array on it the array is not empty, and the
    readings R, T, X, Y on the same reply return its entries 0, 1, 2, 3,
    raising [IndexError] where the array is shorter. *)
Theorem fetch_data_agrees_with_readings (T : Type)
    (respond : T -> string -> T * outcome string)
    (float : string -> outcome Q)
    (st : state T) (w : T) (output : string) (xs : list Q) (k : nat)
    (fetch : M (state T) Q) :
  respond (wire st) ":FETC?" = (w, Return output) ->
  snd (_fetch_data respond float st) = Return xs ->
  nth_error (fetchers respond float) k = Some fetch ->
  xs <> [] /\ snd (fetch st) = item xs k.
Proof.
  intros Hr Hd Hk.
  unfold _fetch_data, bind, ask_raw, lift in Hd. rewrite Hr in Hd.
  cbn [snd] in Hd.
  destruct (floats float (split "," output)) as [ys |] eqn:Ef;
    [| discriminate].
  cbn in Hd. inversion Hd; subst ys. split.
  - intros E. subst xs. apply floats_length in Ef. cbn in Ef.
    destruct (split "," output) eqn:Es; [| discriminate].
    exact (split_nonempty _ _ Es).
  - rewrite <- (floats_item float _ xs k Ef).
    destruct k as [| [| [| [| k]]]]; cbn in Hk;
      try (destruct k; discriminate Hk);
      inversion Hk; subst fetch;
      unfold _fetch_R, _fetch_T, _fetch_X, _fetch_Y, bind, ask_raw, lift,
        item;
      rewrite Hr;
      match goal with
      | |- context [nth_error (split "," output) ?i] =>
          destruct (nth_error (split "," output) i) as [val |];
          [| reflexivity];
          destruct (float val); reflexivity
      end.
Qed.

Lemma fetch_data_agrees_with_readings_witness :
  snd (_fetch_data (steady "12,34") float_of_digits
         {| wire := tt; sent := [] |}) = Return [12%Q; 34%Q] /\
  snd (_fetch_T (steady "12,34") float_of_digits
         {| wire := tt; sent := [] |}) = Return 34%Q.
Proof.
  assert (H : snd (_fetch_data (steady "12,34") float_of_digits
                     {| wire := tt; sent := [] |}) = Return [12%Q; 34%Q])
    by reflexivity.
  split; [exact H |].
  exact (proj2 (fetch_data_agrees_with_readings unit (steady "12,34")
                  float_of_digits {| wire := tt; sent := [] |} tt "12,34"
                  [12%Q; 34%Q] 1
                  (_fetch_T (steady "12,34") float_of_digits)
                  eq_refl H eq_refl)).
Defined.

(** *** LI5640: the amplitude and its range *)

(** Property X23.  When the lock-in answers ['AMPL?'] with fields
    separated by commas, [get_amp] returns the two fields without the
    blanks around them if there are exactly two, and otherwise raises
    the [ValueError] of the unpacking. *)
Theorem get_amp_wants_two_fields (T : Type)
    (respond : T -> string -> T * outcome string)
    (st : state T) (w : T) (fields : list string) :
  respond (wire st) "AMPL?" = (w, Return (join "," fields)) ->
  fields <> [] ->
  forallb (free_of ",") fields = true ->
  get_amp respond st =
  ({| wire := w; sent := (sent st ++ ["AMPL?"])%list |},
   match fields with
   | [amp; range] => Return (strip amp, strip range)
   | _ => Raise ValueError
   end).
Proof.
  intros Hr Hne Hf. unfold get_amp, bind, ask_raw. rewrite Hr.
  rewrite (split_join "," fields Hne Hf).
  destruct fields as [| a [| b [| c rest]]]; reflexivity.
Qed.

Lemma get_amp_wants_two_fields_witness :
  ([" 0.5"; " 1 "; "0"] <> [] /\
   forallb (free_of ",") [" 0.5"; " 1 "; "0"] = true) /\
  get_amp (steady " 0.5, 1 ") {| wire := tt; sent := [] |}
    = ({| wire := tt; sent := ["AMPL?"] |}, Return ("0.5", "1")) /\
  get_amp (steady " 0.5, 1 ,0") {| wire := tt; sent := [] |}
    = ({| wire := tt; sent := ["AMPL?"] |}, Raise ValueError).
Proof.
  assert (H1 : [" 0.5"; " 1 "; "0"] <> []) by discriminate.
  assert (H2 : forallb (free_of ",") [" 0.5"; " 1 "; "0"] = true)
    by reflexivity.
  split; [split; assumption |].
  split.
  - refine (get_amp_wants_two_fields unit (steady " 0.5, 1 ")
              {| wire := tt; sent := [] |} tt [" 0.5"; " 1 "]
              eq_refl _ eq_refl).
    discriminate.
  - exact (get_amp_wants_two_fields unit (steady " 0.5, 1 ,0")
             {| wire := tt; sent := [] |} tt [" 0.5"; " 1 "; "0"]
             eq_refl H1 H2).
Defined.

End NF.

(* ================================================================= *)
(** ** drivers/AndeenHagerling/AH2500A.py: the capacitance reading *)

Module AH2500A.
Import Py Py.Notations NF.
Local Open Scope string_scope.

(** [s.split()]: the runs of characters that are not white space. *)
Fixpoint words (s : string) : list string :=
  match s with
  | EmptyString => []
  | String c rest =>
      if is_space c then words rest
      else
        match rest with
        | EmptyString => [String c EmptyString]
        | String d _ =>
            if is_space d then String c EmptyString :: words rest
            else match words rest with
                 | word :: others => String c word :: others
                 | [] => [String c EmptyString]
                 end
        end
  end.

(** A run of white space, possibly empty. *)
Definition blank (s : string) : bool :=
  forallb is_space (list_ascii_of_string s).

(** A word: at least one character, none of them white space. *)
Definition word (s : string) : bool :=
  match s with
  | EmptyString => false
  | _ => forallb (fun c => negb (is_space c)) (list_ascii_of_string s)
  end.

(** The text ends here or goes on with white space. *)
Definition breaks (s : string) : bool :=
  match s with
  | EmptyString => true
  | String c _ => is_space c
  end.

Section Driver.

Variable T : Type.
Variable respond : T -> string -> T * outcome string.
Variable float : string -> outcome Q.

(** [_fetch_C]: trigger a measurement and read the second word of the
    reply. *)
Definition _fetch_C : M (state T) Q :=
  output <- ask_raw respond "TRG" ;;
  field <- lift (item (words output) 1) ;;
  lift (float field).

End Driver.

Arguments _fetch_C {T} respond float _.

(** *** Words of a reply *)

Lemma words_blank (gap s : string) :
  blank gap = true -> words (gap ++ s) = words s.
Proof.
  induction gap as [| c g IH]; intros H; [reflexivity |].
  unfold blank in H. cbn [list_ascii_of_string forallb] in H.
  apply andb_true_iff in H as [Hc Hg].
  cbn [append words]. rewrite Hc. exact (IH Hg).
Qed.

Lemma words_word (t s : string) :
  word t = true -> breaks s = true -> words (t ++ s) = t :: words s.
Proof.
  intros Ht Hs. induction t as [| c t' IH]; [discriminate |].
  unfold word in Ht. cbn [list_ascii_of_string forallb] in Ht.
  apply andb_true_iff in Ht as [Hc Ht']. apply negb_true_iff in Hc.
  destruct t' as [| c' t''].
  - cbn [append words]. rewrite Hc.
    destruct s as [| d s']; [reflexivity |].
    cbn [breaks] in Hs. rewrite Hs. reflexivity.
  - assert (Hw : word (String c' t'') = true) by exact Ht'.
    specialize (IH Hw).
    cbn [list_ascii_of_string forallb] in Ht'.
    apply andb_true_iff in Ht' as [Hc' _]. apply negb_true_iff in Hc'.
    change ((String c (String c' t'') ++ s))
      with (String c (String c' t'' ++ s)).
    cbn [words]. rewrite Hc.
    change (String c' t'' ++ s) with (String c' (t'' ++ s)) in *.
    cbv beta iota. rewrite Hc'. rewrite IH. reflexivity.
Qed.

(** *** The second word *)

(** Property X24.  When the bridge answers ['TRG'] with a first word,
    white space, a second word and then the end or more white space,
    whatever follows, [_fetch_C] returns [float] of the second word (for
    a reply such as ['C= 1.25 PF L= ...'] the number after ['C=']). A
    reply of one word or of white space alone raises [IndexError]. *)
Theorem fetch_C_reads_second_word (T : Type)
    (respond : T -> string -> T * outcome string)
    (float : string -> outcome Q)
    (st : state T) (w : T) (lead first gap second rest : string) :
  blank lead = true -> word first = true -> blank gap = true ->
  (respond (wire st) "TRG"
     = (w, Return (lead ++ first ++ gap ++ second ++ rest)) ->
   gap <> EmptyString -> word second = true -> breaks rest = true ->
   _fetch_C respond float st =
   ({| wire := w; sent := (sent st ++ ["TRG"])%list |}, float second)) /\
  (respond (wire st) "TRG" = (w, Return (lead ++ first ++ gap)) ->
   _fetch_C respond float st =
   ({| wire := w; sent := (sent st ++ ["TRG"])%list |}, Raise IndexError)) /\
  (respond (wire st) "TRG" = (w, Return lead) ->
   _fetch_C respond float st =
   ({| wire := w; sent := (sent st ++ ["TRG"])%list |}, Raise IndexError)).
Proof.
  intros Hl Hf Hg.
  assert (Hbg : forall s, gap <> EmptyString -> breaks (gap ++ s) = true).
  { intros s Hne. destruct gap as [| c g]; [contradiction |].
    unfold blank in Hg. cbn [list_ascii_of_string forallb] in Hg.
    apply andb_true_iff in Hg as [Hc _]. exact Hc. }
  assert (Hbb : breaks gap = true).
  { destruct gap as [| c g]; [reflexivity |].
    unfold blank in Hg. cbn [list_ascii_of_string forallb] in Hg.
    apply andb_true_iff in Hg as [Hc _]. exact Hc. }
  assert (Hnil : forall g, blank g = true -> words g = []).
  { intros g H.
    assert (Eg : g ++ EmptyString = g).
    { clear H. induction g as [| c g' IH]; [reflexivity |].
      cbn [append]. f_equal. exact IH. }
    rewrite <- Eg. exact (words_blank g EmptyString H). }
  split; [| split].
  - intros Hr Hne Hs Hb. unfold _fetch_C, bind, ask_raw, lift.
    rewrite Hr.
    rewrite (words_blank lead _ Hl).
    rewrite (words_word first _ Hf (Hbg _ Hne)).
    rewrite (words_blank gap _ Hg).
    rewrite (words_word second _ Hs Hb).
    cbn [item nth_error]. destruct (float second); reflexivity.
  - intros Hr. unfold _fetch_C, bind, ask_raw, lift. rewrite Hr.
    rewrite (words_blank lead _ Hl).
    rewrite (words_word first _ Hf Hbb).
    rewrite (Hnil gap Hg). reflexivity.
  - intros Hr. unfold _fetch_C, bind, ask_raw, lift. rewrite Hr.
    rewrite (Hnil lead Hl). reflexivity.
Qed.

(** A reply of the bridge, and one cut after its first word. *)
Lemma fetch_C_reads_second_word_witness :
  (blank "" = true /\ word "C=" = true /\ blank "  " = true /\
   "  " <> "" /\ word "125" = true /\ breaks " PF L= 0" = true) /\
  _fetch_C (steady "C=  125 PF L= 0") float_of_digits
    {| wire := tt; sent := [] |}
    = ({| wire := tt; sent := ["TRG"] |}, Return 125%Q) /\
  _fetch_C (steady "C=  ") float_of_digits {| wire := tt; sent := [] |}
    = ({| wire := tt; sent := ["TRG"] |}, Raise IndexError).
Proof.
  assert (Hne : "  " <> "") by discriminate.
  split; [repeat split; exact Hne |].
  split.
  - exact (proj1 (fetch_C_reads_second_word unit
                    (steady "C=  125 PF L= 0") float_of_digits
                    {| wire := tt; sent := [] |} tt
                    "" "C=" "  " "125" " PF L= 0"
                    eq_refl eq_refl eq_refl)
             eq_refl Hne eq_refl eq_refl).
  - exact (proj1 (proj2 (fetch_C_reads_second_word unit
                           (steady "C=  ") float_of_digits
                           {| wire := tt; sent := [] |} tt
                           "" "C=" "  " "" ""
                           eq_refl eq_refl eq_refl))
             eq_refl).
Defined.

End AH2500A.

(* ================================================================= *)
(** ** Value mappings: what a reply decodes to *)

Module ValMappingMore.
Import Py Py.Notations PyFacts ValMapping.
Local Open Scope string_scope.

(** The item found under a key. *)
Definition found (d : dict) (k v : value) : Prop :=
  exists k', In (k', v) d /\ value_eqb k' k = true.

(** The spellings of on. *)
Definition spells_on (symbol : value) : bool :=
  existsb (value_eqb symbol)
    [VStr "On"; VStr "ON"; VStr "on"; VStr "1"; VBool true].

(** [==] on the values is symmetric and transitive. *)
Lemma value_eqb_sym (a b : value) : value_eqb a b = value_eqb b a.
Proof.
  destruct a, b; cbn; try reflexivity.
  - apply String.eqb_sym.
  - apply Z.eqb_sym.
  - destruct b, b0; reflexivity.
Qed.

Lemma value_eqb_trans (a b c : value) :
  value_eqb a b = true -> value_eqb b c = true -> value_eqb a c = true.
Proof.
  destruct a as [s | m | x], b as [t | n | y], c as [u | k | z]; cbn;
    try discriminate; intros H1 H2;
    repeat match goal with
           | H : String.eqb _ _ = true |- _ => apply String.eqb_eq in H
           | H : Z.eqb _ _ = true |- _ => apply Z.eqb_eq in H
           | H : Bool.eqb _ _ = true |- _ => apply Bool.eqb_prop in H
           end;
    subst;
    try apply String.eqb_refl; try apply Z.eqb_refl;
    try apply Z.eqb_eq;
    repeat match goal with
           | v : bool |- _ => destruct v
           end;
    cbn in *; congruence.
Qed.

Lemma dict_get_found (d : dict) (k v : value) :
  dict_get d k = Some v -> found d k v.
Proof.
  induction d as [| [k' v'] rest IH]; cbn; intros H; [discriminate |].
  destruct (value_eqb k' k) eqn:E.
  - inversion H; subst v'. exists k'. split; [left; reflexivity | exact E].
  - destruct (IH H) as (k'' & Hin & Hk). exists k''.
    split; [right; exact Hin | exact Hk].
Qed.

Lemma dict_set_found (d : dict) (a b k v : value) :
  found (dict_set d a b) k v ->
  found d k v \/ (v = b /\ value_eqb a k = true).
Proof.
  induction d as [| [k' v'] rest IH]; cbn; intros (k0 & Hin & Hk).
  - destruct Hin as [Hin | []]. inversion Hin; subst.
    right. split; [reflexivity | exact Hk].
  - destruct (value_eqb k' a) eqn:E.
    + destruct Hin as [Hin | Hin].
      * inversion Hin; subst. right. split; [reflexivity |].
        apply value_eqb_trans with k0; [| exact Hk].
        rewrite value_eqb_sym. exact E.
      * left. exists k0. split; [right; exact Hin | exact Hk].
    + destruct Hin as [Hin | Hin].
      * inversion Hin; subst. left. exists k0.
        split; [left; reflexivity | exact Hk].
      * destruct (IH (ex_intro _ k0 (conj Hin Hk))) as [(k1 & H1 & H2) | H].
        -- left. exists k1. split; [right; exact H1 | exact H2].
        -- right. exact H.
Qed.

Lemma fold_set_found (items : list (value * value)) (d : dict)
    (k v : value) :
  found (fold_left (fun d kv => dict_set d (fst kv) (snd kv)) items d) k v ->
  found d k v \/ found items k v.
Proof.
  revert d. induction items as [| [a b] rest IH]; cbn [fold_left]; intros d H.
  - left. exact H.
  - destruct (IH _ H) as [Hd | (k' & Hin & Hk)].
    + cbn [fst snd] in Hd.
      destruct (dict_set_found d a b k v Hd) as [Hd' | [-> Hk]].
      * left. exact Hd'.
      * right. exists a. split; [left; reflexivity | exact Hk].
    + right. exists k'. split; [right; exact Hin | exact Hk].
Qed.

(** A key of the inverse mapping is the token of an item of the
    mapping. *)
Lemma inverse_found (m : dict) (token symbol : value) :
  dict_get (inverse_val_mapping m) token = Some symbol ->
  exists token', In (symbol, token') m /\ value_eqb token' token = true.
Proof.
  intros H. apply dict_get_found in H.
  unfold inverse_val_mapping, dict_of_items in H.
  destruct (fold_set_found _ [] token symbol H)
    as [(k' & [] & _) | (k' & Hin & Hk)].
  apply in_map_iff in Hin as ([s t] & E & Hin). cbn in E.
  inversion E; subst. exists k'. split; [exact Hin | exact Hk].
Qed.

(** Property X25.  For every value mapping and every reply: when the
    reply decodes, the symbol returned is one of the mapping whose token
    is the reply, as the text itself or as the integer it spells; every
    other reply raises [KeyError], and no other exception comes out. *)
Theorem decode_returns_declared_symbol (m : dict) (raw : string) :
  match decode m raw with
  | Return symbol =>
      exists token,
        In (symbol, token) m /\
        (value_eqb token (VStr raw) = true \/
         exists n, int raw = Return n /\ value_eqb token (VInt n) = true)
  | Raise e => e = KeyError
  end.
Proof.
  unfold decode.
  destruct (dict_get (inverse_val_mapping m) (VStr raw)) as [s |] eqn:E1.
  - destruct (inverse_found m _ s E1) as (t & Hin & Ht).
    exists t. split; [exact Hin | left; exact Ht].
  - destruct (int raw) as [n | e] eqn:Ei; [| reflexivity].
    destruct (dict_get (inverse_val_mapping m) (VInt n)) as [s |] eqn:E2;
      [| reflexivity].
    destruct (inverse_found m _ s E2) as (t & Hin & Ht).
    exists t. split; [exact Hin |]. right. exists n.
    split; [reflexivity | exact Ht].
Qed.

(** *** The on/off mapping of [MS2830.cont_meas] *)

(** Property X26.  On [cont_meas], setting any accepted spelling and
    reading the token back yields the boolean of the spelling: [True]
    for the spellings of on, [False] for those of off; a second round
    trip changes nothing more. *)
Theorem cont_meas_roundtrip_is_the_boolean (symbol : value) :
  In symbol (symbols MS2830_cont_meas) ->
  roundtrip MS2830_cont_meas symbol = Return (VBool (spells_on symbol)) /\
  roundtrip MS2830_cont_meas (VBool (spells_on symbol))
    = Return (VBool (spells_on symbol)).
Proof.
  intros Hs. vm_compute in Hs.
  repeat (destruct Hs as [<- | Hs]; [split; reflexivity |]).
  contradiction.
Qed.

Lemma cont_meas_roundtrip_is_the_boolean_witness :
  In (VStr "off") (symbols MS2830_cont_meas) /\
  roundtrip MS2830_cont_meas (VStr "off") = Return (VBool false).
Proof.
  assert (H : In (VStr "off") (symbols MS2830_cont_meas))
    by (vm_compute; tauto).
  split; [exact H |].
  exact (proj1 (cont_meas_roundtrip_is_the_boolean (VStr "off") H)).
Defined.

End ValMappingMore.

(* ================================================================= *)
(** ** drivers/Stahl/HV324.py: the codes a channel writes *)

Module StahlCodes.
Import Py Py.Notations PyFacts Rounding Stahl StahlMore.

(** The code of a set text lies between 0.000000 and 1.000000; every
    other text passes. *)
Definition code_in_unit (req : request) : bool :=
  match req with
  | ReqCH _ code => (0 <=? code)%Z && (code <=? 1000000)%Z
  | _ => true
  end.

Section Codes.

Variable T : Type.
Variable respond : T -> request -> T * outcome reply.
Variable self : StahlChannel.

(** The device spans the ten volts the Parameter admits. *)
Hypothesis wide : (10 <= voltage_range (parent self))%Q.

(** A call keeps the texts written and adds only texts whose code is
    in the unit interval. *)
Definition writes_codes {A} (c : M (state T) A) : Prop :=
  forall st, exists extra,
    sent (fst (c st)) = (sent st ++ extra)%list /\
    forallb code_in_unit extra = true.

Lemma writes_codes_silent {A} (c : M (state T) A) :
  (forall st, sent (fst (c st)) = sent st) -> writes_codes c.
Proof.
  intros H st. exists []. rewrite app_nil_r. split; [apply H | reflexivity].
Qed.

Lemma writes_codes_bind {A B} (c : M (state T) A)
    (k : A -> M (state T) B) :
  writes_codes c -> (forall a, writes_codes (k a)) ->
  writes_codes (bind c k).
Proof.
  intros Hc Hk st. unfold bind. destruct (Hc st) as (e1 & H1 & F1).
  destruct (c st) as [s1 [a | e]]; simpl in *.
  - destruct (Hk a s1) as (e2 & H2 & F2). exists (e1 ++ e2)%list.
    rewrite H2, H1, app_assoc, forallb_app, F1, F2. split; reflexivity.
  - exists e1. split; assumption.
Qed.

Lemma writes_codes_for_each {A} (xs : list A)
    (body : A -> M (state T) unit) :
  (forall x, writes_codes (body x)) -> writes_codes (for_each xs body).
Proof.
  intros Hb. induction xs as [| x rest IH]; simpl.
  - apply writes_codes_silent. reflexivity.
  - apply writes_codes_bind; [apply Hb | intros _; exact IH].
Qed.

Lemma writes_codes_ask_raw (req : request) :
  code_in_unit req = true -> writes_codes (ask_raw respond req).
Proof.
  intros H st. exists [req]. unfold ask_raw.
  destruct (respond (wire st) req) as [w r]. simpl. rewrite H.
  split; reflexivity.
Qed.

Lemma writes_codes_ask (req : request) :
  code_in_unit req = true -> writes_codes (ask respond req).
Proof.
  intros H. unfold ask. apply writes_codes_bind.
  - apply writes_codes_ask_raw. exact H.
  - intros _. apply writes_codes_silent. reflexivity.
Qed.

(** What follows a validation is run on an admitted value only. *)
Lemma writes_codes_validated {A} (x : Q) (k : M (state T) A) :
  (validate x = Return tt -> writes_codes k) ->
  writes_codes (lift (validate x) ;;; k).
Proof.
  intros H st. unfold bind, lift.
  destruct (validate x) as [[] | e] eqn:E.
  - exact (H eq_refl st).
  - exists []. rewrite app_nil_r. split; reflexivity.
Qed.

Lemma validate_admits (x : Q) :
  validate x = Return tt -> (-10 <= x)%Q /\ (x <= 10)%Q.
Proof.
  unfold validate.
  destruct (Qle_bool (-10) x) eqn:E1; [| discriminate].
  destruct (Qle_bool x 10) eqn:E2; [| discriminate].
  intros _. split; apply Qle_bool_iff; assumption.
Qed.

Lemma writes_codes_set_voltage (v : Q) :
  validate v = Return tt -> writes_codes (_set_voltage respond self v).
Proof.
  intros Hv. apply validate_admits in Hv as [Hlo Hhi].
  unfold _set_voltage.
  destruct (Qeq_bool (2 * voltage_range (parent self)) 0).
  - apply writes_codes_silent. reflexivity.
  - apply writes_codes_bind.
    + apply writes_codes_ask_raw. unfold code_in_unit.
      assert (H : (0 <= format_f 6 (encode_voltage self v) <= 1000000)%Z).
      { apply code_within_unit_interval; lra. }
      apply andb_true_iff. split; apply Z.leb_le; lia.
    + intros r. destruct (negb (reply_eqb r acknowledge_reply));
        apply writes_codes_silent; reflexivity.
Qed.

Lemma writes_codes_voltage_get : writes_codes (voltage_get respond self).
Proof.
  unfold voltage_get, _get_voltage.
  apply writes_codes_bind.
  - apply writes_codes_bind; [apply writes_codes_ask_raw; reflexivity |].
    intros r. apply writes_codes_bind; intros;
      apply writes_codes_silent; reflexivity.
  - intros v. apply writes_codes_bind; intros;
      apply writes_codes_silent; reflexivity.
Qed.

Lemma writes_codes_get_ramp_values (v : Q) :
  writes_codes (get_ramp_values respond self v).
Proof.
  unfold get_ramp_values.
  apply writes_codes_bind; [apply writes_codes_silent; reflexivity |].
  intros [stp |]; [| apply writes_codes_silent; reflexivity].
  apply writes_codes_bind; [apply writes_codes_silent; reflexivity |].
  intros c. apply writes_codes_bind.
  - destruct c; [apply writes_codes_silent; reflexivity |].
    apply writes_codes_voltage_get.
  - intros. apply writes_codes_silent. reflexivity.
Qed.

Lemma writes_codes_voltage_set (v : Q) :
  writes_codes (voltage_set respond self v).
Proof.
  unfold voltage_set.
  apply writes_codes_validated. intros _.
  apply writes_codes_bind; [apply writes_codes_get_ramp_values |].
  intros steps. apply writes_codes_for_each. intros x.
  apply writes_codes_validated. intros Hx.
  apply writes_codes_bind; [apply writes_codes_set_voltage; exact Hx |].
  intros _. apply writes_codes_silent. reflexivity.
Qed.

Lemma writes_codes_set_step (s : option Q) : writes_codes (@set_step T s).
Proof.
  apply writes_codes_silent. intros st. unfold set_step.
  destruct s as [x |]; [| reflexivity].
  destruct (Qeq_bool x 0); [reflexivity |].
  destruct (Qle_bool x 0); reflexivity.
Qed.

Lemma writes_codes_set_inter_delay (d : Q) :
  writes_codes (@set_inter_delay T d).
Proof.
  apply writes_codes_silent. intros st. unfold set_inter_delay.
  destruct (Qle_bool 0 d); reflexivity.
Qed.

Lemma writes_codes_ramp (ramp_to stp delay : Q) :
  writes_codes (ramp respond self ramp_to stp delay).
Proof.
  unfold ramp.
  apply writes_codes_bind;
    [apply writes_codes_silent; reflexivity | intros s0].
  apply writes_codes_bind;
    [apply writes_codes_silent; reflexivity | intros d0].
  apply writes_codes_bind; [apply writes_codes_set_step | intros _].
  apply writes_codes_bind; [apply writes_codes_set_inter_delay | intros _].
  apply writes_codes_bind; [apply writes_codes_ask; reflexivity | intros _].
  apply writes_codes_bind; [apply writes_codes_voltage_set | intros _].
  apply writes_codes_bind; [apply writes_codes_ask; reflexivity | intros _].
  apply writes_codes_bind; [apply writes_codes_set_step | intros _].
  apply writes_codes_set_inter_delay.
Qed.

(** Property X5.  On a device whose range is 10 V or more, every set
    text that [voltage(value)] or [ramp] writes, on the way to the
    target as for the target itself, carries a code between 0.000000 and
    1.000000: the validator of the Parameter stands before each write.
    This holds on any transport, for any value, step and delay, and
    whether the call returns or raises. *)
Theorem written_codes_in_unit_interval
    (value stp delay : Q) (st : state T) :
  (exists extra,
     sent (fst (voltage_set respond self value st))
       = (sent st ++ extra)%list /\
     forallb code_in_unit extra = true) /\
  (exists extra,
     sent (fst (ramp respond self value stp delay st))
       = (sent st ++ extra)%list /\
     forallb code_in_unit extra = true).
Proof.
  split.
  - apply writes_codes_voltage_set.
  - apply writes_codes_ramp.
Qed.

End Codes.

(** The ramp of channel 1 of the 200 V device from 0 V to 0.2 V. *)
Lemma written_codes_in_unit_interval_witness :
  (10 <= voltage_range (parent ch01))%Q /\
  exists extra,
    sent (fst (ramp echo_respond ch01 (2 # 10) (1 # 10) 0 at_zero))
      = (sent at_zero ++ extra)%list /\
    forallb code_in_unit extra = true.
Proof.
  assert (H : (10 <= voltage_range (parent ch01))%Q) by (cbv; discriminate).
  split; [exact H |].
  exact (proj2 (written_codes_in_unit_interval echo_wire echo_respond ch01 H
                  (2 # 10) (1 # 10) 0 at_zero)).
Defined.

(** Below ten volts of range the validator admits what the device does
    not span: on a 5 V device, 10 V is written as the code 1.500000. *)
Example code_above_one_on_5V :
  sent (fst (voltage_set echo_respond
               {| parent := info_of HV 324 5 8 Bipolar; ch_name := "ch01";
                  channel_number := 1 |} 10 (fresh (fun _ => None))))
  = [ReqCH 1 1500000].
Proof. vm_compute. reflexivity. Qed.

End StahlCodes.

(* ================================================================= *)
(** ** drivers/Stahl/HV324.py: the names given to the channels *)

Module StahlNames.
Import Py Py.Notations PyFacts Stahl StahlMore.
Local Open Scope string_scope.

Lemma NoDup_distinct (l : list string) : NoDup l -> distinct l = true.
Proof.
  induction 1 as [| x rest Hx _ IH]; [reflexivity |].
  cbn [distinct]. rewrite IH, andb_true_r. apply negb_true_iff.
  apply existsb_eqb_In. exact Hx.
Qed.

Lemma NoDup_snoc (l : list string) (x : string) :
  NoDup l -> ~ In x l -> NoDup (l ++ [x]).
Proof.
  induction 1 as [| y rest Hy Hrest IH]; intros Hx; simpl.
  - constructor; [intros [] | constructor].
  - constructor.
    + intros Hin. apply in_app_or in Hin as [Hin | [E | []]].
      * exact (Hy Hin).
      * apply Hx. left. symmetry. exact E.
    + apply IH. intros Hin. apply Hx. right. exact Hin.
Qed.

Section Answering.

Variable T : Type.
Variable respond : T -> request -> T * outcome reply.

(** The transport answers every text. *)
Hypothesis answers : forall w req, exists w' r, respond w req = (w', Return r).

(** A name met twice stops the loop at its second channel. *)
Lemma build_channels_refuses (info : idn_info)
    (ch_names : option (list (Z * string))) (numbers : list Z)
    (attached : list string) (st : state T) :
  forallb valid_module_name (map (channel_name ch_names) numbers) = true ->
  NoDup attached ->
  ~ NoDup (attached ++ map (channel_name ch_names) numbers) ->
  exists st',
    build_channels respond info ch_names numbers attached st
      = (st', Raise KeyError).
Proof.
  revert attached st.
  induction numbers as [| k rest IH]; intros attached st Hv Ha Hdup.
  - exfalso. apply Hdup. cbn [map]. rewrite app_nil_r. exact Ha.
  - cbn [map forallb] in Hv. apply andb_true_iff in Hv as [Hk Hv].
    cbn [build_channels]. rewrite (StahlChannel_init_total _ _ _ Hk).
    cbv [snd lift bind]. fold (@bind (state T)).
    destruct (existsb (String.eqb (channel_name ch_names k)) attached)
      eqn:E.
    + unfold add_submodule. rewrite E. eexists. reflexivity.
    + assert (Ea : add_submodule attached (channel_name ch_names k)
                   = Return (attached ++ [channel_name ch_names k])%list)
        by (unfold add_submodule; rewrite E; reflexivity).
      rewrite Ea.
      destruct (ask_returns T respond answers
                  (ReqDISLabel k (channel_name ch_names k)) st)
        as [s1 E1].
      rewrite E1.
      destruct (IH (attached ++ [channel_name ch_names k])%list s1 Hv)
        as (s2 & E2).
      * apply NoDup_snoc; [exact Ha |]. apply existsb_eqb_In. exact E.
      * rewrite <- app_assoc. exact Hdup.
      * rewrite E2. eexists. reflexivity.
Qed.

(** A name the base class refuses stops the loop at its channel, unless
    a name met twice has stopped it before. *)
Lemma build_channels_invalid (info : idn_info)
    (ch_names : option (list (Z * string))) (numbers : list Z)
    (attached : list string) (st : state T) :
  forallb valid_module_name (map (channel_name ch_names) numbers) = false ->
  exists st' e,
    (e = ValueError \/ e = KeyError) /\
    build_channels respond info ch_names numbers attached st
      = (st', Raise e).
Proof.
  revert attached st.
  induction numbers as [| k rest IH]; intros attached st Hv.
  - discriminate Hv.
  - cbn [map forallb] in Hv. cbn [build_channels].
    rewrite StahlChannel_init_eq.
    destruct (valid_module_name (channel_name ch_names k)) eqn:Hk.
    + cbn [andb] in Hv. cbv [snd lift bind]. fold (@bind (state T)).
      destruct (add_submodule attached (channel_name ch_names k))
        as [attached' | e] eqn:Ea.
      * destruct (ask_returns T respond answers
                    (ReqDISLabel k (channel_name ch_names k)) st)
          as [s1 E1].
        rewrite E1.
        destruct (IH attached' s1 Hv) as (s2 & e & He & E2).
        rewrite E2. exists s2, e. split; [exact He | reflexivity].
      * unfold add_submodule in Ea.
        destruct (existsb (String.eqb (channel_name ch_names k)) attached);
          [| discriminate].
        inversion Ea; subst e. exists st, KeyError.
        split; [right; reflexivity | reflexivity].
    + cbv [snd lift bind]. exists st, ValueError.
      split; [left; reflexivity | reflexivity].
Qed.

(** Property X27.  On a transport that answers every text and with a
    recognised identity reply, [HV324.__init__] returns exactly when
    the names of the channels [1 .. n_channels] (those of [ch_names],
    ["chNN"] for the others) are acceptable names of modules and differ
    from one another and from ["channel"].  With acceptable names of
    which two are equal, or one is ["channel"], it raises the
    [KeyError] of [add_submodule]; with a name the base class of the
    channel refuses it raises that [ValueError], or the [KeyError] of a
    name met twice before it. *)
Theorem HV324_init_needs_valid_distinct_names
    (ch_names : option (list (Z * string)))
    (st : state T) (w : T) (s : string) (info : idn_info) :
  respond (wire st) ReqIDN = (w, Return (Text s)) ->
  parse_idn_string s = Return info ->
  (forallb valid_module_name
     (map (channel_name ch_names) (range1 (n_channels info))) = true ->
   NoDup (map (channel_name ch_names) (range1 (n_channels info))
          ++ ["channel"]) ->
   exists st',
     HV324_init respond ch_names st =
     (st', Return (info, map (channel_for info ch_names)
                             (range1 (n_channels info))))) /\
  (forallb valid_module_name
     (map (channel_name ch_names) (range1 (n_channels info))) = true ->
   ~ NoDup (map (channel_name ch_names) (range1 (n_channels info))
            ++ ["channel"]) ->
   exists st', HV324_init respond ch_names st = (st', Raise KeyError)) /\
  (forallb valid_module_name
     (map (channel_name ch_names) (range1 (n_channels info))) = false ->
   exists st' e,
     (e = ValueError \/ e = KeyError) /\
     HV324_init respond ch_names st = (st', Raise e)).
Proof.
  intros Hr Hp.
  set (names := map (channel_name ch_names) (range1 (n_channels info))).
  assert (Hstart : exists s1,
            HV324_init respond ch_names st =
            (built <- build_channels respond info ch_names
                        (range1 (n_channels info)) [] ;;
             lift (add_submodule (snd built) "channel") ;;;
             ret (info, fst built)) s1).
  { unfold HV324_init. cbv [bind ask_raw]. rewrite Hr.
    cbv [lift idn_of_reply]. rewrite Hp. fold (@bind (state T)).
    match goal with
    | |- context [ask respond ReqDISAuto ?s0] =>
        destruct (ask_returns T respond answers ReqDISAuto s0)
          as [s1 E1]; rewrite E1
    end.
    exists s1. reflexivity. }
  destruct Hstart as [s1 Es]. rewrite Es. clear Es. split; [| split].
  - intros Hv Hnd.
    assert (Hn : NoDup names) by exact (NoDup_app_remove_r _ _ Hnd).
    assert (Hc : ~ In "channel" names).
    { pose proof (NoDup_remove_2 _ _ _ Hnd) as H.
      rewrite app_nil_r in H. exact H. }
    destruct (build_channels_returns T respond answers info ch_names
                (range1 (n_channels info)) [] s1 Hv Hn)
      as (s2 & built & E2).
    unfold bind. rewrite E2.
    destruct (build_channels_built T respond _ _ _ _ _ _ _ E2)
      as (_ & Hb & Hat).
    assert (Ec : add_submodule (snd built) "channel"
                 = Return (snd built ++ ["channel"])%list).
    { unfold add_submodule.
      assert (E : existsb (String.eqb "channel") (snd built) = false)
        by (apply existsb_eqb_In; rewrite Hat; exact Hc).
      rewrite E. reflexivity. }
    cbv [lift]. rewrite Ec. cbv [ret]. rewrite Hb.
    eexists. reflexivity.
  - intros Hv Hdup. destruct (distinct names) eqn:Ed.
    + apply distinct_NoDup in Ed.
      destruct (build_channels_returns T respond answers info ch_names
                  (range1 (n_channels info)) [] s1 Hv Ed)
        as (s2 & built & E2).
      unfold bind. rewrite E2.
      destruct (build_channels_built T respond _ _ _ _ _ _ _ E2)
        as (_ & _ & Hat).
      assert (Hin : In "channel" names).
      { destruct (in_dec string_dec "channel" names) as [H | H];
          [exact H |].
        exfalso. apply Hdup. apply NoDup_snoc; assumption. }
      assert (E : existsb (String.eqb "channel") (snd built) = true).
      { apply existsb_exists. exists "channel".
        split; [rewrite Hat; exact Hin | apply String.eqb_refl]. }
      cbv [lift]. unfold add_submodule. rewrite E.
      eexists. reflexivity.
    + assert (Hn : ~ NoDup ([] ++ names)%list).
      { intros H. apply NoDup_distinct in H. cbn [app] in H. congruence. }
      destruct (build_channels_refuses info ch_names
                  (range1 (n_channels info)) [] s1 Hv (NoDup_nil _) Hn)
        as (s2 & E2).
      unfold bind. rewrite E2. eexists. reflexivity.
  - intros Hv.
    destruct (build_channels_invalid info ch_names
                (range1 (n_channels info)) [] s1 Hv)
      as (s2 & e & He & E2).
    unfold bind. rewrite E2. exists s2, e. split; [exact He | reflexivity].
Qed.

End Answering.

(** Two channels both named ["gate"], and a channel named
    ["top gate"]. *)
Lemma HV324_init_needs_valid_distinct_names_witness :
  (forall w req, exists w' r, hv324_respond w req = (w', Return r)) /\
  (forallb valid_module_name
     (map (channel_name (Some [(1, "gate"); (2, "gate")]%Z))
          (range1 (n_channels hv324))) = true /\
   ~ NoDup (map (channel_name (Some [(1, "gate"); (2, "gate")]%Z))
                (range1 (n_channels hv324)) ++ ["channel"]) /\
   exists st',
     HV324_init hv324_respond (Some [(1, "gate"); (2, "gate")]%Z)
       (fresh tt) = (st', Raise KeyError)) /\
  (forallb valid_module_name
     (map (channel_name (Some [(1, "top gate")]%Z))
          (range1 (n_channels hv324))) = false /\
   snd (HV324_init hv324_respond (Some [(1, "top gate")]%Z) (fresh tt))
     = Raise ValueError).
Proof.
  assert (H : forall w req,
             exists w' r, hv324_respond w req = (w', Return r)).
  { intros w req. destruct req; eexists; eexists; reflexivity. }
  assert (Hv : forallb valid_module_name
                 (map (channel_name (Some [(1, "gate"); (2, "gate")]%Z))
                      (range1 (n_channels hv324))) = true)
    by (vm_compute; reflexivity).
  assert (Hd : ~ NoDup
                 (map (channel_name (Some [(1, "gate"); (2, "gate")]%Z))
                      (range1 (n_channels hv324)) ++ ["channel"])).
  { intros Hn. apply NoDup_distinct in Hn. vm_compute in Hn.
    discriminate Hn. }
  assert (Hi : forallb valid_module_name
                 (map (channel_name (Some [(1, "top gate")]%Z))
                      (range1 (n_channels hv324))) = false)
    by (vm_compute; reflexivity).
  split; [exact H |]. split.
  - split; [exact Hv |]. split; [exact Hd |].
    exact (proj1 (proj2 (HV324_init_needs_valid_distinct_names unit
                           hv324_respond H
                           (Some [(1, "gate"); (2, "gate")]%Z) (fresh tt)
                           tt "HV324 200 08 b" hv324 eq_refl eq_refl))
             Hv Hd).
  - split; [exact Hi |].
    destruct (proj2 (proj2 (HV324_init_needs_valid_distinct_names unit
                              hv324_respond H
                              (Some [(1, "top gate")]%Z) (fresh tt)
                              tt "HV324 200 08 b" hv324 eq_refl eq_refl))
                Hi) as (st' & e & _ & E).
    rewrite E. cbn [snd].
    assert (E' : snd (HV324_init hv324_respond (Some [(1, "top gate")]%Z)
                        (fresh tt)) = Raise ValueError)
      by (vm_compute; reflexivity).
    rewrite E in E'. exact E'.
Defined.

End StahlNames.
